(** * SampleHandle: the sample-editing (pencil / smoothing brush) handle

    A shallow embedding of [src/tracks/playabletrack/wavetrack/ui/SampleHandle.cpp]
    and the properties of the sample editor that rest on it.

    Conventions of the embedding.
    - [float] and [double] values are rationals ([Q]): arithmetic is exact,
      the rounding of IEEE arithmetic and its special values are outside the
      model.  Equations between computed levels are stated with [==].  The
      theorems state of a computed level what rounding keeps: the formula
      the code evaluates, bounds, order, and values that are reached
      exactly; the lemmas on exact sums that serve them hold of the
      rationals only.  The
      smoothing brush is given a second time in IEEE binary32 and binary64
      arithmetic ([Module IEEE]), to run it on concrete windows.
    - [int], [wxCoord] and [ZoomInfo::int64] values are [Z].  Pixel
      arithmetic is assumed to stay inside the machine range (signed overflow
      is undefined in C++); the narrowing [int64 -> int] and the conversion
      [int -> size_t] that the source performs are written out.
    - The collaborators whose code is in other files (the view mapping, the
      clip, the envelope, the wave track, the display helpers of TrackArt)
      are interfaces: records and classes of operations.
    - A [shared_ptr<WaveTrack>] is an optional key into a store of tracks;
      calling a member function through a null pointer is a fault, and the
      methods of the handle run in a state monad with failure. *)

From Stdlib Require Import ZArith QArith Qminmax Qround Lqa Lia List Bool String Sorted.
From Stdlib Require Import SpecFloat.
Import ListNotations.

Local Open Scope Z_scope.
Local Open Scope Q_scope.

(** ** Numbers *)

Module Num.

(** [a < b] on [double]/[float] values, as a test. *)
Definition ltb (a b : Q) : bool :=
  match a ?= b with Lt => true | _ => false end.

(** [a == b] on [double] values, as a test. *)
Definition eqb (a b : Q) : bool := Qeq_bool a b.

(** [std::min(a, b)]: [(b < a) ? b : a]. *)
Definition std_min (a b : Q) : Q := if ltb b a then b else a.

(** [std::max(a, b)]: [(a < b) ? b : a]. *)
Definition std_max (a b : Q) : Q := if ltb a b then b else a.

(** [std::clamp(v, lo, hi)]: [(v < lo) ? lo : (hi < v) ? hi : v]. *)
Definition std_clamp (v lo hi : Q) : Q :=
  if ltb v lo then lo else if ltb hi v then hi else v.

(** [std::max<ZoomInfo::int64>(a, b)]. *)
Definition std_max_int64 (a b : Z) : Z := if (a <? b)%Z then b else a.

(** Narrowing of a 64-bit position to [int] (two's complement). *)
Definition to_int (z : Z) : Z :=
  ((z + 2147483648) mod 4294967296 - 2147483648)%Z.

(** Conversion of an [int] to [size_t] in a mixed comparison. *)
Definition to_size_t (z : Z) : Z := (z mod 18446744073709551616)%Z.

(** The integers [lo, lo+1, ..., lo+n-1]: the values a counting [for]
    loop runs through. *)
Fixpoint zrange (lo : Z) (n : nat) : list Z :=
  match n with
  | O => []
  | S n' => lo :: zrange (lo + 1)%Z n'
  end.

End Num.

(** ** Plain data of the toolkit *)

(** [wxRect]. *)
Record wxRect : Type := mkRect {
  x : Z;
  y : Z;
  width : Z;
  height : Z
}.

(** [wxMouseState] (and [wxMouseEvent], which extends it): the fields the
    handle reads. *)
Record wxMouseState : Type := mkMouse {
  m_x : Z;
  m_y : Z;
  m_altDown : bool;
  m_controlDown : bool
}.

(** [TrackPanelMouseEvent]: the event and the rectangle of the cell. *)
Record TrackPanelMouseEvent : Type := mkTPME {
  event : wxMouseState;
  rect : wxRect
}.

(** ** Collaborators *)

(** [ZoomInfo::Interval]: a run of pixels that share one zoom. *)
Record Interval : Type := mkInterval {
  position : Z;
  averageZoom : Q;
  inFisheye : bool
}.

(** [ViewInfo] (a [ZoomInfo]).  [origin] has the default value 0 in both
    conversions; the calls of the source that omit it pass 0 here. *)
Record ViewInfo : Type := mkViewInfo {
  PositionToTime : Z -> Z -> Q;
  TimeToPosition : Q -> Z -> Z;
  FindIntervals : Z -> list Interval
}.

(** [WaveClip]: what [adjustTime] and [SampleResolutionTest] ask of it. *)
Record WaveClip : Type := mkClip {
  GetPlayStartTime : Q;
  GetRate : Q;
  GetStretchRatio : Q;
  TimeToSamples : Q -> Z;
  SamplesToTime : Z -> Q
}.

(** [Envelope]. *)
Record Envelope : Type := mkEnvelope {
  GetValue : Q -> Q
}.

(** [sampleFormat], and the format the handle asks the writes to keep. *)
Variant sampleFormat : Type := int16Sample | int24Sample | floatSample.

Definition narrowestSampleFormat : sampleFormat := int16Sample.

(** A [Floats] buffer ([ArrayOf<float>]), as the function from index to
    content. *)
Definition Floats : Type := Z -> Q.

(** [a[k] = v]. *)
Definition store (a : Floats) (k : Z) (v : Q) : Floats :=
  fun i => if (i =? k)%Z then v else a i.

(** The first [n] entries of a buffer: what a callee that is given the
    pointer and a count reads. *)
Definition entries (a : Floats) (n : nat) : list Q := map a (Num.zrange 0 n).

(** [WaveTrack], with the per-track display attachments
    ([WaveformScale::Get(track)], [WaveformSettings::Get(track)]), over the
    type [T] of the contents of a track.
    - [GetFloatAtTime] gives [None] where the source returns [false].
    - [GetFloatsCenteredAroundTime] gives the buffer as the call leaves it
      and the pair it returns; the entries outside the returned range are
      not supplied by the read.
    - the three [Set...] operations give the contents after the write. *)
Class WaveTrackAPI (T : Type) : Type := {
  GetClipAtTime : T -> Q -> option WaveClip;
  SnapToSample : T -> Q -> Q;
  GetFloatAtTime : T -> Q -> Z -> bool -> option Q;
  GetEnvelopeAtTime : T -> Q -> option Envelope;
  GetFloatsCenteredAroundTime : T -> Q -> Z -> Z -> bool -> Floats * (Z * Z);
  SetFloatAtTime : T -> Q -> Z -> Q -> sampleFormat -> T;
  SetFloatsCenteredAroundTime : T -> Q -> Z -> list Q -> Z -> sampleFormat -> T;
  SetFloatsWithinTimeRange : T -> Q -> Q -> Z -> (Q -> Q) -> sampleFormat -> T;
  GetDisplayBounds : T -> Q * Q;
  isLinear : T -> bool;
  dBRange : T -> Q
}.

(** The two display helpers of TrackArt the handle calls.
    [ValueOfPixel yy height offset dB dBRange zoomMin zoomMax] and
    [GetWaveYPos value min max height dB outer dBr clip]. *)
Class TrackArt : Type := {
  ValueOfPixel : Z -> Z -> bool -> bool -> Q -> Q -> Q -> Q;
  GetWaveYPos : Q -> Q -> Q -> Z -> bool -> bool -> Q -> bool -> Z
}.

(** ** The project: history, messages, tracks *)

Variant UndoPush : Type := UndoPush_NONE | UndoPush_CONSOLIDATE.

(** The calls made on [ProjectHistory]. *)
Variant HistoryCall : Type :=
| PushState (longDescription shortDescription : string) (flags : UndoPush)
| RollbackState.

(** A call of [AudacityMessageBox message caption]. *)
Record MessageBox : Type := mkMessage {
  message : string;
  caption : string
}.

Definition TrackId : Type := nat.

(** What the handle changes outside itself: the tracks it writes through its
    pointer, and the calls it makes on the history and on the message box,
    oldest first. *)
Record World (T : Type) : Type := mkWorld {
  tracks : TrackId -> T;
  history : list HistoryCall;
  messages : list MessageBox
}.

Arguments mkWorld {T} _ _ _.
Arguments tracks {T} _ _.
Arguments history {T} _.
Arguments messages {T} _.

(** What a method reads of [AudacityProject] when it runs:
    [ProjectAudioIO::Get(project).IsAudioActive()] and
    [ViewInfo::Get(project)]. *)
Record AudacityProject : Type := mkProject {
  IsAudioActive : bool;
  viewInfo : ViewInfo
}.

(** [UIHandle::Result]: the flags of [RefreshCode] that are raised. *)
Record Result : Type := mkResult {
  refreshCell : bool;
  cancelled : bool
}.

Definition RefreshNone : Result := mkResult false false.
Definition RefreshCell : Result := mkResult true false.
Definition Cancelled : Result := mkResult false true.

(** [a | b] on results. *)
Definition result_or (a b : Result) : Result :=
  mkResult (refreshCell a || refreshCell b) (cancelled a || cancelled b).

(** ** The handle *)

(** The members of [SampleHandle]: the pointer to the track, the rectangle
    of the cell, two [int] pixels (a position is narrowed when it is stored
    in one), the last level written, and the mode of the gesture. *)
Record SampleHandle : Type := mkHandle {
  mClickedTrack : option TrackId;
  mRect : wxRect;
  mClickedStartPixel : Z;
  mLastDragPixel : Z;
  mLastDragSampleValue : Q;
  mAltKey : bool
}.

Definition set_mClickedTrack (h : SampleHandle) (p : option TrackId) :=
  mkHandle p (mRect h) (mClickedStartPixel h) (mLastDragPixel h)
    (mLastDragSampleValue h) (mAltKey h).

Definition set_mRect (h : SampleHandle) (r : wxRect) :=
  mkHandle (mClickedTrack h) r (mClickedStartPixel h) (mLastDragPixel h)
    (mLastDragSampleValue h) (mAltKey h).

Definition set_mClickedStartPixel (h : SampleHandle) (p : Z) :=
  mkHandle (mClickedTrack h) (mRect h) p (mLastDragPixel h)
    (mLastDragSampleValue h) (mAltKey h).

Definition set_mLastDragPixel (h : SampleHandle) (p : Z) :=
  mkHandle (mClickedTrack h) (mRect h) (mClickedStartPixel h) p
    (mLastDragSampleValue h) (mAltKey h).

Definition set_mLastDragSampleValue (h : SampleHandle) (v : Q) :=
  mkHandle (mClickedTrack h) (mRect h) (mClickedStartPixel h)
    (mLastDragPixel h) v (mAltKey h).

Definition set_mAltKey (h : SampleHandle) (b : bool) :=
  mkHandle (mClickedTrack h) (mRect h) (mClickedStartPixel h)
    (mLastDragPixel h) (mLastDragSampleValue h) b.

(** [SampleHandle::SampleHandle(pTrack)]: the other members have their
    default (zero) initializers. *)
Definition new_SampleHandle (pTrack : option TrackId) : SampleHandle :=
  mkHandle pTrack (mkRect 0 0 0 0) 0%Z 0%Z 0 false.

(** ** The smoothing constants and the two loops of the brush *)

Definition SMOOTHING_KERNEL_RADIUS : Z := 3.
Definition SMOOTHING_BRUSH_RADIUS : Z := 5.
Definition SMOOTHING_PROPORTION_MAX : Q := 7 # 10.
Definition SMOOTHING_PROPORTION_MIN : Q := 0.

(** The values of [ii]: [-SMOOTHING_KERNEL_RADIUS .. SMOOTHING_KERNEL_RADIUS]. *)
Definition kernel_offsets : list Z :=
  Num.zrange (- SMOOTHING_KERNEL_RADIUS)
    (Z.to_nat (2 * SMOOTHING_KERNEL_RADIUS + 1)).

(** The values of [jj]: [-SMOOTHING_BRUSH_RADIUS .. SMOOTHING_BRUSH_RADIUS]. *)
Definition brush_offsets : list Z :=
  Num.zrange (- SMOOTHING_BRUSH_RADIUS)
    (Z.to_nat (2 * SMOOTHING_BRUSH_RADIUS + 1)).

(** [sampleRegionRange.first <= sampleRegionIndex &&
     sampleRegionIndex < sampleRegionRange.second], the index converted to
    [size_t] as the comparison does. *)
Definition inRange (sampleRegionRange : Z * Z) (sampleRegionIndex : Z) : bool :=
  (fst sampleRegionRange <=? Num.to_size_t sampleRegionIndex)%Z
  && (Num.to_size_t sampleRegionIndex <? snd sampleRegionRange)%Z.

(** The index into [sampleRegion] of kernel point [ii] of brush point [jj]. *)
Definition sampleRegionIndex (ii jj : Z) : Z :=
  (ii + jj + SMOOTHING_KERNEL_RADIUS + SMOOTHING_BRUSH_RADIUS)%Z.

(** The weighting factor of kernel point [ii]. *)
Definition weighting_factor (ii : Z) : Q :=
  inject_Z (SMOOTHING_KERNEL_RADIUS + 1 - Z.abs ii).

(** One turn of the inner loop: [sum] after kernel point [ii]. *)
Definition kernel_step (sampleRegion : Floats) (sampleRegionRange : Z * Z)
    (jj : Z) (sum : Q) (ii : Z) : Q :=
  if negb (inRange sampleRegionRange (sampleRegionIndex ii jj)) then sum
  else sum + weighting_factor ii * sampleRegion (sampleRegionIndex ii jj).

(** The inner loop over [ii]: the value of [sumOfSamples] when it ends. *)
Definition sumOfSamples (sampleRegion : Floats) (sampleRegionRange : Z * Z)
    (jj : Z) : Q :=
  fold_left (kernel_step sampleRegion sampleRegionRange jj) kernel_offsets 0.

(** The weights of the kernel points of a list whose sample is in range:
    what the sum of brush point [jj] is a weighted sum with. *)
Definition weight_in_range (sampleRegionRange : Z * Z) (jj : Z) (l : list Z)
    : Q :=
  fold_right
    (fun ii s =>
       (if inRange sampleRegionRange (sampleRegionIndex ii jj)
        then weighting_factor ii else 0) + s)
    0 l.

(** The first loop over [jj]: the triangular average of each brush point. *)
Definition smoothing_average (sampleRegion : Floats)
    (sampleRegionRange : Z * Z) (newSampleRegion : Floats) : Floats :=
  fold_left
    (fun new jj =>
       store new (jj + SMOOTHING_BRUSH_RADIUS)%Z
         (sumOfSamples sampleRegion sampleRegionRange jj
          / inject_Z ((SMOOTHING_KERNEL_RADIUS + 1)
                      * (SMOOTHING_KERNEL_RADIUS + 1))))
    brush_offsets newSampleRegion.

(** [prob] at brush offset [jj]. *)
Definition prob (jj : Z) : Q :=
  SMOOTHING_PROPORTION_MAX
  - inject_Z (Z.abs jj) / inject_Z SMOOTHING_BRUSH_RADIUS
    * (SMOOTHING_PROPORTION_MAX - SMOOTHING_PROPORTION_MIN).

(** The second loop over [jj]: the mix of the average with the original. *)
Definition smoothing_mix (sampleRegion : Floats) (newSampleRegion : Floats)
    : Floats :=
  fold_left
    (fun new jj =>
       store new (jj + SMOOTHING_BRUSH_RADIUS)%Z
         (new (jj + SMOOTHING_BRUSH_RADIUS)%Z * prob jj
          + sampleRegion
              (SMOOTHING_BRUSH_RADIUS + SMOOTHING_KERNEL_RADIUS + jj)%Z
            * (1 - prob jj)))
    brush_offsets newSampleRegion.

(** [newSampleRegion] as the two loops leave it, from its contents at
    allocation. *)
Definition smoothed (sampleRegion : Floats) (sampleRegionRange : Z * Z)
    (allocated : Floats) : Floats :=
  smoothing_mix sampleRegion
    (smoothing_average sampleRegion sampleRegionRange allocated).

(** The [1 + 2 * SMOOTHING_BRUSH_RADIUS] values given to
    [SetFloatsCenteredAroundTime]. *)
Definition smoothed_values (sampleRegion : Floats) (sampleRegionRange : Z * Z)
    : list Q :=
  entries (smoothed sampleRegion sampleRegionRange (fun _ => 0))
    (Z.to_nat (1 + 2 * SMOOTHING_BRUSH_RADIUS)).

(** ** The brush in IEEE arithmetic

    The same two loops with [float] as binary32 and [double] as binary64,
    each operation rounded to nearest, ties to even, in the type the usual
    arithmetic conversions give it, and nothing contracted or kept in a
    wider format.  This is what the rational model above idealizes; it is
    used to run the loops, not to prove about every input. *)

Module IEEE.

(** An [int] converted to [float]. *)
Definition f32_of_int (z : Z) : spec_float := binary_normalize 24 128 z 0 false.

Definition f32_add : spec_float -> spec_float -> spec_float := SFadd 24 128.
Definition f32_sub : spec_float -> spec_float -> spec_float := SFsub 24 128.
Definition f32_mul : spec_float -> spec_float -> spec_float := SFmul 24 128.
Definition f32_div : spec_float -> spec_float -> spec_float := SFdiv 24 128.

(** An [int] converted to [double]. *)
Definition f64_of_int (z : Z) : spec_float := binary_normalize 53 1024 z 0 false.

Definition f64_sub : spec_float -> spec_float -> spec_float := SFsub 53 1024.
Definition f64_mul : spec_float -> spec_float -> spec_float := SFmul 53 1024.
Definition f64_div : spec_float -> spec_float -> spec_float := SFdiv 53 1024.

(** A [float] promoted to [double]: the same number. *)
Definition f64_of_f32 (v : spec_float) : spec_float :=
  match v with
  | S754_finite s m e => binary_normalize 53 1024 (cond_Zopp s (Zpos m)) e s
  | _ => v
  end.

(** A [double] stored in a [float]: rounded. *)
Definition f32_of_f64 (v : spec_float) : spec_float :=
  match v with
  | S754_finite s m e => binary_normalize 24 128 (cond_Zopp s (Zpos m)) e s
  | _ => v
  end.

(** The literal [0.7]: the double nearest 7/10, which the rounded quotient
    of 7 by 10 is.  The literal [0.0]. *)
Definition SMOOTHING_PROPORTION_MAX : spec_float :=
  f64_div (f64_of_int 7) (f64_of_int 10).
Definition SMOOTHING_PROPORTION_MIN : spec_float := S754_zero false.

(** The float 0.5. *)
Definition half : spec_float := S754_finite false 8388608 (-24).

Definition store (a : Z -> spec_float) (k : Z) (v : spec_float)
    : Z -> spec_float :=
  fun i => if (i =? k)%Z then v else a i.

(** One turn of the inner loop: [int * float] is a [float] product, and
    [+=] a [float] sum. *)
Definition kernel_step (sampleRegion : Z -> spec_float)
    (sampleRegionRange : Z * Z) (jj : Z) (sum : spec_float) (ii : Z)
    : spec_float :=
  if negb (inRange sampleRegionRange (sampleRegionIndex ii jj)) then sum
  else
    f32_add sum
      (f32_mul (f32_of_int (SMOOTHING_KERNEL_RADIUS + 1 - Z.abs ii))
         (sampleRegion (sampleRegionIndex ii jj))).

Definition sumOfSamples (sampleRegion : Z -> spec_float)
    (sampleRegionRange : Z * Z) (jj : Z) : spec_float :=
  fold_left (kernel_step sampleRegion sampleRegionRange jj) kernel_offsets
    (f32_of_int 0).

(** The first loop: [float / int] is a [float] quotient. *)
Definition smoothing_average (sampleRegion : Z -> spec_float)
    (sampleRegionRange : Z * Z) (newSampleRegion : Z -> spec_float)
    : Z -> spec_float :=
  fold_left
    (fun new jj =>
       store new (jj + SMOOTHING_BRUSH_RADIUS)%Z
         (f32_div (sumOfSamples sampleRegion sampleRegionRange jj)
            (f32_of_int ((SMOOTHING_KERNEL_RADIUS + 1)
                         * (SMOOTHING_KERNEL_RADIUS + 1)))))
    brush_offsets newSampleRegion.

(** [prob]: the quotient [(float)abs(jj) / SMOOTHING_BRUSH_RADIUS] is a
    [float]; the product with a [double] and the difference are [double]s;
    the assignment to [prob] rounds to [float]. *)
Definition prob (jj : Z) : spec_float :=
  f32_of_f64
    (f64_sub SMOOTHING_PROPORTION_MAX
       (f64_mul
          (f64_of_f32
             (f32_div (f32_of_int (Z.abs jj))
                (f32_of_int SMOOTHING_BRUSH_RADIUS)))
          (f64_sub SMOOTHING_PROPORTION_MAX SMOOTHING_PROPORTION_MIN))).

(** The second loop, all in [float]. *)
Definition smoothing_mix (sampleRegion newSampleRegion : Z -> spec_float)
    : Z -> spec_float :=
  fold_left
    (fun new jj =>
       store new (jj + SMOOTHING_BRUSH_RADIUS)%Z
         (f32_add
            (f32_mul (new (jj + SMOOTHING_BRUSH_RADIUS)%Z) (prob jj))
            (f32_mul
               (sampleRegion
                  (SMOOTHING_BRUSH_RADIUS + SMOOTHING_KERNEL_RADIUS + jj)%Z)
               (f32_sub (f32_of_int 1) (prob jj)))))
    brush_offsets newSampleRegion.

(** The values given to [SetFloatsCenteredAroundTime]. *)
Definition smoothed_values (sampleRegion : Z -> spec_float)
    (sampleRegionRange : Z * Z) : list spec_float :=
  map (smoothing_mix sampleRegion
         (smoothing_average sampleRegion sampleRegionRange
            (fun _ => f32_of_int 0)))
      (Num.zrange 0 (Z.to_nat (1 + 2 * SMOOTHING_BRUSH_RADIUS))).

End IEEE.

(** ** The interpolator of a drag segment *)

(** The lambda [interpolator] of [SampleHandle::Drag], with its captures
    [t0], [t1], [v0], [v1]. *)
Definition interpolator (t0 t1 v0 v1 : Q) (t : Q) : Q :=
  if Num.eqb t0 t1 then v1
  else
    let gradient := (v1 - v0) / (t1 - t0) in
    let value := gradient * (t - t0) + v0 in
    Num.std_clamp value (Num.std_min v0 v1) (Num.std_max v0 v1).

(** ** The resolution test *)

(** The loop [do prev = it++; while (it != end && it->position <= xx)]:
    [prev] when it ends, [it] standing at the head of [rest]. *)
Fixpoint scan_intervals (prev : Interval) (rest : list Interval) (xx : Z)
    : Interval :=
  match rest with
  | [] => prev
  | it :: rest' =>
      if (position it <=? xx)%Z then scan_intervals it rest' xx else prev
  end.

(** ** The methods, over any wave track and any display helpers *)

Section Model.

Context {T : Type} `{WaveTrackAPI T} `{TrackArt}.

(** Computations on the world that may fault. *)
Definition M (A : Type) : Type := World T -> option (A * World T).

Definition ret {A : Type} (a : A) : M A := fun w => Some (a, w).

Definition bind {A B : Type} (m : M A) (f : A -> M B) : M B :=
  fun w => match m w with
           | Some (a, w') => f a w'
           | None => None
           end.

Definition fault {A : Type} : M A := fun _ => None.

Notation "'do' a <- m ; k" := (bind m (fun a => k))
  (at level 10, a name, m at level 100, k at level 200).
Notation "m ;; k" := (bind m (fun _ => k))
  (at level 100, k at level 200, right associativity).

(** A result that does not need the world, or a fault. *)
Definition lift {A : Type} (o : option A) : M A :=
  match o with
  | Some a => ret a
  | None => fault
  end.

(** [p.get()] as the argument of a function that reads the track: the
    contents the pointer leads to, or null. *)
Definition get (p : option TrackId) : M (option T) :=
  fun w => Some (option_map (tracks w) p, w).

(** [*p], for a member access through the pointer. *)
Definition deref (p : option TrackId) : M T :=
  do wt <- get p; lift wt.

(** [p->Set...(...)]: the write [f] on the track the pointer leads to. *)
Definition write (p : option TrackId) (f : T -> T) : M unit :=
  fun w =>
    match p with
    | None => None
    | Some id =>
        Some (tt, mkWorld (fun i => if Nat.eqb i id then f (tracks w id)
                                    else tracks w i)
                          (history w) (messages w))
    end.

(** A call on [ProjectHistory::Get(project)]. *)
Definition call_history (c : HistoryCall) : M unit :=
  fun w => Some (tt, mkWorld (tracks w) (history w ++ [c]) (messages w)).

(** [AudacityMessageBox(message, caption)]. *)
Definition AudacityMessageBox (message caption : string) : M unit :=
  fun w => Some (tt, mkWorld (tracks w) (history w)
                             (messages w ++ [mkMessage message caption])).

(** [adjustTime]: round to an exact sample time.  [wt] is dereferenced at
    once. *)
Definition adjustTime (wt : option T) (time : Q) : option Q :=
  match wt with
  | None => None
  | Some wt =>
      match GetClipAtTime wt time with
      | None => Some (SnapToSample wt time)
      | Some clip =>
          let sampleOffset := TimeToSamples clip (time - GetPlayStartTime clip) in
          Some (SamplesToTime clip sampleOffset + GetPlayStartTime clip)
      end
  end.

(** [SampleResolutionTest].  The loop needs a first interval (the source
    asserts it); without one it reads past the end, a fault. *)
Definition SampleResolutionTest (viewInfo : ViewInfo) (wt : option T)
    (time : Q) (width : Z) : option bool :=
  let xx := Num.std_max_int64 0 (TimeToPosition viewInfo time 0) in
  match wt with
  | None => None
  | Some wt =>
      match GetClipAtTime wt time with
      | None => Some true
      | Some clip =>
          let rate := GetRate clip / GetStretchRatio clip in
          match FindIntervals viewInfo width with
          | [] => None
          | it :: rest =>
              let prev := scan_intervals it rest xx in
              let threshold := 3 * rate in
              Some (Num.ltb threshold (averageZoom prev))
          end
      end
  end.

(** [SampleHandle::HitAnywhere]: a handle on the track.  [AssignUIHandlePtr]
    keeps the identity of a handle the holder already has and gives it the
    state of the new one, so the state returned is that of a new handle. *)
Definition HitAnywhere (pTrack : option TrackId) : SampleHandle :=
  new_SampleHandle pTrack.

(** [SampleHandle::HitTest]: the handle, or none ([{}]). *)
Definition HitTest (state : wxMouseState) (rect : wxRect)
    (pProject : AudacityProject) (pTrack : option TrackId)
    : M (option SampleHandle) :=
  let viewInfo := viewInfo pProject in
  do wavetrack <- get pTrack;
  let time := PositionToTime viewInfo (m_x state) (x rect) in
  do tt <- lift (adjustTime wavetrack time);
  do resolved <- lift (SampleResolutionTest viewInfo wavetrack tt (width rect));
  if negb resolved then ret None
  else
    do wt <- lift wavetrack;
    match GetFloatAtTime wt tt 0%Z false with
    | None => ret None
    | Some oneSample =>
        let '(zoomMin, zoomMax) := GetDisplayBounds wt in
        let envValue :=
          match GetEnvelopeAtTime wt time with
          | Some env => GetValue env tt
          | None => 1
          end in
        let dB := negb (isLinear wt) in
        let yValue :=
          (GetWaveYPos (oneSample * envValue) zoomMin zoomMax (height rect)
             dB true (dBRange wt) false + y rect)%Z in
        let yMouse := m_y state in
        let yTolerance := 10%Z in
        if (Z.abs (yValue - yMouse) >=? yTolerance)%Z then ret None
        else ret (Some (HitAnywhere pTrack))
    end.

(** [IsSampleEditingPossible]: the resolution test, with the message of the
    Draw tool when it fails. *)
Definition IsSampleEditingPossible (event : wxMouseState) (rect : wxRect)
    (viewInfo : ViewInfo) (wt : option T) (width : Z) : M bool :=
  do time <- lift (adjustTime wt (PositionToTime viewInfo (m_x event) (x rect)));
  do resolved <- lift (SampleResolutionTest viewInfo wt time width);
  if negb resolved then
    AudacityMessageBox
      "To use Draw, zoom in further until you can see the individual samples."
      "Draw Tool" ;;
    ret false
  else ret true.

(** [SampleHandle::FindSampleEditingLevel]. *)
Definition FindSampleEditingLevel (this : SampleHandle) (event : wxMouseState)
    (viewInfo : ViewInfo) (t0 : Q) : M Q :=
  do wt <- deref (mClickedTrack this);
  let '(zoomMin, zoomMax) := GetDisplayBounds wt in
  let yy := (m_y event - y (mRect this))%Z in
  let height := height (mRect this) in
  let dB := negb (isLinear wt) in
  let newLevel := ValueOfPixel yy height false dB (dBRange wt) zoomMin zoomMax in
  let time := PositionToTime viewInfo (m_x event) (x (mRect this)) in
  match GetEnvelopeAtTime wt time with
  | Some env =>
      let envValue := GetValue env t0 in
      let newLevel := if Num.ltb 0 envValue then newLevel / envValue else 0 in
      ret (Num.std_max (-1) (Num.std_min 1 newLevel))
  | None => ret newLevel
  end.

(** [SampleHandle::Cancel]. *)
Definition Cancel (this : SampleHandle) : M (Result * SampleHandle) :=
  let this := set_mClickedTrack this None in
  call_history RollbackState ;;
  ret (RefreshCell, this).

(** [SampleHandle::Click]. *)
Definition Click (this : SampleHandle) (evt : TrackPanelMouseEvent)
    (pProject : AudacityProject) : M (Result * SampleHandle) :=
  let unsafe := IsAudioActive pProject in
  if unsafe then ret (Cancelled, this)
  else
    let event := event evt in
    let rect := rect evt in
    let viewInfo := viewInfo pProject in
    let t0 := PositionToTime viewInfo (m_x event) (x rect) in
    do pTrack <- get (mClickedTrack this);
    do possible <- IsSampleEditingPossible event rect viewInfo pTrack (width rect);
    if negb possible then ret (Cancelled, this)
    else
      let this := set_mRect this rect in
      let this :=
        set_mClickedStartPixel this (Num.to_int (TimeToPosition viewInfo t0 0)) in
      do this <-
        (if m_altDown event then
           let this := set_mAltKey this true in
           do wt <- deref (mClickedTrack this);
           let '(sampleRegion, sampleRegionRange) :=
             GetFloatsCenteredAroundTime wt t0 0%Z
               (SMOOTHING_KERNEL_RADIUS + SMOOTHING_BRUSH_RADIUS)%Z false in
           let newSampleRegion := smoothed_values sampleRegion sampleRegionRange in
           write (mClickedTrack this)
             (fun wt => SetFloatsCenteredAroundTime wt t0 0%Z newSampleRegion
                          SMOOTHING_BRUSH_RADIUS narrowestSampleFormat) ;;
           ret this
         else
           let this := set_mAltKey this false in
           do newLevel <- FindSampleEditingLevel this event viewInfo t0;
           write (mClickedTrack this)
             (fun wt => SetFloatAtTime wt t0 0%Z newLevel narrowestSampleFormat) ;;
           ret (set_mLastDragSampleValue this newLevel));
      let this := set_mLastDragPixel this (mClickedStartPixel this) in
      ret (RefreshCell, this).

(** [SampleHandle::Drag]. *)
Definition Drag (this : SampleHandle) (evt : TrackPanelMouseEvent)
    (pProject : AudacityProject) : M (Result * SampleHandle) :=
  let event := event evt in
  let viewInfo := viewInfo pProject in
  let unsafe := IsAudioActive pProject in
  do pTrack <- get (mClickedTrack this);
  do samplesVisible <-
    IsSampleEditingPossible event (mRect this) viewInfo pTrack
      (width (mRect this));
  if unsafe || negb samplesVisible then
    do cancel <- Cancel this;
    ret (result_or RefreshCell Cancelled, snd cancel)
  else if mAltKey this then ret (RefreshNone, this)
  else
    let t0 := PositionToTime viewInfo (mLastDragPixel this) 0 in
    let t1 := PositionToTime viewInfo (m_x event) (x (mRect this)) in
    let x1 :=
      if m_controlDown event then mClickedStartPixel this
      else Num.to_int (TimeToPosition viewInfo t1 0) in
    do newLevel <- FindSampleEditingLevel this event viewInfo t0;
    let start := Num.std_min t0 t1 in
    let end_ := Num.std_max t0 t1 in
    write (mClickedTrack this)
      (fun wt =>
         SetFloatsWithinTimeRange wt start end_ 0%Z
           (interpolator t0 t1 (mLastDragSampleValue this) newLevel)
           narrowestSampleFormat) ;;
    let this := set_mLastDragPixel this x1 in
    let this := set_mLastDragSampleValue this newLevel in
    ret (RefreshCell, this).

(** [SampleHandle::Release]. *)
Definition Release (this : SampleHandle) (pProject : AudacityProject)
    : M (Result * SampleHandle) :=
  let unsafe := IsAudioActive pProject in
  if unsafe then Cancel this
  else
    let this := set_mClickedTrack this None in
    call_history (PushState "Moved Samples" "Sample Edit" UndoPush_CONSOLIDATE) ;;
    ret (RefreshNone, this).

(** ** Gestures: the events the panel delivers to one handle *)

Variant GestureEvent : Type :=
| EvClick (evt : TrackPanelMouseEvent) (pProject : AudacityProject)
| EvDrag (evt : TrackPanelMouseEvent) (pProject : AudacityProject)
| EvRelease (pProject : AudacityProject)
| EvCancel.

(** The project an event is delivered with, where it has one. *)
Definition audio_active (e : GestureEvent) : bool :=
  match e with
  | EvClick _ p | EvDrag _ p | EvRelease p => IsAudioActive p
  | EvCancel => false
  end.

(** One event delivered to the handle. *)
Definition deliver (this : SampleHandle) (e : GestureEvent)
    : M (Result * SampleHandle) :=
  match e with
  | EvClick evt p => Click this evt p
  | EvDrag evt p => Drag this evt p
  | EvRelease p => Release this p
  | EvCancel => Cancel this
  end.

(** The events of a list delivered in order; the results, oldest first. *)
Fixpoint deliver_all (this : SampleHandle) (es : list GestureEvent)
    : M (list Result * SampleHandle) :=
  match es with
  | [] => ret ([], this)
  | e :: es' =>
      do r <- deliver this e;
      do rs <- deliver_all (snd r) es';
      ret (fst r :: fst rs, snd rs)
  end.

(** ** What lets a gesture go through *)

(** The three writes keep a property of the contents of a track. *)
Definition writes_keep (Inv : T -> Prop) : Prop :=
  (forall wt t iChannel value fmt,
      Inv wt -> Inv (SetFloatAtTime wt t iChannel value fmt))
  /\ (forall wt t iChannel values numSideSamples fmt,
         Inv wt ->
         Inv (SetFloatsCenteredAroundTime wt t iChannel values numSideSamples
                fmt))
  /\ (forall wt t0 t1 iChannel producer fmt,
         Inv wt ->
         Inv (SetFloatsWithinTimeRange wt t0 t1 iChannel producer fmt)).

(** On every track with the property, the resolution test passes for the
    event in the rectangle. *)
Definition samples_visible (Inv : T -> Prop) (viewInfo : ViewInfo)
    (event : wxMouseState) (rect : wxRect) : Prop :=
  forall wt,
    Inv wt ->
    exists time,
      adjustTime (Some wt) (PositionToTime viewInfo (m_x event) (x rect))
      = Some time
      /\ SampleResolutionTest viewInfo (Some wt) time (width rect) = Some true.

End Model.

(** ** The preview of the handle *)

(** The three cursors [HitPreview] chooses from. *)
Variant Cursor : Type := disabledCursor | smoothCursor | pencilCursor.

(** [HitTestPreview]: the status message and the cursor. *)
Record HitTestPreview : Type := mkPreview {
  preview_message : string;
  preview_cursor : Cursor
}.

(** [SampleHandle::HitPreview]; [state.AltDown()] is [m_altDown]. *)
Definition HitPreview (state : wxMouseState) (unsafe : bool) : HitTestPreview :=
  let message := "Click and drag to edit the samples"%string in
  mkPreview message
    (if unsafe then disabledCursor
     else if m_altDown state then smoothCursor
     else pencilCursor).

(** [SampleHandle::Preview]. *)
Definition Preview (st : wxMouseState) (pProject : AudacityProject)
    : HitTestPreview :=
  let unsafe := IsAudioActive pProject in
  HitPreview st unsafe.

(** [SampleHandle::Enter]: its body is compiled only with
    [EXPERIMENTAL_TRACK_PANEL_HIGHLIGHTING]; without it the handle is left
    as it is. *)
Definition Enter (this : SampleHandle) : SampleHandle := this.

(** The message box [IsSampleEditingPossible] shows. *)
Definition draw_tool_message : MessageBox :=
  mkMessage
    "To use Draw, zoom in further until you can see the individual samples."
    "Draw Tool".

(** ** What the specification calls things *)

Module Spec.

(** "Clamp the result to [[lo, hi]]". *)
Definition clamp (v lo hi : Q) : Q := Qmax lo (Qmin hi v).

(** DrawInterpolator: [v1] everywhere on a zero-width segment; otherwise the
    line through the two anchors, clamped to the interval between the two
    endpoint values. *)
Definition DrawInterpolator (t0 v0 t1 v1 : Q) (t : Q) : Q :=
  if Qeq_bool t0 t1 then v1
  else clamp (v0 + (v1 - v0) / (t1 - t0) * (t - t0)) (Qmin v0 v1) (Qmax v0 v1).

(** applyEnvelopeCorrection: divide by a positive scale, 0 for a scale that
    is not positive, and the result clamped to [[-1, 1]]. *)
Definition applyEnvelopeCorrection (displayedLevel envelopeScaleAtTime : Q) : Q :=
  clamp (if Qlt_le_dec 0 envelopeScaleAtTime
         then displayedLevel / envelopeScaleAtTime
         else 0)
        (-1) 1.

(** mixProportion: [MAX - (|j| / B) * (MAX - MIN)] with [MAX = 0.7],
    [MIN = 0.0], [B = 5]. *)
Definition mixProportion (j : Z) : Q :=
  (7 # 10) - (inject_Z (Z.abs j) / 5) * ((7 # 10) - 0).

(** The runs of the view start at strictly increasing pixels. *)
Definition runs_ordered (intervals : list Interval) : Prop :=
  StronglySorted (fun a b => (position a < position b)%Z) intervals.

(** The run that contains pixel [xx]: it starts at or before [xx], and the
    next run, if there is one, starts after [xx]. *)
Definition run_containing (intervals : list Interval) (xx : Z)
    (run : Interval) : Prop :=
  exists before after,
    intervals = before ++ run :: after
    /\ (position run <= xx)%Z
    /\ match after with
       | [] => True
       | next :: _ => (xx < position next)%Z
       end.

End Spec.

(** ** An instance of the interfaces, to run the methods on *)

Module Demo.

(** The writes a track has received, oldest first. *)
Variant WriteOp : Type :=
| WriteOne (t : Q) (iChannel : Z) (value : Q) (fmt : sampleFormat)
| WriteAround (t : Q) (iChannel : Z) (values : list Q) (numSideSamples : Z)
    (fmt : sampleFormat)
| WriteRange (t0 t1 : Q) (iChannel : Z) (producer : Q -> Q) (fmt : sampleFormat).

(** A track that answers every read from fixed data and records its writes. *)
Record Track : Type := mkTrack {
  clip_at : Q -> option WaveClip;
  envelope_at : Q -> option Envelope;
  sample_at : Q -> option Q;
  window : Floats;
  window_range : Z * Z;
  bounds : Q * Q;
  written : list WriteOp
}.

Definition record (tr : Track) (op : WriteOp) : Track :=
  mkTrack (clip_at tr) (envelope_at tr) (sample_at tr) (window tr)
    (window_range tr) (bounds tr) (written tr ++ [op]).

#[export] Instance track_api : WaveTrackAPI Track := {
  GetClipAtTime tr t := clip_at tr t;
  SnapToSample tr t := inject_Z (Qfloor (t * 10 + (1 # 2))) / 10;
  GetFloatAtTime tr t _ _ := sample_at tr t;
  GetEnvelopeAtTime tr t := envelope_at tr t;
  GetFloatsCenteredAroundTime tr _ _ _ _ := (window tr, window_range tr);
  SetFloatAtTime tr t ch v fmt := record tr (WriteOne t ch v fmt);
  SetFloatsCenteredAroundTime tr t ch vs n fmt :=
    record tr (WriteAround t ch vs n fmt);
  SetFloatsWithinTimeRange tr t0 t1 ch f fmt :=
    record tr (WriteRange t0 t1 ch f fmt);
  GetDisplayBounds tr := bounds tr;
  isLinear _ := true;
  dBRange _ := 60
}.

(** A linear vertical scale: row 0 shows [zoomMax], row [height - 1] shows
    [zoomMin]. *)
#[export] Instance track_art : TrackArt := {
  ValueOfPixel yy height _ _ _ zoomMin zoomMax :=
    zoomMax - (inject_Z yy / inject_Z (height - 1)) * (zoomMax - zoomMin);
  GetWaveYPos value zoomMin zoomMax height _ _ _ _ :=
    Qfloor ((zoomMax - value) / (zoomMax - zoomMin) * inject_Z (height - 1))
}.

(** A clip of 10 samples per second that starts at time 0. *)
Definition clip10 : WaveClip :=
  mkClip 0 10 1
    (fun t => Qfloor (t * 10 + (1 # 2)))
    (fun s => inject_Z s / 10).

(** A view of [zoom] pixels per second whose left edge is time 0. *)
Definition view (zoom : Q) : ViewInfo :=
  mkViewInfo
    (fun position origin => inject_Z (position - origin) / zoom)
    (fun time origin => (Qfloor ((1 # 2) + zoom * time) + origin)%Z)
    (fun width => [mkInterval 0 zoom false; mkInterval width 0 false]).

Definition quiet (zoom : Q) : AudacityProject := mkProject false (view zoom).
Definition playing (zoom : Q) : AudacityProject := mkProject true (view zoom).

(** The cell of the track: 400 by 101 pixels at the origin. *)
Definition cell : wxRect := mkRect 0 0 400 101.

(** A track with one clip, a flat envelope [scale] where [enveloped], every
    sample at [level], display bounds [[-top, top]]. *)
Definition flat_track (enveloped : bool) (scale level top : Q) : Track :=
  mkTrack (fun _ => Some clip10)
    (fun _ => if enveloped then Some (mkEnvelope (fun _ => scale)) else None)
    (fun _ => Some level)
    (fun _ => level) (0, 17)%Z
    (- top, top) [].

(** A project state with that one track everywhere in the store. *)
Definition world_of (tr : Track) : World Track := mkWorld (fun _ => tr) [] [].

(** A mouse event at pixel [(px, py)] with the two modifiers. *)
Definition mouse (px py : Z) (alt ctrl : bool) : TrackPanelMouseEvent :=
  mkTPME (mkMouse px py alt ctrl) cell.

(** The handle [HitAnywhere] makes for track 0. *)
Definition fresh : SampleHandle := HitAnywhere (Some 0%nat).

(** A track whose envelope has scale 1 before time 1 and 1/2 from then on. *)
Definition stepped_track : Track :=
  mkTrack (fun _ => Some clip10)
    (fun _ => Some (mkEnvelope (fun t => if Num.ltb t 1 then 1 else 1 # 2)))
    (fun _ => Some 0)
    (fun _ => 0) (0, 17)%Z
    (-1, 1) [].

(** A read near the start of a clip: only the entries 8..16 are supplied, all
    zero; entry 7 keeps what the buffer held. *)
Definition truncated_window : Floats :=
  fun i => if (i =? 7)%Z then 100 else 0.

Definition truncated_range : Z * Z := (8, 17)%Z.

(** A track whose reads near the start of its clip are truncated that way. *)
Definition edge_track : Track :=
  mkTrack (fun _ => Some clip10) (fun _ => Some (mkEnvelope (fun _ => 1)))
    (fun _ => Some 0)
    truncated_window truncated_range (-1, 1) [].

(** The handle as a plain click at pixel 50 leaves it: the cell recorded,
    both pixels at 50, the last level 0. *)
Definition armed : SampleHandle :=
  mkHandle (Some 0%nat) cell 50 50 0 false.

(** A track with an envelope of scale 1, samples at 0, bounds [[-1, 1]]. *)
Definition plain_track : Track := flat_track true 1 0 1.

(** A track shown between -2 and 2 with no clip, and so no envelope, at any
    time. *)
Definition tall_track : Track :=
  mkTrack (fun _ => None) (fun _ => None) (fun _ => None)
    (fun _ => 0) (8, 8)%Z
    (-2, 2) [].

(** A gesture: a click at pixel 50, two drags to the right, the release. *)
Definition stroke : list GestureEvent :=
  [EvClick (mouse 50 50 false false) (quiet 100);
   EvDrag (mouse 60 40 false false) (quiet 100);
   EvDrag (mouse 70 30 false false) (quiet 100);
   EvRelease (quiet 100)].

(** The handle as a click with the alt key at pixel 50 leaves it. *)
Definition brushing : SampleHandle :=
  mkHandle (Some 0%nat) cell 50 50 0 true.

End Demo.

(** * Properties *)

(** ** Facts about the numbers *)

Module NumFacts.

Import Num.

Lemma ltb_lt (a b : Q) : ltb a b = true <-> a < b.
Proof.
  unfold ltb. rewrite Qlt_alt. destruct (a ?= b); split; congruence.
Qed.

Lemma ltb_ge (a b : Q) : ltb a b = false <-> b <= a.
Proof.
  split; intro E.
  - apply Qnot_lt_le. intro L. apply ltb_lt in L. congruence.
  - destruct (ltb a b) eqn:L; [|reflexivity].
    apply ltb_lt in L. apply Qlt_not_le in L. contradiction.
Qed.

Lemma eqb_eq (a b : Q) : eqb a b = true <-> a == b.
Proof. apply Qeq_bool_iff. Qed.

Lemma eqb_neq (a b : Q) : eqb a b = false <-> ~ a == b.
Proof.
  split; intro E.
  - intro D. apply eqb_eq in D. congruence.
  - destruct (eqb a b) eqn:D; [|reflexivity].
    apply eqb_eq in D. contradiction.
Qed.

(** [std::min] and [std::max] return the very values [Qmin] and [Qmax] do. *)
Lemma std_min_Qmin (a b : Q) : std_min a b = Qmin a b.
Proof.
  unfold std_min, ltb, Qmin, GenericMinMax.gmin.
  rewrite <- (Qcompare_antisym a b).
  destruct (a ?= b); reflexivity.
Qed.

Lemma std_max_Qmax (a b : Q) : std_max a b = Qmax a b.
Proof.
  unfold std_max, ltb, Qmax, GenericMinMax.gmax.
  destruct (a ?= b); reflexivity.
Qed.

Lemma std_max_int64_Zmax (a b : Z) : std_max_int64 a b = Z.max a b.
Proof.
  unfold std_max_int64. destruct (Z.ltb_spec a b); lia.
Qed.

Lemma std_min_le_max (a b : Q) : std_min a b <= std_max a b.
Proof.
  rewrite std_min_Qmin, std_max_Qmax.
  apply Qle_trans with a; [apply Q.le_min_l | apply Q.le_max_l].
Qed.

Lemma std_clamp_bounds (v lo hi : Q) :
  lo <= hi -> lo <= std_clamp v lo hi <= hi.
Proof.
  intro L. unfold std_clamp.
  destruct (ltb v lo) eqn:E1; [lra|].
  destruct (ltb hi v) eqn:E2; [lra|].
  apply ltb_ge in E1, E2. lra.
Qed.

(** On an interval that is not empty, [std::clamp] is the clamp of the
    specification. *)
Lemma std_clamp_spec (v lo hi : Q) :
  lo <= hi -> std_clamp v lo hi == Spec.clamp v lo hi.
Proof.
  intro L. unfold std_clamp, Spec.clamp.
  destruct (ltb v lo) eqn:E1.
  - apply ltb_lt in E1.
    rewrite (Q.min_r hi v) by lra. rewrite Q.max_l by lra. reflexivity.
  - apply ltb_ge in E1. destruct (ltb hi v) eqn:E2.
    + apply ltb_lt in E2.
      rewrite (Q.min_l hi v) by lra. rewrite Q.max_r by lra. reflexivity.
    + apply ltb_ge in E2.
      rewrite (Q.min_r hi v) by lra. rewrite Q.max_r by lra. reflexivity.
Qed.

Lemma to_int_small (z : Z) :
  (-2147483648 <= z < 2147483648)%Z -> to_int z = z.
Proof.
  intro R. unfold to_int. rewrite Z.mod_small by lia. lia.
Qed.

Lemma to_size_t_small (z : Z) :
  (0 <= z < 18446744073709551616)%Z -> to_size_t z = z.
Proof. intro R. unfold to_size_t. apply Z.mod_small. exact R. Qed.

End NumFacts.

(** ** The resolution gate *)

Lemma run_containing_later (first : Interval) (rest : list Interval) (xx : Z)
    (run : Interval) :
  Spec.runs_ordered (first :: rest) ->
  Spec.run_containing rest xx run ->
  (position first < position run)%Z.
Proof.
  intros S (before & after & E & _ & _).
  apply StronglySorted_inv in S. destruct S as [_ F].
  rewrite Forall_forall in F. apply F.
  rewrite E. apply in_or_app. right. left. reflexivity.
Qed.

(** The loop of [SampleResolutionTest] stops on the run that contains the
    pixel, and no other run contains it. *)
Lemma scan_intervals_run (rest : list Interval) :
  forall (first : Interval) (xx : Z) (run : Interval),
    Spec.runs_ordered (first :: rest) ->
    (position first <= xx)%Z ->
    (Spec.run_containing (first :: rest) xx run
     <-> run = scan_intervals first rest xx).
Proof.
  induction rest as [|it rest IH]; intros first xx run S L; simpl.
  - split.
    + intros (before & after & E & _ & _).
      destruct before as [|b before]; simpl in E.
      * congruence.
      * destruct before; discriminate.
    + intros ->. exists [], []. auto.
  - pose proof S as S'. apply StronglySorted_inv in S'. destruct S' as [St F].
    destruct (Z.leb_spec (position it) xx) as [Le|Gt].
    + rewrite <- (IH it xx run St Le). split.
      * intros (before & after & E & P & N).
        destruct before as [|b before]; simpl in E.
        -- injection E as E1 E2. subst. lia.
        -- injection E as E1 E2. exists before, after. auto.
      * intros (before & after & E & P & N).
        exists (first :: before), after. simpl. rewrite E. auto.
    + split.
      * intros (before & after & E & P & N).
        destruct before as [|b before]; simpl in E.
        -- congruence.
        -- injection E as E1 E2.
           assert (Spec.run_containing (it :: rest) xx run) as R
             by (exists before, after; auto).
           destruct before as [|b' before]; simpl in E2.
           ++ injection E2 as E3 E4. subst. lia.
           ++ injection E2 as E3 E4. subst b'.
              assert (Spec.run_containing rest xx run) as R'
                by (exists before, after; auto).
              pose proof (run_containing_later it rest xx run St R'). lia.
      * intros ->. exists [], (it :: rest). auto.
Qed.

Lemma run_containing_first (first : Interval) (rest : list Interval) (xx : Z)
    (run : Interval) :
  Spec.runs_ordered (first :: rest) ->
  Spec.run_containing (first :: rest) xx run ->
  (position first <= xx)%Z.
Proof.
  intros S (before & after & E & P & N).
  destruct before as [|b before]; simpl in E.
  - injection E as E1 E2. subst. exact P.
  - injection E as E1 E2. subst b.
    assert (Spec.run_containing rest xx run) as R'
      by (exists before, after; auto).
    pose proof (run_containing_later first rest xx run S R'). lia.
Qed.

(** ** The smoothing brush *)

Lemma weighted_sample_bound (w s : Q) :
  0 <= w -> -1 <= s <= 1 -> - w <= w * s <= w.
Proof. intros W S. split; nra. Qed.

Lemma convex_mix_bound (p c o : Q) :
  0 <= p <= 1 -> -1 <= c <= 1 -> -1 <= o <= 1 ->
  -1 <= c * p + o * (1 - p) <= 1.
Proof. intros P C O. split; nra. Qed.

(** The inner loop adds, to what it starts from, a sum that the weights in
    range bound, when the samples in range lie in [[-1, 1]]. *)
Lemma kernel_fold_bound (sampleRegion : Floats) (range : Z * Z) (jj : Z)
    (l : list Z) :
  (forall ii, In ii l -> 0 <= weighting_factor ii) ->
  (forall ii, In ii l -> inRange range (sampleRegionIndex ii jj) = true ->
              -1 <= sampleRegion (sampleRegionIndex ii jj) <= 1) ->
  forall acc : Q,
    acc - weight_in_range range jj l
    <= fold_left (kernel_step sampleRegion range jj) l acc
    <= acc + weight_in_range range jj l.
Proof.
  induction l as [|ii l IH]; intros W S acc; simpl.
  - lra.
  - assert (forall k, In k l -> 0 <= weighting_factor k) as W'
      by (intros k I; apply W; right; exact I).
    assert (forall k, In k l -> inRange range (sampleRegionIndex k jj) = true ->
                      -1 <= sampleRegion (sampleRegionIndex k jj) <= 1) as S'
      by (intros k I; apply S; right; exact I).
    specialize (IH W' S').
    unfold kernel_step at 2 4.
    destruct (inRange range (sampleRegionIndex ii jj)) eqn:R; simpl.
    + pose proof (weighted_sample_bound (weighting_factor ii)
                    (sampleRegion (sampleRegionIndex ii jj))
                    (W ii (or_introl eq_refl)) (S ii (or_introl eq_refl) R)) as B.
      specialize (IH (acc + weighting_factor ii
                            * sampleRegion (sampleRegionIndex ii jj))).
      lra.
    + specialize (IH acc). lra.
Qed.

(** On samples that all equal [c] where they are in range, the inner loop
    adds [c] times the weights in range. *)
Lemma kernel_fold_constant (sampleRegion : Floats) (range : Z * Z) (jj : Z)
    (c : Q) (l : list Z) :
  (forall ii, In ii l -> inRange range (sampleRegionIndex ii jj) = true ->
              sampleRegion (sampleRegionIndex ii jj) == c) ->
  forall acc : Q,
    fold_left (kernel_step sampleRegion range jj) l acc
    == acc + c * weight_in_range range jj l.
Proof.
  induction l as [|ii l IH]; intros S acc; simpl.
  - ring.
  - assert (forall k, In k l -> inRange range (sampleRegionIndex k jj) = true ->
                      sampleRegion (sampleRegionIndex k jj) == c) as S'
      by (intros k I; apply S; right; exact I).
    rewrite (IH S'). unfold kernel_step.
    destruct (inRange range (sampleRegionIndex ii jj)) eqn:R; simpl.
    + rewrite (S ii (or_introl eq_refl) R). ring.
    + ring.
Qed.

(** Whatever the range, the weights in range of the whole kernel are at
    most [(SMOOTHING_KERNEL_RADIUS + 1)^2 = 16]. *)
Lemma weight_in_range_kernel (range : Z * Z) (jj : Z) :
  0 <= weight_in_range range jj kernel_offsets <= 16.
Proof.
  unfold weight_in_range, kernel_offsets. simpl fold_right.
  repeat match goal with
         | |- context [inRange ?r ?i] => destruct (inRange r i)
         end;
    split; vm_compute; discriminate.
Qed.

Lemma weighting_factor_kernel (ii : Z) :
  In ii kernel_offsets -> 0 <= weighting_factor ii.
Proof.
  intro I. simpl in I.
  repeat (destruct I as [<-|I]; [vm_compute; discriminate|]).
  contradiction.
Qed.

(** The index of every kernel point of every brush point lies in the buffer
    of [1 + 2 * (3 + 5) = 17] entries, so its conversion to [size_t] is the
    index itself. *)
Lemma sampleRegionIndex_in_buffer (ii jj : Z) :
  In ii kernel_offsets -> In jj brush_offsets ->
  (0 <= sampleRegionIndex ii jj < 17)%Z.
Proof.
  intros I J. unfold sampleRegionIndex.
  assert (-3 <= ii <= 3)%Z as Bi.
  { simpl in I. repeat (destruct I as [<-|I]; [lia|]). contradiction. }
  assert (-5 <= jj <= 5)%Z as Bj.
  { simpl in J. repeat (destruct J as [<-|J]; [lia|]). contradiction. }
  unfold SMOOTHING_KERNEL_RADIUS, SMOOTHING_BRUSH_RADIUS. lia.
Qed.

Lemma inRange_spec (range : Z * Z) (i : Z) :
  (0 <= i < 17)%Z ->
  (inRange range i = true <-> (fst range <= i < snd range)%Z).
Proof.
  intro B. unfold inRange.
  rewrite NumFacts.to_size_t_small by lia.
  rewrite andb_true_iff, Z.leb_le, Z.ltb_lt. reflexivity.
Qed.

(** The entry of [newSampleRegion] for brush point [jj] after the two loops:
    the average of the first loop, mixed with the original sample. *)
Lemma smoothed_entry (sampleRegion : Floats) (range : Z * Z)
    (allocated : Floats) (jj : Z) :
  In jj brush_offsets ->
  smoothed sampleRegion range allocated (jj + SMOOTHING_BRUSH_RADIUS)%Z
  = sumOfSamples sampleRegion range jj
      / inject_Z ((SMOOTHING_KERNEL_RADIUS + 1) * (SMOOTHING_KERNEL_RADIUS + 1))
      * prob jj
    + sampleRegion (SMOOTHING_BRUSH_RADIUS + SMOOTHING_KERNEL_RADIUS + jj)%Z
      * (1 - prob jj).
Proof.
  intro J. simpl in J.
  repeat (destruct J as [<-|J]; [reflexivity|]).
  contradiction.
Qed.

(** The values handed to the write are those entries, in the order of the
    brush points. *)
Lemma smoothed_values_entries (sampleRegion : Floats) (range : Z * Z) :
  smoothed_values sampleRegion range
  = map (fun jj =>
           smoothed sampleRegion range (fun _ => 0)
             (jj + SMOOTHING_BRUSH_RADIUS)%Z)
        brush_offsets.
Proof. reflexivity. Qed.

Lemma prob_unit (jj : Z) : In jj brush_offsets -> 0 <= prob jj <= 1.
Proof.
  intro J. simpl in J.
  repeat (destruct J as [<-|J]; [split; vm_compute; discriminate|]).
  contradiction.
Qed.

Lemma sumOfSamples_bound (sampleRegion : Floats) (range : Z * Z) (jj : Z) :
  (forall ii, In ii kernel_offsets ->
              inRange range (sampleRegionIndex ii jj) = true ->
              -1 <= sampleRegion (sampleRegionIndex ii jj) <= 1) ->
  -1 <= sumOfSamples sampleRegion range jj
        / inject_Z ((SMOOTHING_KERNEL_RADIUS + 1) * (SMOOTHING_KERNEL_RADIUS + 1))
     <= 1.
Proof.
  intro S. unfold sumOfSamples.
  pose proof (kernel_fold_bound sampleRegion range jj kernel_offsets
                weighting_factor_kernel S 0) as B.
  pose proof (weight_in_range_kernel range jj) as W.
  change (inject_Z ((SMOOTHING_KERNEL_RADIUS + 1) * (SMOOTHING_KERNEL_RADIUS + 1)))
    with 16.
  set (sum := fold_left _ _ _) in *.
  split.
  - apply Qle_shift_div_l; lra.
  - apply Qle_shift_div_r; lra.
Qed.

(** The value of a brush point lies in [[-1, 1]] when the samples in range
    that its sum reads do, and its own sample does. *)
Lemma smoothed_bound (sampleRegion : Floats) (range : Z * Z)
    (allocated : Floats) (jj : Z) :
  In jj brush_offsets ->
  (forall ii, In ii kernel_offsets ->
              inRange range (sampleRegionIndex ii jj) = true ->
              -1 <= sampleRegion (sampleRegionIndex ii jj) <= 1) ->
  -1 <= sampleRegion
          (SMOOTHING_BRUSH_RADIUS + SMOOTHING_KERNEL_RADIUS + jj)%Z <= 1 ->
  -1 <= smoothed sampleRegion range allocated (jj + SMOOTHING_BRUSH_RADIUS)%Z
  <= 1.
Proof.
  intros J S O. rewrite (smoothed_entry _ _ _ _ J).
  apply convex_mix_bound.
  - apply prob_unit. exact J.
  - apply sumOfSamples_bound. exact S.
  - exact O.
Qed.

Lemma brush_offset_bounds (jj : Z) : In jj brush_offsets -> (-5 <= jj <= 5)%Z.
Proof.
  intro J. simpl in J. repeat (destruct J as [<-|J]; [lia|]). contradiction.
Qed.

(** The value written for a brush point whose own sample was read lies in
    [[-1, 1]], when the samples that were read do; the read may be truncated
    at either end. *)
Lemma smoothed_bound_in_range (sampleRegion : Floats) (range : Z * Z)
    (allocated : Floats) (jj : Z) :
  In jj brush_offsets ->
  (forall i, (0 <= i < 17)%Z -> (fst range <= i < snd range)%Z ->
             -1 <= sampleRegion i <= 1) ->
  (fst range
   <= SMOOTHING_BRUSH_RADIUS + SMOOTHING_KERNEL_RADIUS + jj < snd range)%Z ->
  -1 <= smoothed sampleRegion range allocated (jj + SMOOTHING_BRUSH_RADIUS)%Z
  <= 1.
Proof.
  intros J S O. apply smoothed_bound; [exact J| |].
  - intros ii I R.
    pose proof (sampleRegionIndex_in_buffer ii jj I J) as B.
    apply S; [exact B|]. apply inRange_spec; assumption.
  - apply S; [|exact O].
    pose proof (brush_offset_bounds jj J).
    unfold SMOOTHING_KERNEL_RADIUS, SMOOTHING_BRUSH_RADIUS. lia.
Qed.

(** When all 17 entries of the buffer lie in [[-1, 1]], each of the 11
    values written back does, whatever range the read returned. *)
Lemma smoothed_values_bound_buffer (sampleRegion : Floats) (range : Z * Z) :
  (forall i, (0 <= i < 17)%Z -> -1 <= sampleRegion i <= 1) ->
  Forall (fun v => -1 <= v <= 1) (smoothed_values sampleRegion range).
Proof.
  intro S. rewrite smoothed_values_entries. apply Forall_forall.
  intros v I. apply in_map_iff in I. destruct I as (jj & <- & J).
  apply smoothed_bound; [exact J| |].
  - intros ii I _. apply S. apply sampleRegionIndex_in_buffer; assumption.
  - apply S. pose proof (brush_offset_bounds jj J).
    unfold SMOOTHING_KERNEL_RADIUS, SMOOTHING_BRUSH_RADIUS. lia.
Qed.

(** The value written for brush point [jj] is entry [jj + 5] of the list. *)
Lemma smoothed_values_nth (sampleRegion : Floats) (range : Z * Z) (jj : Z) :
  In jj brush_offsets ->
  nth (Z.to_nat (jj + SMOOTHING_BRUSH_RADIUS)) (smoothed_values sampleRegion range) 0
  = smoothed sampleRegion range (fun _ => 0) (jj + SMOOTHING_BRUSH_RADIUS)%Z.
Proof.
  intro J. simpl in J.
  repeat (destruct J as [<-|J]; [reflexivity|]).
  contradiction.
Qed.

(** C9, as the code has it.  When the samples the read returned lie in
    [[-1, 1]], the value written back for every brush point whose own sample
    is among them lies in [[-1, 1]], however the read was truncated: the sums
    skip what was not read and are still divided by [(3 + 1)^2].  All of the
    [2 * 5 + 1] values written back lie in [[-1, 1]] when all the
    [2 * (3 + 5) + 1] entries of the window do. *)
Theorem C9_smoothing_bound (sampleRegion : Floats) (range : Z * Z) :
  (forall i, (0 <= i < 17)%Z -> (fst range <= i < snd range)%Z ->
             -1 <= sampleRegion i <= 1) ->
  List.length (smoothed_values sampleRegion range) = 11%nat
  /\ (forall jj,
         In jj brush_offsets ->
         (fst range
          <= SMOOTHING_BRUSH_RADIUS + SMOOTHING_KERNEL_RADIUS + jj
          < snd range)%Z ->
         -1 <= nth (Z.to_nat (jj + SMOOTHING_BRUSH_RADIUS))
                 (smoothed_values sampleRegion range) 0
         <= 1)
  /\ ((forall i, (0 <= i < 17)%Z -> -1 <= sampleRegion i <= 1) ->
      Forall (fun v => -1 <= v <= 1) (smoothed_values sampleRegion range)).
Proof.
  intro S. split; [reflexivity|]. split.
  - intros jj J O. rewrite (smoothed_values_nth _ _ _ J).
    apply smoothed_bound_in_range; assumption.
  - apply smoothed_values_bound_buffer.
Qed.

(** On the full window every kernel point of every brush point is in range,
    and the weights add up to 16. *)
Lemma weight_in_range_full (jj : Z) :
  In jj brush_offsets ->
  weight_in_range (0, 17)%Z jj kernel_offsets == 16.
Proof.
  intro J. simpl in J.
  repeat (destruct J as [<-|J]; [reflexivity|]).
  contradiction.
Qed.

(** Smoothing a constant window gives the constant back. *)
Lemma smoothed_constant (sampleRegion : Floats) (c : Q) (allocated : Floats)
    (jj : Z) :
  In jj brush_offsets ->
  (forall i, (0 <= i < 17)%Z -> sampleRegion i == c) ->
  smoothed sampleRegion (0, 17)%Z allocated (jj + SMOOTHING_BRUSH_RADIUS)%Z == c.
Proof.
  intros J S. rewrite (smoothed_entry _ _ _ _ J).
  unfold sumOfSamples.
  rewrite (kernel_fold_constant sampleRegion (0, 17)%Z jj c).
  - rewrite (weight_in_range_full jj J).
    rewrite S.
    + change (inject_Z ((SMOOTHING_KERNEL_RADIUS + 1)
                        * (SMOOTHING_KERNEL_RADIUS + 1))) with 16.
      field.
    + assert (-5 <= jj <= 5)%Z as Bj.
      { simpl in J. repeat (destruct J as [<-|J]; [lia|]). contradiction. }
      unfold SMOOTHING_KERNEL_RADIUS, SMOOTHING_BRUSH_RADIUS. lia.
  - intros ii I _. apply S. apply sampleRegionIndex_in_buffer; assumption.
Qed.

(** The brush run in IEEE arithmetic on the window of C8.  [prob] is the
    float nearest 0.7 at the centre and exactly 0 at the two edges, and on a
    full window of samples 0.5 every one of the 11 values written is exactly
    0.5: the rounding of [float] arithmetic does not show on this input. *)
Lemma IEEE_constant_window :
  IEEE.prob 0 = S754_finite false 11744051 (-24)
  /\ IEEE.prob 5 = S754_zero false
  /\ IEEE.prob (-5) = S754_zero false
  /\ IEEE.smoothed_values (fun _ => IEEE.half) (0, 17)%Z
     = repeat IEEE.half 11.
Proof. vm_compute. repeat split; reflexivity. Qed.

(** On a full window of samples 1, and on one of samples -1, the values
    written in IEEE arithmetic are exactly 1, and exactly -1: at the ends of
    [[-1, 1]] the rounding does not carry the mix past the bound. *)
Lemma IEEE_extreme_windows :
  IEEE.smoothed_values (fun _ => IEEE.f32_of_int 1) (0, 17)%Z
  = repeat (IEEE.f32_of_int 1) 11
  /\ IEEE.smoothed_values (fun _ => IEEE.f32_of_int (-1)) (0, 17)%Z
     = repeat (IEEE.f32_of_int (-1)) 11.
Proof. vm_compute. split; reflexivity. Qed.

(** The inner loop where every kernel point is in range: the weighted sum
    of the samples, added to what the loop starts from. *)
Lemma kernel_fold_read (sampleRegion : Floats) (range : Z * Z) (jj : Z)
    (l : list Z) :
  (forall ii, In ii l -> inRange range (sampleRegionIndex ii jj) = true) ->
  forall acc : Q,
    fold_left (kernel_step sampleRegion range jj) l acc
    == acc
       + fold_right
           (fun ii rest =>
              weighting_factor ii * sampleRegion (sampleRegionIndex ii jj)
              + rest)
           0 l.
Proof.
  induction l as [|ii l IH]; intros R acc; simpl.
  - ring.
  - rewrite IH by (intros k I; apply R; right; exact I).
    unfold kernel_step. rewrite (R ii (or_introl eq_refl)). simpl. ring.
Qed.

(** On the full window the sum of brush point [jj] is the triangle
    1, 2, 3, 4, 3, 2, 1 on the seven samples around its own, which is entry
    [jj + 8]. *)
Lemma sumOfSamples_full (sampleRegion : Floats) (jj : Z) :
  In jj brush_offsets ->
  sumOfSamples sampleRegion (0, 17)%Z jj
  == 1 * sampleRegion (jj + 5)%Z + 2 * sampleRegion (jj + 6)%Z
     + 3 * sampleRegion (jj + 7)%Z + 4 * sampleRegion (jj + 8)%Z
     + 3 * sampleRegion (jj + 9)%Z + 2 * sampleRegion (jj + 10)%Z
     + 1 * sampleRegion (jj + 11)%Z.
Proof.
  intro J. unfold sumOfSamples.
  rewrite kernel_fold_read.
  - change kernel_offsets with [-3; -2; -1; 0; 1; 2; 3]%Z.
    cbn [fold_right].
    unfold sampleRegionIndex, SMOOTHING_KERNEL_RADIUS, SMOOTHING_BRUSH_RADIUS.
    replace (-3 + jj + 3 + 5)%Z with (jj + 5)%Z by lia.
    replace (-2 + jj + 3 + 5)%Z with (jj + 6)%Z by lia.
    replace (-1 + jj + 3 + 5)%Z with (jj + 7)%Z by lia.
    replace (0 + jj + 3 + 5)%Z with (jj + 8)%Z by lia.
    replace (1 + jj + 3 + 5)%Z with (jj + 9)%Z by lia.
    replace (2 + jj + 3 + 5)%Z with (jj + 10)%Z by lia.
    replace (3 + jj + 3 + 5)%Z with (jj + 11)%Z by lia.
    change (weighting_factor (-3)) with 1.
    change (weighting_factor (-2)) with 2.
    change (weighting_factor (-1)) with 3.
    change (weighting_factor 0) with 4.
    change (weighting_factor 1) with 3.
    change (weighting_factor 2) with 2.
    change (weighting_factor 3) with 1.
    ring.
  - intros ii I. apply inRange_spec.
    + apply sampleRegionIndex_in_buffer; assumption.
    + apply sampleRegionIndex_in_buffer; assumption.
Qed.

(** C8. The mix proportion at brush offset [jj] is
    [0.7 - (|jj| / 5) * 0.7]: 0.7 at the centre, 0 at the two edges of the
    brush.  The blend uses it: the value written back for brush point [jj] is
    the average of the first loop, the sum of that point divided by 16,
    times the proportion, plus the original sample times one minus the
    proportion; on the full window the sum is the triangle 1, 2, 3, 4, 3, 2,
    1 on the samples [jj + 5 .. jj + 11].  So at the two edges the value
    written back is the original sample, and when the read returns the full
    window and every sample in it is 0.5, each of the [2 * 5 + 1] values
    written back is 0.5. *)
Theorem C8_mix_proportion :
  (forall jj : Z, prob jj = Spec.mixProportion jj)
  /\ prob 0 == 7 # 10
  /\ prob 5 == 0
  /\ prob (-5) == 0
  /\ (forall (sampleRegion : Floats) (range : Z * Z) (jj : Z),
        In jj brush_offsets ->
        nth (Z.to_nat (jj + SMOOTHING_BRUSH_RADIUS))
          (smoothed_values sampleRegion range) 0
        == sumOfSamples sampleRegion range jj / 16 * Spec.mixProportion jj
           + sampleRegion
               (SMOOTHING_BRUSH_RADIUS + SMOOTHING_KERNEL_RADIUS + jj)%Z
             * (1 - Spec.mixProportion jj))
  /\ (forall (sampleRegion : Floats) (jj : Z),
        In jj brush_offsets ->
        nth (Z.to_nat (jj + 5)) (smoothed_values sampleRegion (0, 17)%Z) 0
        == (1 * sampleRegion (jj + 5)%Z + 2 * sampleRegion (jj + 6)%Z
            + 3 * sampleRegion (jj + 7)%Z + 4 * sampleRegion (jj + 8)%Z
            + 3 * sampleRegion (jj + 9)%Z + 2 * sampleRegion (jj + 10)%Z
            + 1 * sampleRegion (jj + 11)%Z) / 16
           * ((7 # 10) - (inject_Z (Z.abs jj) / 5) * (7 # 10))
           + sampleRegion (jj + 8)%Z
             * (1 - ((7 # 10) - (inject_Z (Z.abs jj) / 5) * (7 # 10))))
  /\ (forall (sampleRegion : Floats) (range : Z * Z),
        nth 0 (smoothed_values sampleRegion range) 0 == sampleRegion 3%Z
        /\ nth 10 (smoothed_values sampleRegion range) 0 == sampleRegion 13%Z)
  /\ (forall sampleRegion : Floats,
        (forall i, (0 <= i < 17)%Z -> sampleRegion i == 1 # 2) ->
        List.length (smoothed_values sampleRegion (0, 17)%Z) = 11%nat
        /\ Forall (fun v => v == 1 # 2)
             (smoothed_values sampleRegion (0, 17)%Z)).
Proof.
  assert (prob 5 == 0) as Hi by reflexivity.
  assert (prob (-5) == 0) as Lo by reflexivity.
  assert (forall (sampleRegion : Floats) (range : Z * Z) (jj : Z),
             In jj brush_offsets ->
             nth (Z.to_nat (jj + SMOOTHING_BRUSH_RADIUS))
               (smoothed_values sampleRegion range) 0
             == sumOfSamples sampleRegion range jj / 16
                * Spec.mixProportion jj
                + sampleRegion
                    (SMOOTHING_BRUSH_RADIUS + SMOOTHING_KERNEL_RADIUS + jj)%Z
                  * (1 - Spec.mixProportion jj)) as Blend.
  { intros sampleRegion range jj J.
    rewrite (smoothed_values_nth _ _ _ J), (smoothed_entry _ _ _ _ J).
    reflexivity. }
  split; [reflexivity|].
  split; [reflexivity|].
  split; [exact Hi|].
  split; [exact Lo|].
  split; [exact Blend|].
  split.
  { intros sampleRegion jj J.
    change 5%Z with SMOOTHING_BRUSH_RADIUS at 1.
    rewrite (Blend sampleRegion (0, 17)%Z jj J).
    rewrite (sumOfSamples_full sampleRegion jj J).
    replace (SMOOTHING_BRUSH_RADIUS + SMOOTHING_KERNEL_RADIUS + jj)%Z
      with (jj + 8)%Z
      by (unfold SMOOTHING_KERNEL_RADIUS, SMOOTHING_BRUSH_RADIUS; lia).
    unfold Spec.mixProportion. field. }
  split.
  - intros sampleRegion range. rewrite smoothed_values_entries.
    unfold brush_offsets. simpl map. simpl nth.
    rewrite (smoothed_entry sampleRegion range _ (-5)%Z) by (simpl; tauto).
    rewrite (smoothed_entry sampleRegion range _ 5%Z) by (simpl; tauto).
    rewrite Hi, Lo.
    change (SMOOTHING_BRUSH_RADIUS + SMOOTHING_KERNEL_RADIUS + -5)%Z with 3%Z.
    change (SMOOTHING_BRUSH_RADIUS + SMOOTHING_KERNEL_RADIUS + 5)%Z with 13%Z.
    split; ring.
  - intros sampleRegion S. split; [reflexivity|].
    rewrite smoothed_values_entries. apply Forall_forall.
    intros v I. apply in_map_iff in I. destruct I as (jj & <- & J).
    apply smoothed_constant; assumption.
Qed.

Section Properties.

Context {T : Type} `{WaveTrackAPI T} `{TrackArt}.

(** Unfolding of the monad of the methods. *)
Ltac run :=
  unfold bind, ret, lift, fault, get, deref, write, call_history,
    AudacityMessageBox; simpl.

(** C4. [SampleResolutionTest] answers [true] where no clip lies at the
    time; with a clip there, it answers [true] exactly when the average zoom
    of the run of pixels that contains the position is strictly greater than
    3 x (rate of the clip / stretch ratio of the clip).  For a clip that is
    not stretched, an average zoom of 2.9 x rate gives [false] and one of
    3.1 x rate gives [true]. *)
Theorem C4_resolution_gate (viewInfo : ViewInfo) (wt : T) (time : Q)
    (width : Z) :
  (GetClipAtTime wt time = None ->
   SampleResolutionTest viewInfo (Some wt) time width = Some true)
  /\ (forall (clip : WaveClip) (run : Interval),
        GetClipAtTime wt time = Some clip ->
        Spec.runs_ordered (FindIntervals viewInfo width) ->
        Spec.run_containing (FindIntervals viewInfo width)
          (Z.max 0 (TimeToPosition viewInfo time 0)) run ->
        exists editable : bool,
          SampleResolutionTest viewInfo (Some wt) time width = Some editable
          /\ (editable = true
              <-> 3 * (GetRate clip / GetStretchRatio clip) < averageZoom run)
          /\ (GetStretchRatio clip == 1 -> 0 < GetRate clip ->
              (averageZoom run == (29 # 10) * GetRate clip -> editable = false)
              /\ (averageZoom run == (31 # 10) * GetRate clip
                  -> editable = true))).
Proof.
  split.
  - intro N. unfold SampleResolutionTest. rewrite N. reflexivity.
  - intros clip run C S R. unfold SampleResolutionTest. rewrite C.
    rewrite NumFacts.std_max_int64_Zmax.
    destruct (FindIntervals viewInfo width) as [|first rest] eqn:F.
    + destruct R as (before & after & E & _). destruct before; discriminate.
    + pose proof (run_containing_first _ _ _ _ S R) as L.
      apply (scan_intervals_run rest first _ run S L) in R. subst run.
      eexists. split; [reflexivity|]. split.
      * apply NumFacts.ltb_lt.
      * intros St Pos. split; intro A.
        -- apply NumFacts.ltb_ge. rewrite A, St.
           setoid_replace (GetRate clip / 1) with (GetRate clip) by field.
           lra.
        -- apply NumFacts.ltb_lt. rewrite A, St.
           setoid_replace (GetRate clip / 1) with (GetRate clip) by field.
           lra.
Qed.

(** C6. The interpolator of a drag segment is [v1] at every query time when
    [t0 == t1]; otherwise it is the line through the anchors, clamped to the
    interval between the two endpoint values; so at every query time, inside
    [[t0, t1]] or not, its value lies between the two endpoint values. *)
Theorem C6_interpolator (t0 v0 t1 v1 t : Q) :
  (t0 == t1 -> interpolator t0 t1 v0 v1 t = v1)
  /\ (~ t0 == t1 ->
      interpolator t0 t1 v0 v1 t
      == Spec.clamp (v0 + (v1 - v0) / (t1 - t0) * (t - t0))
           (Qmin v0 v1) (Qmax v0 v1))
  /\ interpolator t0 t1 v0 v1 t == Spec.DrawInterpolator t0 v0 t1 v1 t
  /\ Qmin v0 v1 <= interpolator t0 t1 v0 v1 t <= Qmax v0 v1.
Proof.
  assert (Qmin v0 v1 <= Qmax v0 v1) as L
    by (apply Qle_trans with v0; [apply Q.le_min_l | apply Q.le_max_l]).
  assert (~ t0 == t1 ->
          interpolator t0 t1 v0 v1 t
          == Spec.clamp (v0 + (v1 - v0) / (t1 - t0) * (t - t0))
               (Qmin v0 v1) (Qmax v0 v1)) as Line.
  { intro D. unfold interpolator.
    apply NumFacts.eqb_neq in D. rewrite D.
    rewrite NumFacts.std_min_Qmin, NumFacts.std_max_Qmax.
    rewrite NumFacts.std_clamp_spec by exact L.
    unfold Spec.clamp.
    apply Q.max_compat; [reflexivity|].
    apply Q.min_compat; [reflexivity|]. ring. }
  repeat split.
  - intro E. unfold interpolator.
    apply NumFacts.eqb_eq in E. rewrite E. reflexivity.
  - exact Line.
  - unfold Spec.DrawInterpolator.
    destruct (Qeq_bool t0 t1) eqn:E.
    + unfold interpolator, Num.eqb. rewrite E. reflexivity.
    + apply Line. apply NumFacts.eqb_neq. exact E.
  - unfold interpolator. destruct (Num.eqb t0 t1).
    + apply Q.min_le_iff. right. apply Qle_refl.
    + rewrite NumFacts.std_min_Qmin, NumFacts.std_max_Qmax.
      apply NumFacts.std_clamp_bounds. exact L.
  - unfold interpolator. destruct (Num.eqb t0 t1).
    + apply Q.max_le_iff. right. apply Qle_refl.
    + rewrite NumFacts.std_min_Qmin, NumFacts.std_max_Qmax.
      apply NumFacts.std_clamp_bounds. exact L.
Qed.

(** The level [FindSampleEditingLevel] gives.  With an envelope at the time
    of the cursor it is the displayed level divided by the scale of the
    envelope at [t0] when that scale is positive, 0 when it is not, and the
    result clamped to [[-1, 1]].  With no envelope there, it is the
    displayed level itself: the clamp stands inside the test of the
    envelope and is not reached. *)
Lemma FindSampleEditingLevel_level (this : SampleHandle) (event : wxMouseState)
    (viewInfo : ViewInfo) (t0 : Q) (w : World T) (id : TrackId) :
  mClickedTrack this = Some id ->
  let wt := tracks w id in
  let displayedLevel :=
    ValueOfPixel (m_y event - y (mRect this)) (height (mRect this)) false
      (negb (isLinear wt)) (dBRange wt)
      (fst (GetDisplayBounds wt)) (snd (GetDisplayBounds wt)) in
  exists level : Q,
    FindSampleEditingLevel this event viewInfo t0 w = Some (level, w)
    /\ match GetEnvelopeAtTime wt
               (PositionToTime viewInfo (m_x event) (x (mRect this))) with
       | Some env =>
           level == Spec.applyEnvelopeCorrection displayedLevel (GetValue env t0)
           /\ -1 <= level <= 1
       | None => level = displayedLevel
       end.
Proof.
  intros P wt displayedLevel. unfold FindSampleEditingLevel. run.
  rewrite P. simpl. fold wt.
  subst displayedLevel. destruct (GetDisplayBounds wt) as [zoomMin zoomMax].
  simpl. destruct (GetEnvelopeAtTime wt _) as [env|].
  - eexists. split; [reflexivity|].
    rewrite NumFacts.std_max_Qmax, NumFacts.std_min_Qmin.
    unfold Spec.applyEnvelopeCorrection, Spec.clamp. split.
    + apply Q.max_compat; [reflexivity|].
      apply Q.min_compat; [reflexivity|].
      destruct (Qlt_le_dec 0 (GetValue env t0)) as [Pos|Neg].
      * apply NumFacts.ltb_lt in Pos. rewrite Pos. reflexivity.
      * apply NumFacts.ltb_ge in Neg. rewrite Neg. reflexivity.
    + split.
      * apply Q.le_max_l.
      * apply Q.max_lub; [lra | apply Q.le_min_l].
  - eexists. split; reflexivity.
Qed.

(** *** How the methods run *)

(** [IsSampleEditingPossible], by cases. *)
Lemma IsSampleEditingPossible_run (event : wxMouseState) (rect : wxRect)
    (viewInfo : ViewInfo) (wt : option T) (width : Z) (w : World T) :
  IsSampleEditingPossible event rect viewInfo wt width w
  = match adjustTime wt (PositionToTime viewInfo (m_x event) (x rect)) with
    | None => None
    | Some time =>
        match SampleResolutionTest viewInfo wt time width with
        | None => None
        | Some true => Some (true, w)
        | Some false =>
            Some (false,
                  mkWorld (tracks w) (history w)
                    (messages w ++ [draw_tool_message]))
        end
    end.
Proof.
  unfold IsSampleEditingPossible. run.
  destruct (adjustTime wt _) as [time|]; [|reflexivity]. simpl.
  destruct (SampleResolutionTest viewInfo wt time width) as [[|]|];
    reflexivity.
Qed.

(** It faults on a null track and writes to no track. *)
Lemma IsSampleEditingPossible_null (event : wxMouseState) (rect : wxRect)
    (viewInfo : ViewInfo) (width : Z) (w : World T) :
  IsSampleEditingPossible event rect viewInfo None width w = None.
Proof. rewrite IsSampleEditingPossible_run. reflexivity. Qed.

Lemma IsSampleEditingPossible_effect (event : wxMouseState) (rect : wxRect)
    (viewInfo : ViewInfo) (wt : option T) (width : Z) (w w' : World T)
    (possible : bool) :
  IsSampleEditingPossible event rect viewInfo wt width w = Some (possible, w') ->
  tracks w' = tracks w
  /\ history w' = history w
  /\ (possible = true -> w' = w)
  /\ wt <> None.
Proof.
  rewrite IsSampleEditingPossible_run.
  destruct wt as [wt|]; [|discriminate].
  destruct (adjustTime _ _) as [time|]; [|discriminate].
  destruct (SampleResolutionTest _ _ _ _) as [[|]|]; [| |discriminate];
    intro E; injection E as <- <-; simpl; repeat split; congruence.
Qed.

(** With a track and a first interval it returns. *)
Lemma adjustTime_returns (wt : T) (time : Q) :
  exists tt, adjustTime (Some wt) time = Some tt.
Proof.
  unfold adjustTime. destruct (GetClipAtTime wt time); eexists; reflexivity.
Qed.

Lemma SampleResolutionTest_returns (viewInfo : ViewInfo) (wt : T) (time : Q)
    (width : Z) :
  FindIntervals viewInfo width <> [] ->
  exists b, SampleResolutionTest viewInfo (Some wt) time width = Some b.
Proof.
  intro N. unfold SampleResolutionTest.
  destruct (GetClipAtTime wt time); [|eexists; reflexivity].
  destruct (FindIntervals viewInfo width); [contradiction|].
  eexists; reflexivity.
Qed.

(** [FindSampleEditingLevel] reads through the pointer and changes nothing. *)
Lemma FindSampleEditingLevel_effect (this : SampleHandle)
    (event : wxMouseState) (viewInfo : ViewInfo) (t0 : Q) (w w' : World T)
    (level : Q) :
  FindSampleEditingLevel this event viewInfo t0 w = Some (level, w') ->
  w' = w /\ mClickedTrack this <> None.
Proof.
  unfold FindSampleEditingLevel. run.
  destruct (mClickedTrack this) as [id|]; [|discriminate]. simpl.
  destruct (GetDisplayBounds (tracks w id)) as [zoomMin zoomMax].
  destruct (GetEnvelopeAtTime _ _); intro E; injection E as _ <-;
    split; congruence.
Qed.

Lemma FindSampleEditingLevel_returns (this : SampleHandle)
    (event : wxMouseState) (viewInfo : ViewInfo) (t0 : Q) (w : World T)
    (id : TrackId) :
  mClickedTrack this = Some id ->
  exists level, FindSampleEditingLevel this event viewInfo t0 w = Some (level, w).
Proof.
  intro P. unfold FindSampleEditingLevel. run. rewrite P. simpl.
  destruct (GetDisplayBounds (tracks w id)) as [zoomMin zoomMax].
  destruct (GetEnvelopeAtTime _ _); eexists; reflexivity.
Qed.

(** [Cancel] and [Release] always return. *)
Lemma Cancel_run (this : SampleHandle) (w : World T) :
  Cancel this w
  = Some (RefreshCell, set_mClickedTrack this None,
          mkWorld (tracks w) (history w ++ [RollbackState]) (messages w)).
Proof. reflexivity. Qed.

Lemma Release_run (this : SampleHandle) (pProject : AudacityProject)
    (w : World T) :
  Release this pProject w
  = if IsAudioActive pProject then Cancel this w
    else Some (RefreshNone, set_mClickedTrack this None,
               mkWorld (tracks w)
                 (history w
                  ++ [PushState "Moved Samples" "Sample Edit"
                        UndoPush_CONSOLIDATE])
                 (messages w)).
Proof. unfold Release. destruct (IsAudioActive pProject); reflexivity. Qed.

(** [Drag], by cases. *)
Lemma Drag_run (this : SampleHandle) (evt : TrackPanelMouseEvent)
    (pProject : AudacityProject) (w : World T) :
  Drag this evt pProject w
  = match IsSampleEditingPossible (event evt) (mRect this) (viewInfo pProject)
            (option_map (tracks w) (mClickedTrack this))
            (width (mRect this)) w with
    | None => None
    | Some (samplesVisible, w1) =>
        if IsAudioActive pProject || negb samplesVisible then
          Some (result_or RefreshCell Cancelled, set_mClickedTrack this None,
                mkWorld (tracks w1) (history w1 ++ [RollbackState])
                  (messages w1))
        else if mAltKey this then Some (RefreshNone, this, w1)
        else
          let t0 := PositionToTime (viewInfo pProject) (mLastDragPixel this) 0 in
          let t1 :=
            PositionToTime (viewInfo pProject) (m_x (event evt))
              (x (mRect this)) in
          let x1 :=
            if m_controlDown (event evt) then mClickedStartPixel this
            else Num.to_int (TimeToPosition (viewInfo pProject) t1 0) in
          match FindSampleEditingLevel this (event evt) (viewInfo pProject)
                  t0 w1 with
          | None => None
          | Some (newLevel, w2) =>
              match write (mClickedTrack this)
                      (fun wt =>
                         SetFloatsWithinTimeRange wt (Num.std_min t0 t1)
                           (Num.std_max t0 t1) 0%Z
                           (interpolator t0 t1 (mLastDragSampleValue this)
                              newLevel)
                           narrowestSampleFormat) w2 with
              | None => None
              | Some (_, w3) =>
                  Some (RefreshCell,
                        set_mLastDragSampleValue (set_mLastDragPixel this x1)
                          newLevel,
                        w3)
              end
          end
    end.
Proof.
  unfold Drag. unfold bind at 1. unfold get at 1. unfold bind at 1.
  destruct (IsSampleEditingPossible _ _ _ _ _ w) as [[samplesVisible w1]|];
    [|reflexivity].
  destruct (IsAudioActive pProject || negb samplesVisible); [reflexivity|].
  destruct (mAltKey this); [reflexivity|].
  unfold bind at 1.
  destruct (FindSampleEditingLevel _ _ _ _ w1) as [[newLevel w2]|];
    [|reflexivity].
  unfold bind at 1.
  destruct (write _ _ w2) as [[u w3]|]; reflexivity.
Qed.

(** [Click], by cases. *)
Lemma Click_run (this : SampleHandle) (evt : TrackPanelMouseEvent)
    (pProject : AudacityProject) (w : World T) :
  Click this evt pProject w
  = if IsAudioActive pProject then Some (Cancelled, this, w)
    else
      match IsSampleEditingPossible (event evt) (rect evt) (viewInfo pProject)
              (option_map (tracks w) (mClickedTrack this))
              (width (rect evt)) w with
      | None => None
      | Some (false, w1) => Some (Cancelled, this, w1)
      | Some (true, w1) =>
          let t0 :=
            PositionToTime (viewInfo pProject) (m_x (event evt))
              (x (rect evt)) in
          let armed :=
            set_mClickedStartPixel (set_mRect this (rect evt))
              (Num.to_int (TimeToPosition (viewInfo pProject) t0 0)) in
          if m_altDown (event evt) then
            match mClickedTrack this with
            | None => None
            | Some id =>
                let read :=
                  GetFloatsCenteredAroundTime (tracks w1 id) t0 0%Z
                    (SMOOTHING_KERNEL_RADIUS + SMOOTHING_BRUSH_RADIUS)%Z
                    false in
                match write (Some id)
                        (fun wt =>
                           SetFloatsCenteredAroundTime wt t0 0%Z
                             (smoothed_values (fst read) (snd read))
                             SMOOTHING_BRUSH_RADIUS narrowestSampleFormat)
                        w1 with
                | None => None
                | Some (_, w2) =>
                    let smoothing := set_mAltKey armed true in
                    Some (RefreshCell,
                          set_mLastDragPixel smoothing
                            (mClickedStartPixel smoothing),
                          w2)
                end
            end
          else
            let drawing := set_mAltKey armed false in
            match FindSampleEditingLevel drawing (event evt)
                    (viewInfo pProject) t0 w1 with
            | None => None
            | Some (newLevel, w2) =>
                match write (mClickedTrack this)
                        (fun wt =>
                           SetFloatAtTime wt t0 0%Z newLevel
                             narrowestSampleFormat)
                        w2 with
                | None => None
                | Some (_, w3) =>
                    let drawn := set_mLastDragSampleValue drawing newLevel in
                    Some (RefreshCell,
                          set_mLastDragPixel drawn (mClickedStartPixel drawn),
                          w3)
                end
            end
      end.
Proof.
  unfold Click.
  destruct (IsAudioActive pProject); [reflexivity|].
  unfold bind at 1. unfold get at 1. unfold bind at 1.
  destruct (IsSampleEditingPossible _ _ _ _ _ w) as [[[|] w1]|];
    [|reflexivity|reflexivity].
  cbv zeta. unfold negb.
  destruct (m_altDown (event evt)).
  - unfold bind at 1. unfold bind at 1. unfold deref, bind, get, lift.
    cbn [mClickedTrack set_mAltKey set_mClickedStartPixel set_mRect].
    destruct (mClickedTrack this) as [id|]; [|reflexivity].
    simpl.
    destruct (GetFloatsCenteredAroundTime _ _ _ _ _) as [sampleRegion range].
    reflexivity.
  - unfold bind at 1. unfold bind at 1.
    destruct (FindSampleEditingLevel _ _ _ _ w1) as [[newLevel w2]|];
      [|reflexivity].
    unfold bind at 1.
    cbn [mClickedTrack set_mAltKey set_mClickedStartPixel set_mRect].
    destruct (write _ _ w2) as [[u w3]|]; reflexivity.
Qed.

(** A write through the pointer leaves the calls on the history and the
    messages as they are. *)
Lemma write_effect (p : option TrackId) (f : T -> T) (w w' : World T)
    (u : unit) :
  write p f w = Some (u, w') ->
  history w' = history w /\ messages w' = messages w
  /\ exists id, p = Some id
                /\ tracks w' id = f (tracks w id)
                /\ forall other, other <> id -> tracks w' other = tracks w other.
Proof.
  unfold write. destruct p as [id|]; [|discriminate].
  intro E. injection E as _ <-. simpl.
  split; [reflexivity|]. split; [reflexivity|].
  exists id. split; [reflexivity|]. split.
  - rewrite Nat.eqb_refl. reflexivity.
  - intros other D. apply Nat.eqb_neq in D. rewrite D. reflexivity.
Qed.

(** What [Click] leaves behind: nothing but a message when it is rejected;
    otherwise the same calls on the history, and the same pointer. *)
Lemma Click_effect (this this' : SampleHandle) (evt : TrackPanelMouseEvent)
    (pProject : AudacityProject) (w w' : World T) (r : Result) :
  Click this evt pProject w = Some (r, this', w') ->
  history w' = history w
  /\ mClickedTrack this' = mClickedTrack this
  /\ (cancelled r = true -> tracks w' = tracks w /\ this' = this)
  /\ (cancelled r = false ->
      r = RefreshCell /\ IsAudioActive pProject = false
      /\ mClickedTrack this <> None).
Proof.
  rewrite Click_run.
  destruct (IsAudioActive pProject).
  { intro E. injection E as <- <- <-.
    repeat split; intros; try discriminate; congruence. }
  destruct (IsSampleEditingPossible _ _ _ _ _ w) as [[[|] w1]|] eqn:P;
    [| |discriminate].
  - apply IsSampleEditingPossible_effect in P.
    destruct P as (Tr & Hi & Same & NonNull).
    specialize (Same eq_refl). subst w1.
    assert (mClickedTrack this <> None) as NN
      by (destruct (mClickedTrack this); [discriminate|contradiction]).
    cbv zeta. destruct (m_altDown (event evt)).
    + destruct (mClickedTrack this) as [id|] eqn:Ptr; [|discriminate].
      destruct (write _ _ w) as [[u w2]|] eqn:W; [|discriminate].
      apply write_effect in W. destruct W as (Hi2 & _).
      intro E. injection E as <- <- <-. simpl.
      repeat split; intros; try discriminate; congruence.
    + destruct (FindSampleEditingLevel _ _ _ _ w) as [[newLevel w2]|] eqn:L;
        [|discriminate].
      apply FindSampleEditingLevel_effect in L. destruct L as [-> _].
      destruct (write _ _ w) as [[u w3]|] eqn:W; [|discriminate].
      apply write_effect in W. destruct W as (Hi2 & _).
      intro E. injection E as <- <- <-. simpl.
      repeat split; intros; try discriminate; congruence.
  - apply IsSampleEditingPossible_effect in P.
    destruct P as (Tr & Hi & _ & _).
    intro E. injection E as <- <- <-. simpl.
    repeat split; intros; try discriminate; congruence.
Qed.

(** What [Drag] leaves behind, when it does not cancel. *)
Lemma Drag_effect (this this' : SampleHandle) (evt : TrackPanelMouseEvent)
    (pProject : AudacityProject) (w w' : World T) (r : Result) :
  Drag this evt pProject w = Some (r, this', w') ->
  cancelled r = false ->
  history w' = history w
  /\ mClickedTrack this' = mClickedTrack this
  /\ IsAudioActive pProject = false
  /\ mClickedTrack this <> None.
Proof.
  rewrite Drag_run.
  destruct (IsSampleEditingPossible _ _ _ _ _ w) as [[samplesVisible w1]|] eqn:P;
    [|discriminate].
  apply IsSampleEditingPossible_effect in P.
  destruct P as (Tr & Hi & Same & NonNull).
  assert (mClickedTrack this <> None) as NN
    by (destruct (mClickedTrack this); [discriminate|contradiction]).
  destruct (IsAudioActive pProject); simpl.
  { intro E. injection E as <- <- <-. discriminate. }
  destruct samplesVisible; simpl.
  2:{ intro E. injection E as <- <- <-. discriminate. }
  specialize (Same eq_refl). subst w1.
  destruct (mAltKey this).
  { intro E. injection E as <- <- <-. auto. }
  destruct (FindSampleEditingLevel _ _ _ _ w) as [[newLevel w2]|] eqn:L;
    [|discriminate].
  apply FindSampleEditingLevel_effect in L. destruct L as [-> _].
  destruct (write _ _ w) as [[u w3]|] eqn:W; [|discriminate].
  apply write_effect in W. destruct W as (Hi2 & _).
  intro E. injection E as <- <- <-. simpl. auto.
Qed.

(** *** The gate on audio *)

(** A [Drag] that arrives while audio is active, on a handle that holds its
    track: cancelled, whatever the resolution test says. *)
Lemma Drag_audio_active (this : SampleHandle) (evt : TrackPanelMouseEvent)
    (pProject : AudacityProject) (w : World T) (id : TrackId) :
  IsAudioActive pProject = true ->
  mClickedTrack this = Some id ->
  FindIntervals (viewInfo pProject) (width (mRect this)) <> [] ->
  exists shown,
    Drag this evt pProject w
    = Some (result_or RefreshCell Cancelled, set_mClickedTrack this None,
            mkWorld (tracks w) (history w ++ [RollbackState])
              (messages w ++ shown)).
Proof.
  intros A P N. rewrite Drag_run, A, P. cbn [option_map].
  rewrite IsSampleEditingPossible_run.
  destruct (adjustTime_returns (tracks w id)
              (PositionToTime (viewInfo pProject) (m_x (event evt))
                 (x (mRect this)))) as [tt ->].
  destruct (SampleResolutionTest_returns (viewInfo pProject) (tracks w id) tt
              (width (mRect this)) N) as [[|] ->]; simpl.
  - exists []. rewrite app_nil_r. reflexivity.
  - exists [draw_tool_message]. reflexivity.
Qed.

(** The transition in the middle of a gesture: [Click] went through, audio
    became active, and the next [Drag] rolls back without a write. *)
Lemma Drag_after_Click_audio_active (this this1 : SampleHandle)
    (click drag : TrackPanelMouseEvent) (quiet playing : AudacityProject)
    (w w1 : World T) (r : Result) :
  Click this click quiet w = Some (r, this1, w1) ->
  cancelled r = false ->
  IsAudioActive playing = true ->
  FindIntervals (viewInfo playing) (width (rect click)) <> [] ->
  exists shown,
    Drag this1 drag playing w1
    = Some (result_or RefreshCell Cancelled, set_mClickedTrack this1 None,
            mkWorld (tracks w1) (history w1 ++ [RollbackState])
              (messages w1 ++ shown)).
Proof.
  intros C NC A N.
  assert (mRect this1 = rect click) as R.
  { revert C. rewrite Click_run.
    destruct (IsAudioActive quiet).
    { intro E. injection E as <- _ _. discriminate. }
    destruct (IsSampleEditingPossible _ _ _ _ _ w) as [[[|] w0]|];
      [| |discriminate].
    - cbv zeta. destruct (m_altDown (event click)).
      + destruct (mClickedTrack this) as [id|]; [|discriminate].
        destruct (write _ _ w0) as [[u w2]|]; [|discriminate].
        intro E. injection E as _ <- _. reflexivity.
      + destruct (FindSampleEditingLevel _ _ _ _ w0) as [[newLevel w2]|];
          [|discriminate].
        destruct (write _ _ w2) as [[u w3]|]; [|discriminate].
        intro E. injection E as _ <- _. reflexivity.
    - intro E. injection E as <- _ _. discriminate. }
  apply Click_effect in C. destruct C as (_ & Ptr & _ & Held).
  destruct (Held NC) as (_ & _ & NonNull).
  destruct (mClickedTrack this1) as [id|] eqn:P1; [|congruence].
  apply (Drag_audio_active this1 drag playing w1 id A P1).
  rewrite R. exact N.
Qed.

(** C1. An event delivered while audio is active changes no track.  A
    [Click] is rejected: the result is [Cancelled] and nothing changes.  A
    [Release] cancels: the handle is left with its pointer to the track
    null and its other members as they were, and the history is rolled
    back.  So does a [Drag] of a gesture that still holds its track, in a
    view that has a first interval: the result carries [Cancelled], the
    pointer of the handle is null afterwards, the history is rolled back,
    and whatever the resolution test showed, no sample is written. *)
Theorem C1_no_edit_while_audio_active (this : SampleHandle)
    (e : GestureEvent) (w : World T) :
  audio_active e = true ->
  (forall r this' w',
      deliver this e w = Some (r, this', w') -> tracks w' = tracks w)
  /\ match e with
     | EvClick evt pProject => deliver this e w = Some (Cancelled, this, w)
     | EvDrag evt pProject =>
         forall id,
           mClickedTrack this = Some id ->
           FindIntervals (viewInfo pProject) (width (mRect this)) <> [] ->
           exists shown this',
             deliver this e w
             = Some (mkResult true true, this',
                     mkWorld (tracks w) (history w ++ [RollbackState])
                       (messages w ++ shown))
             /\ mClickedTrack this' = None
             /\ mRect this' = mRect this
             /\ mClickedStartPixel this' = mClickedStartPixel this
             /\ mLastDragPixel this' = mLastDragPixel this
             /\ mLastDragSampleValue this' = mLastDragSampleValue this
             /\ mAltKey this' = mAltKey this
     | EvRelease pProject =>
         exists this',
           deliver this e w
           = Some (RefreshCell, this',
                   mkWorld (tracks w) (history w ++ [RollbackState])
                     (messages w))
           /\ mClickedTrack this' = None
           /\ mRect this' = mRect this
           /\ mClickedStartPixel this' = mClickedStartPixel this
           /\ mLastDragPixel this' = mLastDragPixel this
           /\ mLastDragSampleValue this' = mLastDragSampleValue this
           /\ mAltKey this' = mAltKey this
     | EvCancel => True
     end.
Proof.
  intro A. destruct e as [evt p|evt p|p|]; simpl in A; simpl deliver.
  - rewrite Click_run, A. split; [|reflexivity].
    intros r this' w' E. injection E as _ _ <-. reflexivity.
  - split.
    + intros r this' w'. rewrite Drag_run, A.
      destruct (IsSampleEditingPossible _ _ _ _ _ w) as [[v w1]|] eqn:P;
        [|discriminate].
      apply IsSampleEditingPossible_effect in P. destruct P as (Tr & _).
      simpl. intro E. injection E as _ _ <-. exact Tr.
    + intros id P N.
      destruct (Drag_audio_active this evt p w id A P N) as [shown D].
      exists shown, (set_mClickedTrack this None).
      split; [exact D|]. repeat split.
  - rewrite Release_run, A, Cancel_run. split.
    + intros r this' w' E. injection E as _ _ <-. reflexivity.
    + exists (set_mClickedTrack this None). repeat split.
  - discriminate.
Qed.

(** *** Release and the history *)

(** The drags of a gesture that were not cancelled leave the history and
    the pointer alone. *)
Lemma drags_effect (drags : list (TrackPanelMouseEvent * AudacityProject)) :
  forall (this this' : SampleHandle) (w w' : World T) (rs : list Result),
    deliver_all this (map (fun d => EvDrag (fst d) (snd d)) drags) w
    = Some (rs, this', w') ->
    Forall (fun r => cancelled r = false) rs ->
    history w' = history w
    /\ mClickedTrack this' = mClickedTrack this
    /\ List.length rs = List.length drags.
Proof.
  induction drags as [|[evt p] drags IH]; intros this this' w w' rs; simpl.
  - unfold ret. intro E. injection E as <- <- <-. auto.
  - unfold bind at 1.
    destruct (Drag this evt p w) as [[[r this1] w1]|] eqn:D; [|discriminate].
    unfold bind at 1. simpl snd.
    destruct (deliver_all this1 _ w1) as [[[rs1 this2] w2]|] eqn:R;
      [|discriminate].
    unfold ret. simpl. intro E. injection E as <- <- <-.
    intro F. inversion F as [|r0 rs0 Fr Frs]; subst.
    apply Drag_effect in D; [|exact Fr]. destruct D as (Hi & Ptr & _).
    destruct (IH _ _ _ _ _ R Frs) as (Hi' & Ptr' & Len).
    repeat split; simpl; congruence.
Qed.

Lemma deliver_all_app (es1 es2 : list GestureEvent) :
  forall (this : SampleHandle) (w : World T),
    deliver_all this (es1 ++ es2) w
    = match deliver_all this es1 w with
      | None => None
      | Some (rs1, this1, w1) =>
          match deliver_all this1 es2 w1 with
          | None => None
          | Some (rs2, this2, w2) => Some (rs1 ++ rs2, this2, w2)
          end
      end.
Proof.
  induction es1 as [|e es1 IH]; intros this w; simpl.
  - unfold ret. destruct (deliver_all this es2 w) as [[[rs2 this2] w2]|];
      reflexivity.
  - unfold bind, ret.
    destruct (deliver this e w) as [[[r this1] w1]|]; [|reflexivity].
    simpl fst. simpl snd. rewrite IH.
    destruct (deliver_all this1 es1 w1) as [[[rs1 this2] w2]|];
      [|reflexivity].
    cbn [fst snd].
    destruct (deliver_all this2 es2 w2) as [[[rs2 this3] w3]|]; reflexivity.
Qed.

(** C2. [Release] with audio not active clears the pointer to the track,
    pushes one state on the history, with [UndoPush::CONSOLIDATE], and asks
    for no refresh.  So a gesture [Click], [Drag] x N, [Release] none of
    whose events was cancelled leaves exactly that one call on the history. *)
Theorem C2_release_pushes_one_checkpoint (this : SampleHandle)
    (pProject : AudacityProject) (w : World T) :
  IsAudioActive pProject = false ->
  Release this pProject w
  = Some (RefreshNone, set_mClickedTrack this None,
          mkWorld (tracks w)
            (history w
             ++ [PushState "Moved Samples" "Sample Edit" UndoPush_CONSOLIDATE])
            (messages w))
  /\ forall (click : TrackPanelMouseEvent) (clickProject : AudacityProject)
            (drags : list (TrackPanelMouseEvent * AudacityProject))
            (rs : list Result) (this' : SampleHandle) (w' : World T),
       deliver_all this
         (EvClick click clickProject
          :: map (fun d => EvDrag (fst d) (snd d)) drags
          ++ [EvRelease pProject]) w
       = Some (rs, this', w') ->
       Forall (fun r => cancelled r = false) rs ->
       history w'
       = history w
         ++ [PushState "Moved Samples" "Sample Edit" UndoPush_CONSOLIDATE]
       /\ mClickedTrack this' = None
       /\ last rs Cancelled = RefreshNone
       /\ List.length rs = S (S (List.length drags)).
Proof.
  intro A. split.
  - rewrite Release_run, A. reflexivity.
  - intros click clickProject drags rs this' w'.
    cbn [deliver_all]. unfold bind at 1. cbn [deliver].
    destruct (Click this click clickProject w) as [[[r0 this0] w0]|] eqn:C;
      [|discriminate].
    unfold bind at 1. simpl snd. rewrite deliver_all_app.
    destruct (deliver_all this0 _ w0) as [[[rs1 this1] w1]|] eqn:D;
      [|discriminate].
    cbn [deliver_all]. unfold bind at 1. cbn [deliver].
    rewrite Release_run, A. unfold bind, ret. simpl.
    intro E. injection E as <- <- <-. intro F.
    inversion F as [|r rs0 Fr Frs]; subst.
    apply Forall_app in Frs. destruct Frs as [Frs _].
    apply Click_effect in C. destruct C as (Hi0 & _).
    destruct (drags_effect _ _ _ _ _ _ D Frs) as (Hi1 & _ & Len).
    cbn [history mClickedTrack set_mClickedTrack fst snd].
    rewrite Hi1, Hi0.
    split; [reflexivity|]. split; [reflexivity|]. split.
    + change (r0 :: rs1 ++ [RefreshNone]) with ((r0 :: rs1) ++ [RefreshNone]).
      apply last_last.
    + simpl. rewrite length_app. simpl. lia.
Qed.

(** *** A gesture that goes through *)

(** [Click] with audio not active, on samples that can be seen: it returns
    [RefreshCell], keeps the pointer and records the rectangle. *)
Lemma Click_goes_through (Inv : T -> Prop) (this : SampleHandle)
    (evt : TrackPanelMouseEvent) (pProject : AudacityProject) (w : World T)
    (id : TrackId) :
  writes_keep Inv ->
  Inv (tracks w id) ->
  mClickedTrack this = Some id ->
  IsAudioActive pProject = false ->
  samples_visible Inv (viewInfo pProject) (event evt) (rect evt) ->
  exists this' w',
    Click this evt pProject w = Some (RefreshCell, this', w')
    /\ mClickedTrack this' = Some id
    /\ mRect this' = rect evt
    /\ Inv (tracks w' id)
    /\ history w' = history w.
Proof.
  intros (K1 & K2 & _) I P A V.
  destruct (V (tracks w id) I) as (time & Adj & Res).
  rewrite Click_run, A, P. cbn [option_map].
  rewrite IsSampleEditingPossible_run, Adj, Res. cbv zeta.
  destruct (m_altDown (event evt)).
  - unfold write. do 2 eexists. split; [reflexivity|].
    cbn. rewrite Nat.eqb_refl. repeat split; auto.
  - match goal with
    | |- context [FindSampleEditingLevel ?h ?e ?v ?t w] =>
        destruct (FindSampleEditingLevel_returns h e v t w id P)
          as [newLevel ->]
    end.
    unfold write. do 2 eexists. split; [reflexivity|].
    cbn. rewrite Nat.eqb_refl. repeat split; auto.
Qed.

(** [Drag] likewise: it is not cancelled. *)
Lemma Drag_goes_through (Inv : T -> Prop) (this : SampleHandle)
    (evt : TrackPanelMouseEvent) (pProject : AudacityProject) (w : World T)
    (id : TrackId) :
  writes_keep Inv ->
  Inv (tracks w id) ->
  mClickedTrack this = Some id ->
  IsAudioActive pProject = false ->
  samples_visible Inv (viewInfo pProject) (event evt) (mRect this) ->
  exists r this' w',
    Drag this evt pProject w = Some (r, this', w')
    /\ cancelled r = false
    /\ mClickedTrack this' = Some id
    /\ mRect this' = mRect this
    /\ Inv (tracks w' id)
    /\ history w' = history w.
Proof.
  intros (_ & _ & K3) I P A V.
  destruct (V (tracks w id) I) as (time & Adj & Res).
  rewrite Drag_run, A, P. cbn [option_map].
  rewrite IsSampleEditingPossible_run, Adj, Res. cbn [orb negb]. cbv zeta.
  destruct (mAltKey this).
  - do 3 eexists. split; [reflexivity|]. repeat split; auto.
  - match goal with
    | |- context [FindSampleEditingLevel ?h ?e ?v ?t w] =>
        destruct (FindSampleEditingLevel_returns h e v t w id P)
          as [newLevel ->]
    end.
    unfold write. do 3 eexists. split; [reflexivity|].
    cbn. rewrite Nat.eqb_refl. repeat split; auto.
Qed.

Lemma drags_go_through (Inv : T -> Prop) (id : TrackId) (area : wxRect)
    (drags : list (TrackPanelMouseEvent * AudacityProject)) :
  writes_keep Inv ->
  Forall (fun d =>
            IsAudioActive (snd d) = false
            /\ samples_visible Inv (viewInfo (snd d)) (event (fst d)) area)
         drags ->
  forall (this : SampleHandle) (w : World T),
    Inv (tracks w id) ->
    mClickedTrack this = Some id ->
    mRect this = area ->
    exists rs this' w',
      deliver_all this (map (fun d => EvDrag (fst d) (snd d)) drags) w
      = Some (rs, this', w')
      /\ Forall (fun r => cancelled r = false) rs
      /\ mClickedTrack this' = Some id
      /\ history w' = history w.
Proof.
  intros K F. induction F as [|[evt p] drags [A V] F IH]; intros this w I P R.
  - exists [], this, w. simpl. unfold ret. auto.
  - simpl in A, V. rewrite <- R in V.
    destruct (Drag_goes_through Inv this evt p w id K I P A V)
      as (r & this1 & w1 & D & NC & P1 & R1 & I1 & Hi1).
    destruct (IH this1 w1 I1 P1 (eq_trans R1 R))
      as (rs & this2 & w2 & Ds & NCs & P2 & Hi2).
    exists (r :: rs), this2, w2.
    cbn [map deliver_all deliver fst snd]. unfold bind at 1. rewrite D.
    unfold bind at 1. cbn [snd fst]. rewrite Ds. unfold ret. cbn [fst snd].
    repeat split; [constructor; assumption|assumption|congruence].
Qed.

(** With audio not active and the samples in view all along, a gesture
    [Click], [Drag] x N, [Release] on a handle that holds its track goes
    through: no event is cancelled, and the history has received the one
    consolidated state of [Release], nothing else. *)
Lemma stroke_goes_through (Inv : T -> Prop) (this : SampleHandle)
    (id : TrackId) (w : World T) (click : TrackPanelMouseEvent)
    (clickProject releaseProject : AudacityProject)
    (drags : list (TrackPanelMouseEvent * AudacityProject)) :
  writes_keep Inv ->
  Inv (tracks w id) ->
  mClickedTrack this = Some id ->
  IsAudioActive clickProject = false ->
  samples_visible Inv (viewInfo clickProject) (event click) (rect click) ->
  Forall (fun d =>
            IsAudioActive (snd d) = false
            /\ samples_visible Inv (viewInfo (snd d)) (event (fst d))
                 (rect click))
         drags ->
  IsAudioActive releaseProject = false ->
  exists rs this' w',
    deliver_all this
      (EvClick click clickProject
       :: map (fun d => EvDrag (fst d) (snd d)) drags
       ++ [EvRelease releaseProject]) w
    = Some (rs, this', w')
    /\ Forall (fun r => cancelled r = false) rs
    /\ mClickedTrack this' = None
    /\ history w'
       = history w
         ++ [PushState "Moved Samples" "Sample Edit" UndoPush_CONSOLIDATE].
Proof.
  intros K I P A V F AR.
  destruct (Click_goes_through Inv this click clickProject w id K I P A V)
    as (this1 & w1 & C & P1 & R1 & I1 & Hi1).
  destruct (drags_go_through Inv id (rect click) drags K F this1 w1 I1 P1 R1)
    as (rs & this2 & w2 & Ds & NCs & P2 & Hi2).
  cbn [deliver_all deliver]. unfold bind at 1. rewrite C.
  unfold bind at 1. cbn [snd fst]. rewrite deliver_all_app, Ds.
  cbn [deliver_all deliver]. unfold bind at 1. rewrite Release_run, AR.
  unfold bind, ret. cbn [fst snd].
  do 3 eexists. split; [reflexivity|]. split.
  - constructor; [reflexivity|]. apply Forall_app. split; [exact NCs|].
    repeat constructor.
  - cbn. rewrite Hi2, Hi1. split; reflexivity.
Qed.

(** *** After the pointer is cleared *)

(** [Drag] on a handle whose pointer is cleared calls [adjustTime] on the
    null pointer, which dereferences it. *)
Lemma Drag_null (this : SampleHandle) (evt : TrackPanelMouseEvent)
    (pProject : AudacityProject) (w : World T) :
  mClickedTrack this = None -> Drag this evt pProject w = None.
Proof.
  intro N. rewrite Drag_run, N. cbn [option_map].
  rewrite IsSampleEditingPossible_null. reflexivity.
Qed.

(** So does [Click], unless audio is active. *)
Lemma Click_null (this : SampleHandle) (evt : TrackPanelMouseEvent)
    (pProject : AudacityProject) (w : World T) :
  mClickedTrack this = None ->
  IsAudioActive pProject = false ->
  Click this evt pProject w = None.
Proof.
  intros N A. rewrite Click_run, N, A. cbn [option_map].
  rewrite IsSampleEditingPossible_null. reflexivity.
Qed.

(** No event that returns on a handle whose pointer is cleared changes a
    track, and the pointer stays cleared. *)
Lemma cleared_handle_writes_nothing (this this' : SampleHandle)
    (e : GestureEvent) (w w' : World T) (r : Result) :
  mClickedTrack this = None ->
  deliver this e w = Some (r, this', w') ->
  tracks w' = tracks w /\ mClickedTrack this' = None.
Proof.
  intros N. destruct e as [evt p|evt p|p|]; simpl deliver.
  - destruct (IsAudioActive p) eqn:A.
    + rewrite Click_run, A. intro E. injection E as _ <- <-. auto.
    + rewrite (Click_null _ _ _ _ N A). discriminate.
  - rewrite (Drag_null _ _ _ _ N). discriminate.
  - rewrite Release_run, Cancel_run.
    destruct (IsAudioActive p); intro E; injection E as _ <- <-; auto.
  - rewrite Cancel_run. intro E. injection E as _ <- <-. auto.
Qed.

(** *** A drag in drawing mode *)

(** [Drag] in drawing mode, with audio not active and the resolution test
    passed, step by step: the level is [FindSampleEditingLevel] of the event
    with [t0] as its time argument, the write is the interpolator over
    [[min t0 t1, max t0 t1]], and only the two last-drag members change. *)
Lemma Drag_drawing_run (this : SampleHandle) (evt : TrackPanelMouseEvent)
    (pProject : AudacityProject) (w : World T) (id : TrackId) (tt : Q) :
  IsAudioActive pProject = false ->
  mClickedTrack this = Some id ->
  mAltKey this = false ->
  adjustTime (Some (tracks w id))
    (PositionToTime (viewInfo pProject) (m_x (event evt)) (x (mRect this)))
  = Some tt ->
  SampleResolutionTest (viewInfo pProject) (Some (tracks w id)) tt
    (width (mRect this))
  = Some true ->
  let t0 := PositionToTime (viewInfo pProject) (mLastDragPixel this) 0 in
  let t1 :=
    PositionToTime (viewInfo pProject) (m_x (event evt)) (x (mRect this)) in
  let x1 :=
    if m_controlDown (event evt) then mClickedStartPixel this
    else Num.to_int (TimeToPosition (viewInfo pProject) t1 0) in
  exists (newLevel : Q) (w' : World T),
    FindSampleEditingLevel this (event evt) (viewInfo pProject) t0 w
    = Some (newLevel, w)
    /\ Drag this evt pProject w
       = Some (RefreshCell,
               set_mLastDragSampleValue (set_mLastDragPixel this x1) newLevel,
               w')
    /\ tracks w' id
       = SetFloatsWithinTimeRange (tracks w id) (Qmin t0 t1) (Qmax t0 t1) 0%Z
           (interpolator t0 t1 (mLastDragSampleValue this) newLevel)
           narrowestSampleFormat
    /\ (forall other, other <> id -> tracks w' other = tracks w other)
    /\ history w' = history w
    /\ messages w' = messages w.
Proof.
  intros A P Alt Adj Res t0 t1 x1.
  destruct (FindSampleEditingLevel_returns this (event evt)
              (viewInfo pProject) t0 w id P) as [newLevel L].
  exists newLevel.
  rewrite Drag_run, P. cbn [option_map].
  rewrite IsSampleEditingPossible_run, Adj, Res, A, Alt.
  cbn [orb negb]. cbv zeta. fold t0 t1 x1. rewrite L.
  destruct (write (Some id) _ w) as [[u w3]|] eqn:W; [|discriminate].
  apply write_effect in W.
  destruct W as (Hi & Ms & id' & E & Tr & Others).
  injection E as <-.
  eexists. split; [reflexivity|]. split; [reflexivity|].
  rewrite <- NumFacts.std_min_Qmin, <- NumFacts.std_max_Qmax.
  repeat split; assumption.
Qed.

(** C7, as the code has it.  On a [Drag] in drawing mode, with audio not
    active and the resolution test passed: [t0] is the time of
    [mLastDragPixel] and [t1] the time of the pixel of the cursor; the new
    level is a level [FindSampleEditingLevel] gives for the event; the
    interpolator from [(t0, mLastDragSampleValue)] to [(t1, new level)] is
    written over exactly [[min t0 t1, max t0 t1]], with [t1] the time of the
    cursor whether the control key is held or not; then [mLastDragPixel]
    becomes [mClickedStartPixel] when the control key is held and the pixel
    of [t1] otherwise, and [mLastDragSampleValue] becomes the new level. *)
Theorem C7_drag_drawing (this : SampleHandle) (evt : TrackPanelMouseEvent)
    (pProject : AudacityProject) (w : World T) (id : TrackId) (tt : Q) :
  IsAudioActive pProject = false ->
  mClickedTrack this = Some id ->
  mAltKey this = false ->
  adjustTime (Some (tracks w id))
    (PositionToTime (viewInfo pProject) (m_x (event evt)) (x (mRect this)))
  = Some tt ->
  SampleResolutionTest (viewInfo pProject) (Some (tracks w id)) tt
    (width (mRect this))
  = Some true ->
  let t0 := PositionToTime (viewInfo pProject) (mLastDragPixel this) 0 in
  let t1 :=
    PositionToTime (viewInfo pProject) (m_x (event evt)) (x (mRect this)) in
  exists (newLevel : Q) (this' : SampleHandle) (w' : World T),
    (exists envelopeTime,
        FindSampleEditingLevel this (event evt) (viewInfo pProject)
          envelopeTime w
        = Some (newLevel, w))
    /\ Drag this evt pProject w = Some (RefreshCell, this', w')
    /\ tracks w' id
       = SetFloatsWithinTimeRange (tracks w id) (Qmin t0 t1) (Qmax t0 t1) 0%Z
           (interpolator t0 t1 (mLastDragSampleValue this) newLevel)
           narrowestSampleFormat
    /\ (forall other, other <> id -> tracks w' other = tracks w other)
    /\ history w' = history w
    /\ messages w' = messages w
    /\ mLastDragPixel this'
       = (if m_controlDown (event evt) then mClickedStartPixel this
          else Num.to_int (TimeToPosition (viewInfo pProject) t1 0))
    /\ mLastDragSampleValue this' = newLevel
    /\ mClickedTrack this' = mClickedTrack this
    /\ mRect this' = mRect this
    /\ mClickedStartPixel this' = mClickedStartPixel this
    /\ mAltKey this' = mAltKey this.
Proof.
  intros A P Alt Adj Res t0 t1.
  destruct (Drag_drawing_run this evt pProject w id tt A P Alt Adj Res)
    as (newLevel & w' & L & D & Tr & Others & Hi & Ms).
  exists newLevel. eexists. exists w'.
  split; [eexists; exact L|]. split; [exact D|].
  repeat split; assumption.
Qed.

(** *** Hit testing *)

(** C10. [HitTest] changes nothing and shows no message.  On a track, once
    the time is snapped: it gives no handle when the resolution test fails,
    when the read of the one sample fails, and when the pointer is 10 pixels
    or more, vertically, from the displayed position of the sample (its
    amplitude times the value of the envelope at the snapped time, 1 without
    an envelope); it gives the handle of the track when the distance is
    strictly less than 10 pixels. *)
Theorem C10_hit_test (state : wxMouseState) (rect : wxRect)
    (pProject : AudacityProject) (id : TrackId) (w : World T) (tt : Q) :
  let wt := tracks w id in
  let time := PositionToTime (viewInfo pProject) (m_x state) (x rect) in
  let envValue :=
    match GetEnvelopeAtTime wt time with
    | Some env => GetValue env tt
    | None => 1
    end in
  let yValue (oneSample : Q) :=
    (GetWaveYPos (oneSample * envValue) (fst (GetDisplayBounds wt))
       (snd (GetDisplayBounds wt)) (height rect) (negb (isLinear wt)) true
       (dBRange wt) false + y rect)%Z in
  adjustTime (Some wt) time = Some tt ->
  (forall hit w',
      HitTest state rect pProject (Some id) w = Some (hit, w') -> w' = w)
  /\ (SampleResolutionTest (viewInfo pProject) (Some wt) tt (width rect)
      = Some false ->
      HitTest state rect pProject (Some id) w = Some (None, w))
  /\ (SampleResolutionTest (viewInfo pProject) (Some wt) tt (width rect)
      = Some true ->
      (GetFloatAtTime wt tt 0%Z false = None ->
       HitTest state rect pProject (Some id) w = Some (None, w))
      /\ (forall oneSample,
             GetFloatAtTime wt tt 0%Z false = Some oneSample ->
             ((10 <= Z.abs (yValue oneSample - m_y state))%Z ->
              HitTest state rect pProject (Some id) w = Some (None, w))
             /\ ((Z.abs (yValue oneSample - m_y state) < 10)%Z ->
                 HitTest state rect pProject (Some id) w
                 = Some (Some (HitAnywhere (Some id)), w))))
  /\ (forall h w',
         HitTest state rect pProject (Some id) w = Some (Some h, w') ->
         exists oneSample,
           GetFloatAtTime wt tt 0%Z false = Some oneSample
           /\ (Z.abs (yValue oneSample - m_y state) < 10)%Z).
Proof.
  intros wt time envValue yValue Adj.
  assert (HitTest state rect pProject (Some id) w
          = match SampleResolutionTest (viewInfo pProject) (Some wt) tt
                    (width rect) with
            | None => None
            | Some false => Some (None, w)
            | Some true =>
                match GetFloatAtTime wt tt 0%Z false with
                | None => Some (None, w)
                | Some oneSample =>
                    if (Z.abs (yValue oneSample - m_y state) >=? 10)%Z
                    then Some (None, w)
                    else Some (Some (HitAnywhere (Some id)), w)
                end
            end) as Run.
  { unfold HitTest. unfold bind at 1. unfold get at 1. cbn [option_map].
    fold wt. fold time. unfold bind at 1. rewrite Adj. cbn [lift ret].
    unfold bind at 1.
    destruct (SampleResolutionTest _ _ _ _) as [[|]|]; try reflexivity.
    cbn [lift ret negb]. unfold bind at 1. cbn [lift ret].
    destruct (GetFloatAtTime wt tt 0%Z false) as [oneSample|];
      [|reflexivity].
    subst yValue envValue. cbv beta.
    destruct (GetDisplayBounds wt) as [zoomMin zoomMax]. cbn [fst snd].
    destruct (Z.abs _ >=? 10)%Z; reflexivity. }
  rewrite Run. clear Run. split; [|split; [|split]].
  - intros hit w'.
    destruct (SampleResolutionTest _ _ _ _) as [[|]|]; [| |discriminate].
    + destruct (GetFloatAtTime wt tt 0%Z false) as [oneSample|].
      * destruct (Z.abs _ >=? 10)%Z; intro E; injection E as _ <-;
          reflexivity.
      * intro E; injection E as _ <-; reflexivity.
    + intro E; injection E as _ <-; reflexivity.
  - intros ->. reflexivity.
  - intros ->. split.
    + intros ->. reflexivity.
    + intros oneSample ->. split; intro Far.
      * destruct (Z.geb_spec (Z.abs (yValue oneSample - m_y state)) 10);
          [reflexivity|lia].
      * destruct (Z.geb_spec (Z.abs (yValue oneSample - m_y state)) 10);
          [lia|reflexivity].
  - intros h w'.
    destruct (SampleResolutionTest _ _ _ _) as [[|]|]; try discriminate.
    destruct (GetFloatAtTime wt tt 0%Z false) as [oneSample|];
      [|discriminate].
    destruct (Z.geb_spec (Z.abs (yValue oneSample - m_y state)) 10);
      [discriminate|].
    intros _. exists oneSample. split; [reflexivity|lia].
Qed.

End Properties.

(** * The properties at work on the instance *)

Module Examples.

Import Demo.

(** C4 on a clip of 10 samples per second, not stretched: a view of 31
    pixels per second can be edited, one of 29 cannot. *)
Lemma C4_witness :
  SampleResolutionTest (view 31) (Some plain_track) 1 400 = Some true
  /\ SampleResolutionTest (view 29) (Some plain_track) 1 400 = Some false.
Proof.
  split.
  - destruct (C4_resolution_gate (view 31) plain_track 1 400) as [_ G].
    destruct (G clip10 (mkInterval 0 31 false)) as (editable & E & _ & S).
    + reflexivity.
    + repeat constructor.
    + exists [], [mkInterval 400 0 false]. repeat split. vm_compute.
      discriminate.
    + rewrite E. f_equal. apply S; reflexivity.
  - destruct (C4_resolution_gate (view 29) plain_track 1 400) as [_ G].
    destruct (G clip10 (mkInterval 0 29 false)) as (editable & E & _ & S).
    + reflexivity.
    + repeat constructor.
    + exists [], [mkInterval 400 0 false]. repeat split. vm_compute.
      discriminate.
    + rewrite E. f_equal. apply S; reflexivity.
Defined.

(** C6 on the anchors (0, 0.2) and (1, -0.3), queried at 1.5, past the
    second anchor: the value is the lower endpoint value. *)
Lemma C6_witness :
  Qmin (2 # 10) (- (3 # 10))
  <= interpolator 0 1 (2 # 10) (- (3 # 10)) (3 # 2)
  <= Qmax (2 # 10) (- (3 # 10))
  /\ interpolator 0 1 (2 # 10) (- (3 # 10)) (3 # 2) == - (3 # 10)
  /\ interpolator 1 1 (2 # 10) (- (3 # 10)) (3 # 2) = - (3 # 10).
Proof.
  destruct (C6_interpolator 0 (2 # 10) 1 (- (3 # 10)) (3 # 2))
    as (_ & _ & _ & B).
  destruct (C6_interpolator 1 (2 # 10) 1 (- (3 # 10)) (3 # 2))
    as (D & _).
  split; [exact B|]. split; [reflexivity|].
  apply D. reflexivity.
Defined.

(** C1 on a drag that arrives while audio plays: cancelled, rolled back, no
    write, and the handle left without its track. *)
Lemma C1_witness :
  audio_active (EvDrag (mouse 60 40 false false) (playing 100)) = true
  /\ exists shown this',
       deliver armed (EvDrag (mouse 60 40 false false) (playing 100))
         (world_of plain_track)
       = Some (mkResult true true, this',
               mkWorld (tracks (world_of plain_track)) [RollbackState] shown)
       /\ mClickedTrack armed = Some 0%nat
       /\ mClickedTrack this' = None.
Proof.
  split; [reflexivity|].
  destruct (C1_no_edit_while_audio_active armed
              (EvDrag (mouse 60 40 false false) (playing 100))
              (world_of plain_track) eq_refl) as [_ D].
  destruct (D 0%nat eq_refl) as (shown & this' & E & Ptr & _).
  - discriminate.
  - exists shown, this'. split; [exact E|]. split; [reflexivity|exact Ptr].
Defined.

(** C2 on the stroke: one state pushed, consolidated. *)
Lemma C2_witness :
  exists rs this' w',
    deliver_all fresh stroke (world_of plain_track) = Some (rs, this', w')
    /\ rs = [RefreshCell; RefreshCell; RefreshCell; RefreshNone]
    /\ history w'
       = [PushState "Moved Samples" "Sample Edit" UndoPush_CONSOLIDATE]
    /\ mClickedTrack this' = None.
Proof.
  assert (option_map (fun out => fst (fst out))
            (deliver_all fresh stroke (world_of plain_track))
          = Some [RefreshCell; RefreshCell; RefreshCell; RefreshNone]) as R
    by (vm_compute; reflexivity).
  destruct (deliver_all fresh stroke (world_of plain_track))
    as [[[rs this'] w']|] eqn:E; [|discriminate R].
  cbn [option_map fst] in R. injection R as R.
  exists rs, this', w'. split; [reflexivity|]. split; [exact R|].
  destruct (C2_release_pushes_one_checkpoint fresh (quiet 100)
              (world_of plain_track) eq_refl) as [_ G].
  destruct (G (mouse 50 50 false false) (quiet 100)
              [(mouse 60 40 false false, quiet 100);
               (mouse 70 30 false false, quiet 100)]
              rs this' w' E) as (Hi & Ptr & _).
  - rewrite R. repeat constructor.
  - split; [exact Hi|exact Ptr].
Defined.

(** Under an envelope of scale 1/2 the displayed level 0.5 becomes 1. *)
Lemma level_under_half_scale :
  exists level,
    FindSampleEditingLevel armed (mkMouse 60 25 false false) (view 100) 1
      (world_of (flat_track true (1 # 2) 0 1))
    = Some (level, world_of (flat_track true (1 # 2) 0 1))
    /\ level == 1.
Proof.
  destruct (FindSampleEditingLevel_level armed (mkMouse 60 25 false false)
              (view 100) 1 (world_of (flat_track true (1 # 2) 0 1)) 0%nat
              eq_refl) as (level & E & C).
  exists level. split; [exact E|].
  simpl in C. destruct C as [C _]. rewrite C. reflexivity.
Qed.

(** C5 at work: two draw edits whose level is not the corrected level.
    Where the track has no clip there is no envelope, and with the track
    shown between -2 and 2 a click near the top of the cell writes the
    displayed level 1.6 as it is; the correction with scale 1 clamps it to
    1: [FindSampleEditingLevel] reaches its clamp, "make sure the new level
    is between +/-1", only under an envelope.  And a drag from pixel 50 to
    pixel 150 under an envelope of scale 1 before time 1 and 1/2 after it
    writes and keeps, at the time 1.5 of the edit, the displayed level 0.5
    divided by the scale at 0.5, the time of the last drag pixel; the
    correction by the scale at the time of the edit gives 1. *)
Lemma C5_level_not_corrected :
  (exists t level this' w',
      Click fresh (mouse 50 10 false false) (quiet 100) (world_of tall_track)
      = Some (RefreshCell, this', w')
      /\ written (tracks w' 0%nat) = [WriteOne t 0%Z level int16Sample]
      /\ mLastDragSampleValue this' = level
      /\ envelope_at tall_track t = None
      /\ level
         == ValueOfPixel (10 - y cell) (height cell) false false 60 (-2) 2
      /\ Spec.applyEnvelopeCorrection level 1 == 1
      /\ 1 < level)
  /\ (exists this' w' start finish producer env displayedLevel,
         Drag armed (mouse 150 25 false false) (quiet 100)
           (world_of stepped_track)
         = Some (RefreshCell, this', w')
         /\ written (tracks w' 0%nat)
            = [WriteRange start finish 0%Z producer int16Sample]
         /\ finish == PositionToTime (view 100) 150 0
         /\ displayedLevel
            = ValueOfPixel (25 - y cell) (height cell) false false 60 (-1) 1
         /\ envelope_at stepped_track (PositionToTime (view 100) 150 0)
            = Some env
         /\ GetValue env finish == 1 # 2
         /\ GetValue env (PositionToTime (view 100) (mLastDragPixel armed) 0)
            == 1
         /\ Spec.applyEnvelopeCorrection displayedLevel (GetValue env finish)
            == 1
         /\ producer finish == 1 # 2
         /\ mLastDragSampleValue this' == 1 # 2
         /\ producer finish
            < Spec.applyEnvelopeCorrection displayedLevel
                (GetValue env finish)).
Proof.
  split.
  - do 4 eexists. split; [vm_compute; reflexivity|].
    split; [reflexivity|]. split; [reflexivity|]. split; [reflexivity|].
    split; [reflexivity|]. split; reflexivity.
  - do 7 eexists. split; [vm_compute; reflexivity|].
    split; [reflexivity|]. split; [reflexivity|]. split; [reflexivity|].
    split; [reflexivity|].
    repeat split; reflexivity.
Qed.

(** C7, as the code has it, on a drag from pixel 50 to pixel 150 with the
    control key held. *)
Lemma C7_witness :
  exists newLevel this' w',
    Drag armed (mouse 150 25 false true) (quiet 100) (world_of stepped_track)
    = Some (RefreshCell, this', w')
    /\ tracks w' 0%nat
       = SetFloatsWithinTimeRange stepped_track
           (Qmin (PositionToTime (view 100) 50 0)
                 (PositionToTime (view 100) 150 0))
           (Qmax (PositionToTime (view 100) 50 0)
                 (PositionToTime (view 100) 150 0))
           0%Z
           (interpolator (PositionToTime (view 100) 50 0)
              (PositionToTime (view 100) 150 0) 0 newLevel)
           narrowestSampleFormat
    /\ history w' = []
    /\ messages w' = []
    /\ mLastDragPixel this' = 50%Z
    /\ mLastDragSampleValue this' = newLevel.
Proof.
  pose proof (C7_drag_drawing armed (mouse 150 25 false true) (quiet 100)
                (world_of stepped_track) 0%nat (15 # 10)) as G.
  cbv zeta in G.
  destruct G
    as (newLevel & this' & w' & _ & D & Tr & _ & Hi & Ms & Px & Lv & _);
    try reflexivity.
  exists newLevel, this', w'. rewrite Tr. repeat split; assumption.
Defined.

(** C7 as stated fails on that drag.  The envelope has scale 1 at [t0 = 0.5]
    and 1/2 at [t1 = 1.5]: the level at [t1] is 1, the level the drag writes
    at [t1] and keeps is 0.5.  And with the control key held the endpoint
    pixel is the start pixel 50, whose time is 0.5, yet the write runs on to
    1.5, the time of the cursor. *)
Lemma C7_counterexample :
  exists this' w' start finish producer level_at_t1,
    Drag armed (mouse 150 25 false true) (quiet 100) (world_of stepped_track)
    = Some (RefreshCell, this', w')
    /\ written (tracks w' 0%nat)
       = [WriteRange start finish 0%Z producer int16Sample]
    /\ FindSampleEditingLevel armed (mkMouse 150 25 false true) (view 100)
         (PositionToTime (view 100) 150 0) (world_of stepped_track)
       = Some (level_at_t1, world_of stepped_track)
    /\ level_at_t1 == 1
    /\ mLastDragSampleValue this' < level_at_t1
    /\ producer finish < level_at_t1
    /\ mLastDragPixel this' = mClickedStartPixel armed
    /\ start == PositionToTime (view 100) (mLastDragPixel this') 0
    /\ finish == PositionToTime (view 100) 150 0
    /\ PositionToTime (view 100) (mLastDragPixel this') 0 < finish.
Proof.
  do 6 eexists. split; [vm_compute; reflexivity|].
  split; [reflexivity|]. split; [vm_compute; reflexivity|].
  repeat split; reflexivity.
Defined.

(** C10 on a pointer 9 pixels below the sample, and on one 10 pixels below. *)
Lemma C10_witness :
  HitTest (mkMouse 100 59 false false) cell (quiet 100) (Some 0%nat)
    (world_of plain_track)
  = Some (Some (HitAnywhere (Some 0%nat)), world_of plain_track)
  /\ HitTest (mkMouse 100 60 false false) cell (quiet 100) (Some 0%nat)
       (world_of plain_track)
     = Some (None, world_of plain_track).
Proof.
  split.
  - pose proof (C10_hit_test (mkMouse 100 59 false false) cell (quiet 100)
                  0%nat (world_of plain_track) (10 # 10)) as G.
    cbv zeta in G. destruct G as (_ & _ & G & _); [reflexivity|].
    destruct G as [_ S]; [reflexivity|].
    destruct (S 0) as [_ Near]; [reflexivity|].
    apply Near. vm_compute. reflexivity.
  - pose proof (C10_hit_test (mkMouse 100 60 false false) cell (quiet 100)
                  0%nat (world_of plain_track) (10 # 10)) as G.
    cbv zeta in G. destruct G as (_ & _ & G & _); [reflexivity|].
    destruct G as [_ S]; [reflexivity|].
    destruct (S 0) as [Far _]; [reflexivity|].
    apply Far. vm_compute. discriminate.
Defined.

(** The stroke goes through on every track that has the clip of
    [plain_track] at every time, whatever else it holds: the writes do not
    touch the clips, and at 100 pixels per second the 10 samples per second
    of the clip can be seen. *)
Lemma stroke_goes_through_on_clip (w : World Track) :
  clip_at (tracks w 0%nat) = clip_at plain_track ->
  exists rs this' w',
    deliver_all fresh stroke w = Some (rs, this', w')
    /\ Forall (fun r => cancelled r = false) rs
    /\ mClickedTrack this' = None
    /\ history w'
       = history w
         ++ [PushState "Moved Samples" "Sample Edit" UndoPush_CONSOLIDATE].
Proof.
  intro I.
  assert (forall px py,
             In px [50; 60; 70]%Z ->
             samples_visible (fun tr => clip_at tr = clip_at plain_track)
               (view 100) (mkMouse px py false false) cell) as V.
  { intros px py B wt Iwt.
    unfold adjustTime, SampleResolutionTest.
    cbn [GetClipAtTime track_api]. rewrite Iwt.
    simpl in B.
    repeat (destruct B as [<-|B];
            [eexists; split; [reflexivity | vm_compute; reflexivity]|]).
    contradiction. }
  apply (stroke_goes_through (fun tr => clip_at tr = clip_at plain_track)
           fresh 0%nat w (mouse 50 50 false false) (quiet 100) (quiet 100)
           [(mouse 60 40 false false, quiet 100);
            (mouse 70 30 false false, quiet 100)]).
  - repeat split; intros; assumption.
  - exact I.
  - reflexivity.
  - reflexivity.
  - apply V. simpl. tauto.
  - repeat constructor; apply V; simpl; tauto.
  - reflexivity.
Qed.

(** C3 at work.  After [Release] has cleared the pointer, a further [Drag]
    on the handle is not turned away: [IsSampleEditingPossible] is called
    with the null pointer and [adjustTime] dereferences it.  A further
    [Click] does the same.  A second [Release] pushes a second state. *)
Lemma C3_drag_after_release_faults :
  exists released w1,
    Release armed (quiet 100) (world_of plain_track)
    = Some (RefreshNone, released, w1)
    /\ mClickedTrack released = None
    /\ Drag released (mouse 60 40 false false) (quiet 100) w1 = None
    /\ Click released (mouse 60 40 false false) (quiet 100) w1 = None
    /\ exists w2,
         Release released (quiet 100) w1 = Some (RefreshNone, released, w2)
         /\ history w2
            = [PushState "Moved Samples" "Sample Edit" UndoPush_CONSOLIDATE;
               PushState "Moved Samples" "Sample Edit" UndoPush_CONSOLIDATE].
Proof.
  exists (set_mClickedTrack armed None).
  exists (mkWorld (tracks (world_of plain_track))
            [PushState "Moved Samples" "Sample Edit" UndoPush_CONSOLIDATE] []).
  split; [reflexivity|]. split; [reflexivity|].
  split; [apply Drag_null; reflexivity|].
  split; [apply Click_null; reflexivity|].
  eexists. split; [rewrite Release_run|]; reflexivity.
Qed.

(** C9, as the code has it, on a read truncated at the start of a clip: the
    value written for the brush point of the click, whose sample was read,
    lies in [[-1, 1]]. *)
Lemma C9_witness :
  -1 <= nth 5 (smoothed_values truncated_window truncated_range) 0 <= 1.
Proof.
  destruct (C9_smoothing_bound truncated_window truncated_range)
    as (_ & B & _).
  - intros i _ R. unfold truncated_window.
    destruct (Z.eqb_spec i 7) as [->|_]; [simpl in R; lia|]. lra.
  - apply (B 0%Z); simpl; [tauto|lia].
Defined.

(** C9 as stated fails.  A read truncated at the start of a clip supplies
    the entries 8..16 only; they are all 0 here, and entry 7 of the buffer
    holds 100.  The sums skip entry 7, the mix of brush point -1 does not:
    the value written for it is 44. *)
Lemma C9_counterexample :
  (forall i, inRange truncated_range i = true ->
             -1 <= truncated_window i <= 1)
  /\ inRange truncated_range 7 = false
  /\ nth 4 (smoothed_values truncated_window truncated_range) 0 == 44
  /\ 1 < nth 4 (smoothed_values truncated_window truncated_range) 0
  /\ exists t values this' w',
       Click fresh (mouse 50 50 true false) (quiet 100) (world_of edge_track)
       = Some (RefreshCell, this', w')
       /\ written (tracks w' 0%nat) = [WriteAround t 0%Z values 5 int16Sample]
       /\ 1 < nth 4 values 0.
Proof.
  split.
  - intros i R. unfold truncated_window.
    destruct (Z.eqb_spec i 7) as [->|_]; [discriminate|]. lra.
  - split; [reflexivity|]. split; [reflexivity|]. split; [reflexivity|].
    do 4 eexists. split; [vm_compute; reflexivity|].
    split; reflexivity.
Qed.

End Examples.

(** * Further properties of the code *)

(** ** The line of a drag segment *)

(** The gradient times the width of the segment is the rise. *)
Lemma gradient_rise (t0 t1 v0 v1 : Q) :
  ~ t0 == t1 -> (v1 - v0) / (t1 - t0) * (t1 - t0) == v1 - v0.
Proof. intro D. field. intro Z. apply D. lra. Qed.

(** The value before the clamp, at a point given by its share [k] of the
    way from [t0] to [t1]. *)
Lemma line_at_share (t0 t1 v0 v1 t k : Q) :
  ~ t0 == t1 -> t - t0 == k * (t1 - t0) ->
  (v1 - v0) / (t1 - t0) * (t - t0) + v0 == v0 + k * (v1 - v0).
Proof.
  intros D K. rewrite K.
  setoid_replace ((v1 - v0) / (t1 - t0) * (k * (t1 - t0)))
    with (k * ((v1 - v0) / (t1 - t0) * (t1 - t0))) by ring.
  rewrite (gradient_rise _ _ _ _ D). ring.
Qed.

Lemma share_of_way (t0 t1 t : Q) :
  ~ t0 == t1 -> t - t0 == (t - t0) / (t1 - t0) * (t1 - t0).
Proof. intro D. field. intro Z. apply D. lra. Qed.

(** The interpolator, by the share of the way: the share is cut to
    [[0, 1]]. *)
Lemma interpolator_by_share (t0 t1 v0 v1 t : Q) :
  ~ t0 == t1 ->
  let k := (t - t0) / (t1 - t0) in
  (k <= 0 -> interpolator t0 t1 v0 v1 t == v0)
  /\ (0 <= k <= 1 -> interpolator t0 t1 v0 v1 t == v0 + k * (v1 - v0))
  /\ (1 <= k -> interpolator t0 t1 v0 v1 t == v1).
Proof.
  intros D k.
  pose proof (line_at_share t0 t1 v0 v1 t k D (share_of_way t0 t1 t D)) as L.
  unfold interpolator. apply NumFacts.eqb_neq in D. rewrite D.
  cbv zeta. unfold Num.std_clamp, Num.std_min, Num.std_max.
  set (value := (v1 - v0) / (t1 - t0) * (t - t0) + v0) in *.
  repeat split; intro B;
    destruct (Num.ltb v1 v0) eqn:E1; destruct (Num.ltb v0 v1) eqn:E2;
    try apply NumFacts.ltb_lt in E1; try apply NumFacts.ltb_lt in E2;
    try apply NumFacts.ltb_ge in E1; try apply NumFacts.ltb_ge in E2;
    try lra;
    match goal with
    | |- context [Num.ltb value ?lo] =>
        destruct (Num.ltb value lo) eqn:E3;
        [apply NumFacts.ltb_lt in E3 | apply NumFacts.ltb_ge in E3]
    end;
    try match goal with
    | |- context [Num.ltb ?hi value] =>
        destruct (Num.ltb hi value) eqn:E4;
        [apply NumFacts.ltb_lt in E4 | apply NumFacts.ltb_ge in E4]
    end;
    nra.
Qed.

(** The interpolator passes through its first anchor when the two times
    differ: there the line adds nothing to [v0]. *)
Lemma interpolator_start (t0 t1 v0 v1 : Q) :
  ~ t0 == t1 -> interpolator t0 t1 v0 v1 t0 == v0.
Proof.
  intro D.
  destruct (interpolator_by_share t0 t1 v0 v1 t0 D) as (Lo & _).
  apply Lo.
  assert ((t0 - t0) / (t1 - t0) == 0) as K
    by (field; intro Z; apply D; lra).
  rewrite K. apply Qle_refl.
Qed.

(** X1. A drag segment holds its first level up to its first anchor: when
    the two times differ, the interpolator is [v0] at the first anchor and
    everywhere on the side of it away from the second anchor, whichever way
    the drag goes. *)
Theorem interpolator_holds_first_level (t0 t1 v0 v1 t : Q) :
  ~ t0 == t1 ->
  interpolator t0 t1 v0 v1 t0 == v0
  /\ (t0 < t1 -> t <= t0 -> interpolator t0 t1 v0 v1 t == v0)
  /\ (t1 < t0 -> t0 <= t -> interpolator t0 t1 v0 v1 t == v0).
Proof.
  intro D. split; [apply interpolator_start; exact D|].
  destruct (interpolator_by_share t0 t1 v0 v1 t D) as (Lo & _).
  pose proof (share_of_way t0 t1 t D) as K.
  set (k := (t - t0) / (t1 - t0)) in *.
  split; intros L B; apply Lo; nra.
Qed.

(** X3. Along a segment taken in the order of time the interpolator is
    monotone: it never decreases when the second level is the higher one,
    and never increases when it is the lower one. *)
Theorem interpolator_monotone (t0 t1 v0 v1 t t' : Q) :
  t0 < t1 -> t <= t' ->
  (v0 <= v1 -> interpolator t0 t1 v0 v1 t <= interpolator t0 t1 v0 v1 t')
  /\ (v1 <= v0 -> interpolator t0 t1 v0 v1 t' <= interpolator t0 t1 v0 v1 t).
Proof.
  intros L O. assert (~ t0 == t1) as D by lra.
  destruct (interpolator_by_share t0 t1 v0 v1 t D) as (Lo & Mid & Hi).
  destruct (interpolator_by_share t0 t1 v0 v1 t' D) as (Lo' & Mid' & Hi').
  cbv zeta in *.
  pose proof (share_of_way t0 t1 t D) as K.
  pose proof (share_of_way t0 t1 t' D) as K'.
  set (k := (t - t0) / (t1 - t0)) in *.
  set (k' := (t' - t0) / (t1 - t0)) in *.
  assert (k <= k') as Ok by nra.
  split; intro V.
  - destruct (Qlt_le_dec k 0) as [B|B];
      [rewrite Lo by lra | destruct (Qlt_le_dec 1 k) as [B1|B1];
                           [rewrite Hi by lra | rewrite Mid by lra]];
      (destruct (Qlt_le_dec k' 0) as [C|C];
       [rewrite Lo' by lra | destruct (Qlt_le_dec 1 k') as [C1|C1];
                             [rewrite Hi' by lra | rewrite Mid' by lra]]);
      nra.
  - destruct (Qlt_le_dec k 0) as [B|B];
      [rewrite Lo by lra | destruct (Qlt_le_dec 1 k) as [B1|B1];
                           [rewrite Hi by lra | rewrite Mid by lra]];
      (destruct (Qlt_le_dec k' 0) as [C|C];
       [rewrite Lo' by lra | destruct (Qlt_le_dec 1 k') as [C1|C1];
                             [rewrite Hi' by lra | rewrite Mid' by lra]]);
      nra.
Qed.

(** ** The two loops of the brush *)

Lemma entries_by_brush_point (a : Floats) :
  entries a (Z.to_nat (1 + 2 * SMOOTHING_BRUSH_RADIUS))
  = map (fun jj => a (jj + SMOOTHING_BRUSH_RADIUS)%Z) brush_offsets.
Proof. reflexivity. Qed.

(** X4. What [newSampleRegion] held when it was allocated does not reach
    the values written: the first loop stores every one of the 11 entries
    before the second loop reads it. *)
Theorem smoothing_ignores_allocation (sampleRegion : Floats) (range : Z * Z)
    (allocated allocated' : Floats) :
  entries (smoothed sampleRegion range allocated)
    (Z.to_nat (1 + 2 * SMOOTHING_BRUSH_RADIUS))
  = entries (smoothed sampleRegion range allocated')
      (Z.to_nat (1 + 2 * SMOOTHING_BRUSH_RADIUS)).
Proof.
  rewrite !entries_by_brush_point. apply map_ext_in. intros jj J.
  rewrite !(smoothed_entry _ _ _ _ J). reflexivity.
Qed.

Lemma kernel_fold_agree (s1 s2 : Floats) (range : Z * Z) (jj : Z)
    (l : list Z) :
  (forall ii, In ii l ->
              s1 (sampleRegionIndex ii jj) = s2 (sampleRegionIndex ii jj)) ->
  forall acc : Q,
    fold_left (kernel_step s1 range jj) l acc
    = fold_left (kernel_step s2 range jj) l acc.
Proof.
  induction l as [|ii l IH]; intros A acc; simpl; [reflexivity|].
  unfold kernel_step at 2 4. rewrite (A ii (or_introl eq_refl)).
  apply IH. intros k I. apply A. right. exact I.
Qed.

(** X6. The value written for a brush point depends on the window only
    through the 7 entries within the kernel radius of its own sample: two
    windows that agree there give the same value, whatever the click did to
    the rest. *)
Theorem smoothing_is_local (s1 s2 : Floats) (range : Z * Z) (jj : Z) :
  In jj brush_offsets ->
  (forall i,
      (SMOOTHING_BRUSH_RADIUS + jj
       <= i
       <= SMOOTHING_BRUSH_RADIUS + 2 * SMOOTHING_KERNEL_RADIUS + jj)%Z ->
      s1 i = s2 i) ->
  nth (Z.to_nat (jj + SMOOTHING_BRUSH_RADIUS)) (smoothed_values s1 range) 0
  = nth (Z.to_nat (jj + SMOOTHING_BRUSH_RADIUS)) (smoothed_values s2 range) 0.
Proof.
  intros J A. rewrite !(smoothed_values_nth _ _ _ J).
  rewrite !(smoothed_entry _ _ _ _ J). unfold sumOfSamples.
  rewrite (kernel_fold_agree s1 s2 range jj kernel_offsets).
  - rewrite (A (SMOOTHING_BRUSH_RADIUS + SMOOTHING_KERNEL_RADIUS + jj)%Z).
    + reflexivity.
    + unfold SMOOTHING_KERNEL_RADIUS, SMOOTHING_BRUSH_RADIUS. lia.
  - intros ii I. apply A.
    assert (-3 <= ii <= 3)%Z as Bi.
    { simpl in I. repeat (destruct I as [<-|I]; [lia|]). contradiction. }
    unfold sampleRegionIndex, SMOOTHING_KERNEL_RADIUS, SMOOTHING_BRUSH_RADIUS.
    lia.
Qed.

(** The inner loop keeps order. *)
Lemma kernel_fold_monotone (s1 s2 : Floats) (range : Z * Z) (jj : Z)
    (l : list Z) :
  (forall ii, In ii l -> 0 <= weighting_factor ii) ->
  (forall ii, In ii l -> inRange range (sampleRegionIndex ii jj) = true ->
              s1 (sampleRegionIndex ii jj) <= s2 (sampleRegionIndex ii jj)) ->
  forall acc1 acc2 : Q,
    acc1 <= acc2 ->
    fold_left (kernel_step s1 range jj) l acc1
    <= fold_left (kernel_step s2 range jj) l acc2.
Proof.
  induction l as [|ii l IH]; intros W S acc1 acc2 A; simpl; [exact A|].
  apply IH.
  - intros k I. apply W. right. exact I.
  - intros k I. apply S. right. exact I.
  - unfold kernel_step.
    pose proof (W ii (or_introl eq_refl)) as Wi.
    destruct (inRange range (sampleRegionIndex ii jj)) eqn:R; simpl;
      [|exact A].
    pose proof (S ii (or_introl eq_refl) R) as Si. nra.
Qed.

(** X7. The brush keeps order: of two windows read with the same range, if
    the one is nowhere above the other on the samples that were read within
    the kernel radius of a brush point, and at the sample of the brush point
    itself, then the value written for that point is not above the other's
    either.  So the brush never carries a signal past zero: samples that
    are all at or above zero give a value at or above zero. *)
Theorem smoothing_keeps_order (s1 s2 : Floats) (range : Z * Z) (jj : Z) :
  In jj brush_offsets ->
  ((forall i,
       (SMOOTHING_BRUSH_RADIUS + jj
        <= i
        <= SMOOTHING_BRUSH_RADIUS + 2 * SMOOTHING_KERNEL_RADIUS + jj)%Z ->
       (fst range <= i < snd range)%Z ->
       s1 i <= s2 i) ->
   s1 (SMOOTHING_BRUSH_RADIUS + SMOOTHING_KERNEL_RADIUS + jj)%Z
   <= s2 (SMOOTHING_BRUSH_RADIUS + SMOOTHING_KERNEL_RADIUS + jj)%Z ->
   nth (Z.to_nat (jj + SMOOTHING_BRUSH_RADIUS)) (smoothed_values s1 range) 0
   <= nth (Z.to_nat (jj + SMOOTHING_BRUSH_RADIUS)) (smoothed_values s2 range)
        0)
  /\ ((forall i,
          (SMOOTHING_BRUSH_RADIUS + jj
           <= i
           <= SMOOTHING_BRUSH_RADIUS + 2 * SMOOTHING_KERNEL_RADIUS + jj)%Z ->
          (fst range <= i < snd range)%Z ->
          0 <= s2 i) ->
      0 <= s2 (SMOOTHING_BRUSH_RADIUS + SMOOTHING_KERNEL_RADIUS + jj)%Z ->
      0 <= nth (Z.to_nat (jj + SMOOTHING_BRUSH_RADIUS))
             (smoothed_values s2 range) 0).
Proof.
  intro J.
  assert (forall a b : Floats,
             (forall i,
                 (SMOOTHING_BRUSH_RADIUS + jj
                  <= i
                  <= SMOOTHING_BRUSH_RADIUS + 2 * SMOOTHING_KERNEL_RADIUS
                     + jj)%Z ->
                 (fst range <= i < snd range)%Z ->
                 a i <= b i) ->
             a (SMOOTHING_BRUSH_RADIUS + SMOOTHING_KERNEL_RADIUS + jj)%Z
             <= b (SMOOTHING_BRUSH_RADIUS + SMOOTHING_KERNEL_RADIUS + jj)%Z ->
             nth (Z.to_nat (jj + SMOOTHING_BRUSH_RADIUS))
               (smoothed_values a range) 0
             <= nth (Z.to_nat (jj + SMOOTHING_BRUSH_RADIUS))
                  (smoothed_values b range) 0) as Mono.
  { intros a b S O. rewrite !(smoothed_values_nth _ _ _ J).
    rewrite !(smoothed_entry _ _ _ _ J). unfold sumOfSamples.
    assert (fold_left (kernel_step a range jj) kernel_offsets 0
            <= fold_left (kernel_step b range jj) kernel_offsets 0) as F.
    { apply kernel_fold_monotone.
      - apply weighting_factor_kernel.
      - intros ii I R.
        pose proof (sampleRegionIndex_in_buffer ii jj I J) as B.
        apply S; [|apply inRange_spec; assumption].
        assert (-3 <= ii <= 3)%Z as Bi.
        { simpl in I. repeat (destruct I as [<-|I]; [lia|]). contradiction. }
        unfold sampleRegionIndex, SMOOTHING_KERNEL_RADIUS,
          SMOOTHING_BRUSH_RADIUS.
        lia.
      - apply Qle_refl. }
    pose proof (prob_unit jj J) as P.
    change (inject_Z ((SMOOTHING_KERNEL_RADIUS + 1)
                      * (SMOOTHING_KERNEL_RADIUS + 1))) with 16.
    set (fa := fold_left (kernel_step a range jj) kernel_offsets 0) in *.
    set (fb := fold_left (kernel_step b range jj) kernel_offsets 0) in *.
    set (p := prob jj) in *.
    assert (fa / 16 == fa * (1 # 16)) as Ea by (unfold Qdiv; reflexivity).
    assert (fb / 16 == fb * (1 # 16)) as Eb by (unfold Qdiv; reflexivity).
    rewrite Ea, Eb. nra. }
  split; [apply Mono|].
  intros S O.
  assert (nth (Z.to_nat (jj + SMOOTHING_BRUSH_RADIUS))
            (smoothed_values (fun _ => 0) range) 0 == 0) as Z0.
  { rewrite (smoothed_values_nth _ _ _ J), (smoothed_entry _ _ _ _ J).
    unfold sumOfSamples.
    rewrite (kernel_fold_constant (fun _ => 0) range jj 0)
      by (intros; reflexivity).
    change (inject_Z ((SMOOTHING_KERNEL_RADIUS + 1)
                      * (SMOOTHING_KERNEL_RADIUS + 1))) with 16.
    field. }
  apply Qle_trans
    with (nth (Z.to_nat (jj + SMOOTHING_BRUSH_RADIUS))
            (smoothed_values (fun _ => 0) range) 0).
  - rewrite Z0. apply Qle_refl.
  - apply Mono; [intros i B R; apply S; assumption|exact O].
Qed.

(** X8. Every index the two loops use lies inside its buffer: the index
    into the 17 entries of [sampleRegion], in the sums and in the mix, and
    the index into the 11 entries of [newSampleRegion]; so the conversion to
    [size_t] in the test of the range changes no index. *)
Theorem brush_indices_in_bounds (ii jj : Z) :
  In ii kernel_offsets -> In jj brush_offsets ->
  (0 <= sampleRegionIndex ii jj
   < 1 + 2 * (SMOOTHING_KERNEL_RADIUS + SMOOTHING_BRUSH_RADIUS))%Z
  /\ Num.to_size_t (sampleRegionIndex ii jj) = sampleRegionIndex ii jj
  /\ (0 <= SMOOTHING_BRUSH_RADIUS + SMOOTHING_KERNEL_RADIUS + jj
      < 1 + 2 * (SMOOTHING_KERNEL_RADIUS + SMOOTHING_BRUSH_RADIUS))%Z
  /\ (0 <= jj + SMOOTHING_BRUSH_RADIUS < 1 + 2 * SMOOTHING_BRUSH_RADIUS)%Z.
Proof.
  intros I J.
  pose proof (sampleRegionIndex_in_buffer ii jj I J) as B.
  pose proof (brush_offset_bounds jj J) as Bj.
  unfold SMOOTHING_KERNEL_RADIUS, SMOOTHING_BRUSH_RADIUS in *.
  repeat split; try lia.
  apply NumFacts.to_size_t_small. lia.
Qed.

(** ** The methods, case by case *)

Section Gestures.

Context {T : Type} `{WaveTrackAPI T} `{TrackArt}.

(** The members of a handle after the setters, and the parts of a world. *)
Ltac members :=
  cbn [mClickedTrack mRect mClickedStartPixel mLastDragPixel
       mLastDragSampleValue mAltKey set_mClickedTrack set_mRect
       set_mClickedStartPixel set_mLastDragPixel set_mLastDragSampleValue
       set_mAltKey tracks history messages cancelled refreshCell fst snd].

(** The ways [Click] returns. *)
Lemma Click_cases (this this' : SampleHandle) (evt : TrackPanelMouseEvent)
    (pProject : AudacityProject) (w w' : World T) (r : Result) :
  Click this evt pProject w = Some (r, this', w') ->
  let t0 :=
    PositionToTime (viewInfo pProject) (m_x (event evt)) (x (rect evt)) in
  (r = Cancelled /\ this' = this
   /\ (w' = w
       \/ (IsAudioActive pProject = false
           /\ w' = mkWorld (tracks w) (history w)
                     (messages w ++ [draw_tool_message]))))
  \/ (r = RefreshCell
      /\ IsAudioActive pProject = false
      /\ history w' = history w
      /\ messages w' = messages w
      /\ mRect this' = rect evt
      /\ mClickedStartPixel this'
         = Num.to_int (TimeToPosition (viewInfo pProject) t0 0)
      /\ mLastDragPixel this' = mClickedStartPixel this'
      /\ mAltKey this' = m_altDown (event evt)
      /\ exists id,
          mClickedTrack this = Some id
          /\ mClickedTrack this' = Some id
          /\ (forall other, other <> id -> tracks w' other = tracks w other)
          /\ if m_altDown (event evt) then
               mLastDragSampleValue this' = mLastDragSampleValue this
               /\ exists sampleRegion sampleRegionRange,
                   GetFloatsCenteredAroundTime (tracks w id) t0 0%Z
                     (SMOOTHING_KERNEL_RADIUS + SMOOTHING_BRUSH_RADIUS)%Z false
                   = (sampleRegion, sampleRegionRange)
                   /\ tracks w' id
                      = SetFloatsCenteredAroundTime (tracks w id) t0 0%Z
                          (smoothed_values sampleRegion sampleRegionRange)
                          SMOOTHING_BRUSH_RADIUS narrowestSampleFormat
             else
               FindSampleEditingLevel this' (event evt) (viewInfo pProject)
                 t0 w
               = Some (mLastDragSampleValue this', w)
               /\ tracks w' id
                  = SetFloatAtTime (tracks w id) t0 0%Z
                      (mLastDragSampleValue this') narrowestSampleFormat).
Proof.
  rewrite Click_run. intros E t0.
  destruct (IsAudioActive pProject) eqn:A.
  { injection E as <- <- <-. left. auto. }
  destruct (IsSampleEditingPossible _ _ _ _ _ w) as [[[|] w1]|] eqn:P;
    [| |discriminate].
  - right.
    apply IsSampleEditingPossible_effect in P.
    destruct P as (_ & _ & Same & _). specialize (Same eq_refl). subst w1.
    cbv zeta in E. fold t0 in E.
    destruct (m_altDown (event evt)).
    + destruct (mClickedTrack this) as [id|] eqn:Ptr; [|discriminate].
      destruct (write _ _ w) as [[u w2]|] eqn:W; [|discriminate].
      apply write_effect in W.
      destruct W as (Hi & Ms & id' & Eid & Tr & Others).
      injection Eid as <-.
      injection E as <- <- <-. members.
      repeat (split; [first [reflexivity | assumption]|]).
      exists id. rewrite Ptr.
      repeat (split; [first [reflexivity | assumption]|]).
      exists (fst (GetFloatsCenteredAroundTime (tracks w id) t0 0%Z
                     (SMOOTHING_KERNEL_RADIUS + SMOOTHING_BRUSH_RADIUS)%Z
                     false)),
        (snd (GetFloatsCenteredAroundTime (tracks w id) t0 0%Z
                (SMOOTHING_KERNEL_RADIUS + SMOOTHING_BRUSH_RADIUS)%Z false)).
      split; [apply surjective_pairing | exact Tr].
    + destruct (FindSampleEditingLevel _ _ _ _ w) as [[newLevel w2]|] eqn:L;
        [|discriminate].
      pose proof L as L'. apply FindSampleEditingLevel_effect in L'.
      destruct L' as [-> _].
      destruct (write _ _ w) as [[u w3]|] eqn:W; [|discriminate].
      apply write_effect in W.
      destruct W as (Hi & Ms & id & Ptr & Tr & Others).
      injection E as <- <- <-. members.
      repeat (split; [first [reflexivity | assumption]|]).
      exists id.
      repeat (split; [first [reflexivity | assumption]|]).
      exact Tr.
  - left. rewrite IsSampleEditingPossible_run in P.
    destruct (adjustTime _ _) as [time|]; [|discriminate].
    destruct (SampleResolutionTest _ _ _ _) as [[|]|]; try discriminate.
    injection P as <-. injection E as <- <- <-.
    split; [reflexivity|]. split; [reflexivity|]. right.
    split; reflexivity.
Qed.

(** The ways [Drag] returns. *)
Lemma Drag_cases (this this' : SampleHandle) (evt : TrackPanelMouseEvent)
    (pProject : AudacityProject) (w w' : World T) (r : Result) :
  Drag this evt pProject w = Some (r, this', w') ->
  let t0 := PositionToTime (viewInfo pProject) (mLastDragPixel this) 0 in
  let t1 :=
    PositionToTime (viewInfo pProject) (m_x (event evt)) (x (mRect this)) in
  (r = result_or RefreshCell Cancelled
   /\ this' = set_mClickedTrack this None
   /\ tracks w' = tracks w
   /\ history w' = history w ++ [RollbackState]
   /\ ((messages w' = messages w /\ IsAudioActive pProject = true)
       \/ messages w' = messages w ++ [draw_tool_message]))
  \/ (r = RefreshNone /\ mAltKey this = true /\ this' = this /\ w' = w
      /\ IsAudioActive pProject = false)
  \/ (r = RefreshCell /\ mAltKey this = false
      /\ IsAudioActive pProject = false
      /\ history w' = history w
      /\ messages w' = messages w
      /\ this'
         = set_mLastDragSampleValue
             (set_mLastDragPixel this
                (if m_controlDown (event evt) then mClickedStartPixel this
                 else Num.to_int (TimeToPosition (viewInfo pProject) t1 0)))
             (mLastDragSampleValue this')
      /\ FindSampleEditingLevel this (event evt) (viewInfo pProject) t0 w
         = Some (mLastDragSampleValue this', w)
      /\ exists id,
          mClickedTrack this = Some id
          /\ (forall other, other <> id -> tracks w' other = tracks w other)
          /\ tracks w' id
             = SetFloatsWithinTimeRange (tracks w id) (Qmin t0 t1)
                 (Qmax t0 t1) 0%Z
                 (interpolator t0 t1 (mLastDragSampleValue this)
                    (mLastDragSampleValue this'))
                 narrowestSampleFormat).
Proof.
  rewrite Drag_run. intros E t0 t1.
  destruct (IsSampleEditingPossible _ _ _ _ _ w) as [[samplesVisible w1]|] eqn:P;
    [|discriminate].
  rewrite IsSampleEditingPossible_run in P.
  destruct (adjustTime _ _) as [time|]; [|discriminate].
  destruct (SampleResolutionTest _ _ _ _) as [[|]|]; try discriminate;
    injection P as <- <-.
  - destruct (IsAudioActive pProject) eqn:A; cbn [orb negb] in E.
    { injection E as <- <- <-. left. members. repeat split. left. auto. }
    right. destruct (mAltKey this) eqn:Alt.
    { injection E as <- <- <-. left. auto. }
    right. cbv zeta in E. fold t0 t1 in E.
    destruct (FindSampleEditingLevel _ _ _ _ w) as [[newLevel w2]|] eqn:L;
      [|discriminate].
    pose proof L as L'. apply FindSampleEditingLevel_effect in L'.
    destruct L' as [-> _].
    destruct (write _ _ w) as [[u w3]|] eqn:W; [|discriminate].
    apply write_effect in W.
    destruct W as (Hi & Ms & id & Ptr & Tr & Others).
    injection E as <- <- <-. members.
    repeat (split; [first [reflexivity | assumption]|]).
    exists id.
    repeat (split; [first [reflexivity | assumption]|]).
    rewrite <- NumFacts.std_min_Qmin, <- NumFacts.std_max_Qmax. exact Tr.
  - left. rewrite orb_true_r in E. injection E as <- <- <-. members.
    repeat split. right. reflexivity.
Qed.

(** The ways [HitTest] gives a handle. *)
Lemma HitTest_hit (state : wxMouseState) (rect : wxRect)
    (pProject : AudacityProject) (id : TrackId) (w w0 : World T)
    (h : SampleHandle) :
  HitTest state rect pProject (Some id) w = Some (Some h, w0) ->
  h = HitAnywhere (Some id)
  /\ w0 = w
  /\ exists tt,
      adjustTime (Some (tracks w id))
        (PositionToTime (viewInfo pProject) (m_x state) (x rect))
      = Some tt
      /\ SampleResolutionTest (viewInfo pProject) (Some (tracks w id)) tt
           (width rect)
         = Some true.
Proof.
  unfold HitTest. unfold bind at 1. unfold get at 1. cbn [option_map].
  unfold bind at 1.
  destruct (adjustTime _ _) as [tt|]; [|discriminate]. cbn [lift ret].
  unfold bind at 1.
  destruct (SampleResolutionTest _ _ tt _) as [[|]|] eqn:Res;
    try discriminate.
  cbn [lift ret negb]. unfold bind at 1. cbn [lift ret].
  destruct (GetFloatAtTime _ _ _ _) as [oneSample|]; [|discriminate].
  destruct (GetDisplayBounds _) as [zoomMin zoomMax].
  destruct (Z.abs _ >=? 10)%Z; [discriminate|].
  unfold ret. intro E. injection E as <- <-.
  split; [reflexivity|]. split; [reflexivity|].
  exists tt. split; [reflexivity|exact Res].
Qed.

(** X10. A [Click] with audio not active, on a view in which the samples
    cannot be told apart: the one message of the Draw tool is shown, the
    result is [Cancelled], and nothing else happens: no member of the handle
    is set, no sample is written, the history receives no call. *)
Theorem Click_rejected_by_zoom (this : SampleHandle)
    (evt : TrackPanelMouseEvent) (pProject : AudacityProject) (w : World T)
    (id : TrackId) (tt : Q) :
  IsAudioActive pProject = false ->
  mClickedTrack this = Some id ->
  adjustTime (Some (tracks w id))
    (PositionToTime (viewInfo pProject) (m_x (event evt)) (x (rect evt)))
  = Some tt ->
  SampleResolutionTest (viewInfo pProject) (Some (tracks w id)) tt
    (width (rect evt))
  = Some false ->
  Click this evt pProject w
  = Some (Cancelled, this,
          mkWorld (tracks w) (history w) (messages w ++ [draw_tool_message])).
Proof.
  intros A P Adj Res. rewrite Click_run, A, P. cbn [option_map].
  rewrite IsSampleEditingPossible_run, Adj, Res. reflexivity.
Qed.

(** X11. A [Drag] on a view in which the samples cannot be told apart ends
    the gesture, whether audio is active or not: the message of the Draw
    tool is shown once, the handle is left with its pointer to the track
    null and its other members as they were, the history is rolled back
    once, no sample is written, and the result carries both [RefreshCell]
    and [Cancelled]. *)
Theorem Drag_cancelled_by_zoom (this : SampleHandle)
    (evt : TrackPanelMouseEvent) (pProject : AudacityProject) (w : World T)
    (id : TrackId) (tt : Q) :
  mClickedTrack this = Some id ->
  adjustTime (Some (tracks w id))
    (PositionToTime (viewInfo pProject) (m_x (event evt)) (x (mRect this)))
  = Some tt ->
  SampleResolutionTest (viewInfo pProject) (Some (tracks w id)) tt
    (width (mRect this))
  = Some false ->
  exists this',
    Drag this evt pProject w
    = Some (mkResult true true, this',
            mkWorld (tracks w) (history w ++ [RollbackState])
              (messages w ++ [draw_tool_message]))
    /\ mClickedTrack this' = None
    /\ mRect this' = mRect this
    /\ mClickedStartPixel this' = mClickedStartPixel this
    /\ mLastDragPixel this' = mLastDragPixel this
    /\ mLastDragSampleValue this' = mLastDragSampleValue this
    /\ mAltKey this' = mAltKey this.
Proof.
  intros P Adj Res. exists (set_mClickedTrack this None).
  rewrite Drag_run, P. cbn [option_map].
  rewrite IsSampleEditingPossible_run, Adj, Res.
  rewrite orb_true_r. repeat split.
Qed.

(** X12. What a [Click] that is not cancelled leaves: the rectangle of the
    event, the pixel of the time of the click in both pixel members, the
    mode of the alt key; no call on the history, no message; no change to a
    track other than the clicked one, which received one write at the time
    of the click, not snapped.  In smoothing mode the write is the brush on
    the 17 samples read around that time, and the last level is left as it
    was.  In drawing mode it is one sample, at the level of the event in the
    rectangle just stored, which is the last level kept. *)
Theorem Click_arms_gesture (this this' : SampleHandle)
    (evt : TrackPanelMouseEvent) (pProject : AudacityProject)
    (w w' : World T) (r : Result) :
  Click this evt pProject w = Some (r, this', w') ->
  cancelled r = false ->
  let t0 :=
    PositionToTime (viewInfo pProject) (m_x (event evt)) (x (rect evt)) in
  r = RefreshCell
  /\ history w' = history w
  /\ messages w' = messages w
  /\ mRect this' = rect evt
  /\ mClickedStartPixel this'
     = Num.to_int (TimeToPosition (viewInfo pProject) t0 0)
  /\ mLastDragPixel this' = mClickedStartPixel this'
  /\ mAltKey this' = m_altDown (event evt)
  /\ exists id,
      mClickedTrack this = Some id
      /\ mClickedTrack this' = Some id
      /\ (forall other, other <> id -> tracks w' other = tracks w other)
      /\ if m_altDown (event evt) then
           mLastDragSampleValue this' = mLastDragSampleValue this
           /\ exists sampleRegion sampleRegionRange,
               GetFloatsCenteredAroundTime (tracks w id) t0 0%Z
                 (SMOOTHING_KERNEL_RADIUS + SMOOTHING_BRUSH_RADIUS)%Z false
               = (sampleRegion, sampleRegionRange)
               /\ tracks w' id
                  = SetFloatsCenteredAroundTime (tracks w id) t0 0%Z
                      (smoothed_values sampleRegion sampleRegionRange)
                      SMOOTHING_BRUSH_RADIUS narrowestSampleFormat
         else
           FindSampleEditingLevel this' (event evt) (viewInfo pProject) t0 w
           = Some (mLastDragSampleValue this', w)
           /\ tracks w' id
              = SetFloatAtTime (tracks w id) t0 0%Z
                  (mLastDragSampleValue this') narrowestSampleFormat.
Proof.
  intros C NC t0.
  destruct (Click_cases _ _ _ _ _ _ _ C) as [(-> & _)|(-> & _ & G)].
  - discriminate NC.
  - split; [reflexivity|]. exact G.
Qed.

(** One [Drag] in smoothing mode that is not cancelled. *)
Lemma Drag_smoothing (this this' : SampleHandle) (evt : TrackPanelMouseEvent)
    (pProject : AudacityProject) (w w' : World T) (r : Result) :
  mAltKey this = true ->
  Drag this evt pProject w = Some (r, this', w') ->
  cancelled r = false ->
  r = RefreshNone /\ this' = this /\ w' = w.
Proof.
  intros Alt D NC.
  destruct (Drag_cases _ _ _ _ _ _ _ D)
    as [(-> & _)|[(-> & _ & -> & -> & _)|(_ & Alt' & _)]].
  - discriminate NC.
  - auto.
  - congruence.
Qed.

(** X13. After a click in smoothing mode the drags of the gesture do
    nothing: as long as none is cancelled, however many there are and
    wherever they go, no sample is written, no member of the handle changes,
    and each asks for no refresh. *)
Theorem smoothing_drags_change_nothing
    (drags : list (TrackPanelMouseEvent * AudacityProject)) :
  forall (this this' : SampleHandle) (w w' : World T) (rs : list Result),
    mAltKey this = true ->
    deliver_all this (map (fun d => EvDrag (fst d) (snd d)) drags) w
    = Some (rs, this', w') ->
    Forall (fun r => cancelled r = false) rs ->
    this' = this /\ w' = w /\ rs = repeat RefreshNone (List.length drags).
Proof.
  induction drags as [|[evt p] drags IH]; intros this this' w w' rs Alt; simpl.
  - unfold ret. intro E. injection E as <- <- <-. auto.
  - unfold bind at 1.
    destruct (Drag this evt p w) as [[[r this1] w1]|] eqn:D; [|discriminate].
    unfold bind at 1. simpl snd.
    destruct (deliver_all this1 _ w1) as [[[rs1 this2] w2]|] eqn:R;
      [|discriminate].
    unfold ret. simpl. intro E. injection E as <- <- <-.
    intro F. inversion F as [|r0 rs0 Fr Frs]; subst.
    destruct (Drag_smoothing _ _ _ _ _ _ _ Alt D Fr) as (-> & -> & ->).
    destruct (IH _ _ _ _ _ Alt R Frs) as (-> & -> & ->).
    auto.
Qed.

(** X14. A handle that [HitTest] gives can be clicked: with audio not
    active, a [Click] with the same mouse state and rectangle, on the same
    state of the project, passes the resolution test, shows no message and
    returns [RefreshCell]. *)
Theorem Click_after_HitTest (state : wxMouseState) (area : wxRect)
    (pProject : AudacityProject) (id : TrackId) (w w0 : World T)
    (h : SampleHandle) :
  HitTest state area pProject (Some id) w = Some (Some h, w0) ->
  IsAudioActive pProject = false ->
  exists this' w',
    Click h (mkTPME state area) pProject w0 = Some (RefreshCell, this', w')
    /\ mClickedTrack this' = Some id
    /\ mRect this' = area
    /\ messages w' = messages w
    /\ history w' = history w.
Proof.
  intros Hit A.
  destruct (HitTest_hit _ _ _ _ _ _ _ Hit) as (-> & -> & tt & Adj & Res).
  rewrite Click_run, A. cbn [option_map HitAnywhere new_SampleHandle
                              mClickedTrack event rect].
  rewrite IsSampleEditingPossible_run, Adj, Res. cbv zeta.
  destruct (m_altDown state).
  - unfold write. do 2 eexists. split; [reflexivity|].
    members. repeat split.
  - match goal with
    | |- context [FindSampleEditingLevel ?h ?e ?v ?t w] =>
        destruct (FindSampleEditingLevel_returns h e v t w id eq_refl)
          as [newLevel ->]
    end.
    unfold write. do 2 eexists. split; [reflexivity|].
    members. repeat split.
Qed.

(** X15. The cursor of the preview tells what a click would do.  It is the
    disabled cursor exactly when audio is active, and then [Click] is
    rejected and changes nothing.  And for a [Click] that goes through, the
    cursor shown for the same mouse state is the brush when the gesture is
    in smoothing mode and the pencil when it is in drawing mode. *)
Theorem Preview_agrees_with_Click (this : SampleHandle)
    (evt : TrackPanelMouseEvent) (pProject : AudacityProject) (w : World T) :
  (preview_cursor (Preview (event evt) pProject) = disabledCursor
   <-> IsAudioActive pProject = true)
  /\ (preview_cursor (Preview (event evt) pProject) = disabledCursor ->
      Click this evt pProject w = Some (Cancelled, this, w))
  /\ (forall r this' w',
         Click this evt pProject w = Some (r, this', w') ->
         cancelled r = false ->
         preview_cursor (Preview (event evt) pProject)
         = if mAltKey this' then smoothCursor else pencilCursor).
Proof.
  unfold Preview, HitPreview. cbn [preview_cursor].
  split; [|split].
  - destruct (IsAudioActive pProject); [tauto|].
    split; [|discriminate].
    destruct (m_altDown (event evt)); discriminate.
  - rewrite Click_run. destruct (IsAudioActive pProject); [reflexivity|].
    destruct (m_altDown (event evt)); discriminate.
  - intros r this' w' C NC.
    destruct (Click_cases _ _ _ _ _ _ _ C)
      as [(-> & _)|(_ & -> & _ & _ & _ & _ & _ & -> & _)].
    + discriminate NC.
    + reflexivity.
Qed.

(** What one event leaves, whichever it is. *)
Lemma deliver_footprint (this this' : SampleHandle) (e : GestureEvent)
    (w w' : World T) (r : Result) :
  deliver this e w = Some (r, this', w') ->
  (mClickedTrack this' = mClickedTrack this \/ mClickedTrack this' = None)
  /\ (forall other,
         mClickedTrack this <> Some other -> tracks w' other = tracks w other)
  /\ (messages w' = messages w
      \/ (messages w' = messages w ++ [draw_tool_message]
          /\ cancelled r = true))
  /\ (history w' = history w
      /\ match e with
         | EvClick _ _ => True
         | EvDrag _ _ => cancelled r = false
         | EvRelease _ | EvCancel => False
         end
      \/ history w' = history w ++ [RollbackState]
         /\ match e with
            | EvClick _ _ => False
            | EvDrag _ _ => cancelled r = true
            | EvRelease p => IsAudioActive p = true
            | EvCancel => True
            end
      \/ history w'
         = history w
           ++ [PushState "Moved Samples" "Sample Edit" UndoPush_CONSOLIDATE]
         /\ match e with
            | EvRelease p => IsAudioActive p = false
            | _ => False
            end)
  /\ (match e with EvClick _ _ => True | _ => False end
      \/ (mRect this' = mRect this
          /\ mClickedStartPixel this' = mClickedStartPixel this
          /\ mAltKey this' = mAltKey this)).
Proof.
  destruct e as [evt p|evt p|p|]; simpl deliver; intro E.
  - destruct (Click_cases _ _ _ _ _ _ _ E)
      as [(-> & -> & [->|(_ & ->)])
         |(-> & _ & Hi & Ms & _ & _ & _ & _ & id & P & P' & Others & _)];
      members.
    + repeat split; auto.
    + repeat split; auto.
    + split; [left; congruence|]. split.
      * intros other D. apply Others. congruence.
      * repeat split; auto.
  - destruct (Drag_cases _ _ _ _ _ _ _ E)
      as [(-> & -> & Tr & Hi & Ms)
         |[(-> & _ & -> & -> & _)
          |(-> & _ & _ & Hi & Ms & -> & _ & id & P & Others & _)]]; members.
    + split; [right; reflexivity|]. split; [intros; congruence|].
      split; [destruct Ms as [[Ms _]|Ms]; auto|].
      split; [right; left; auto|]. right. auto.
    + repeat split; auto.
    + split; [left; reflexivity|]. split.
      * intros other D. apply Others. congruence.
      * repeat split; auto.
  - rewrite Release_run, Cancel_run in E.
    destruct (IsAudioActive p) eqn:A; injection E as <- <- <-; members;
      repeat split; auto.
  - rewrite Cancel_run in E. injection E as <- <- <-. members.
    repeat split; auto.
Qed.

(** X16. Whatever events a handle receives, in whatever order, it writes to
    no track but the one it was made for, and its pointer is never aimed at
    another track: it stays as it is or is cleared. *)
Theorem gesture_touches_one_track (es : list GestureEvent) :
  forall (this this' : SampleHandle) (w w' : World T) (rs : list Result),
    deliver_all this es w = Some (rs, this', w') ->
    (mClickedTrack this' = mClickedTrack this \/ mClickedTrack this' = None)
    /\ forall other,
        mClickedTrack this <> Some other -> tracks w' other = tracks w other.
Proof.
  induction es as [|e es IH]; intros this this' w w' rs; simpl.
  - unfold ret. intro E. injection E as <- <- <-. auto.
  - unfold bind at 1.
    destruct (deliver this e w) as [[[r this1] w1]|] eqn:D; [|discriminate].
    unfold bind at 1. simpl snd.
    destruct (deliver_all this1 es w1) as [[[rs1 this2] w2]|] eqn:R;
      [|discriminate].
    unfold ret. simpl. intro E. injection E as <- <- <-.
    destruct (deliver_footprint _ _ _ _ _ _ D) as (P1 & O1 & _).
    destruct (IH _ _ _ _ _ R) as (P2 & O2).
    split.
    + destruct P2 as [P2|P2]; [|right; exact P2].
      destruct P1 as [P1|P1]; [left|right]; congruence.
    + intros other N. rewrite O2.
      * apply O1. exact N.
      * destruct P1 as [P1|P1]; rewrite P1; [exact N|discriminate].
Qed.

(** X17. The only message a handle ever shows is the one of the Draw tool,
    and each time it shows it an event is cancelled: the messages shown by
    a list of events are no more than the results that carry [Cancelled]. *)
Theorem gesture_messages (es : list GestureEvent) :
  forall (this this' : SampleHandle) (w w' : World T) (rs : list Result),
    deliver_all this es w = Some (rs, this', w') ->
    exists n : nat,
      messages w' = messages w ++ repeat draw_tool_message n
      /\ (n <= List.length (filter cancelled rs))%nat
      /\ List.length rs = List.length es.
Proof.
  induction es as [|e es IH]; intros this this' w w' rs; simpl.
  - unfold ret. intro E. injection E as <- <- <-.
    exists 0%nat. simpl. rewrite app_nil_r. auto.
  - unfold bind at 1.
    destruct (deliver this e w) as [[[r this1] w1]|] eqn:D; [|discriminate].
    unfold bind at 1. simpl snd.
    destruct (deliver_all this1 es w1) as [[[rs1 this2] w2]|] eqn:R;
      [|discriminate].
    unfold ret. simpl. intro E. injection E as <- <- <-.
    destruct (deliver_footprint _ _ _ _ _ _ D) as (_ & _ & Ms & _).
    destruct (IH _ _ _ _ _ R) as (n & Ms' & Le & Len).
    destruct Ms as [Ms|[Ms C]].
    + exists n. rewrite Ms', Ms. split; [reflexivity|].
      split; [|simpl; congruence].
      simpl. destruct (cancelled r); simpl; lia.
    + exists (S n). rewrite Ms', Ms, <- app_assoc. split; [reflexivity|].
      simpl. rewrite C. simpl. split; [lia|congruence].
Qed.

(** X18. The calls a handle makes on the history: only [RollbackState] and
    the consolidated [PushState] of the sample edit, at most one for each
    event, and as many states pushed as there were [Release] events with
    audio not active. *)
Theorem gesture_history (es : list GestureEvent) :
  forall (this this' : SampleHandle) (w w' : World T) (rs : list Result),
    deliver_all this es w = Some (rs, this', w') ->
    exists calls : list HistoryCall,
      history w' = history w ++ calls
      /\ Forall (fun c =>
                   c = RollbackState
                   \/ c = PushState "Moved Samples" "Sample Edit"
                          UndoPush_CONSOLIDATE) calls
      /\ (List.length calls <= List.length es)%nat
      /\ List.length
           (filter (fun c => match c with
                             | PushState _ _ _ => true
                             | RollbackState => false
                             end) calls)
         = List.length
             (filter (fun e => match e with
                               | EvRelease p => negb (IsAudioActive p)
                               | _ => false
                               end) es).
Proof.
  induction es as [|e es IH]; intros this this' w w' rs; simpl.
  - unfold ret. intro E. injection E as <- <- <-.
    exists []. rewrite app_nil_r. repeat split; auto.
  - unfold bind at 1.
    destruct (deliver this e w) as [[[r this1] w1]|] eqn:D; [|discriminate].
    unfold bind at 1. simpl snd.
    destruct (deliver_all this1 es w1) as [[[rs1 this2] w2]|] eqn:R;
      [|discriminate].
    unfold ret. simpl. intro E. injection E as <- <- <-.
    destruct (deliver_footprint _ _ _ _ _ _ D) as (_ & _ & _ & Hi & _).
    destruct (IH _ _ _ _ _ R) as (calls & Hi' & Known & Le & Pushes).
    destruct Hi as [[Hi K]|[[Hi K]|[Hi K]]].
    + exists calls. rewrite Hi', Hi. split; [reflexivity|].
      split; [exact Known|]. split; [lia|].
      destruct e as [evt p|evt p|p|]; try contradiction; exact Pushes.
    + exists (RollbackState :: calls). rewrite Hi', Hi, <- app_assoc.
      split; [reflexivity|].
      split; [constructor; [left; reflexivity|exact Known]|].
      split; [simpl; lia|].
      destruct e as [evt p|evt p|p|]; try contradiction;
        try rewrite K; simpl; exact Pushes.
    + exists (PushState "Moved Samples" "Sample Edit" UndoPush_CONSOLIDATE
              :: calls).
      rewrite Hi', Hi, <- app_assoc. split; [reflexivity|].
      split; [constructor; [right; reflexivity|exact Known]|].
      split; [simpl; lia|].
      destruct e as [evt p|evt p|p|]; try contradiction.
      rewrite K. simpl. f_equal. exact Pushes.
Qed.

(** X19. The rectangle, the start pixel and the mode of a gesture are set
    by [Click] and by nothing else: a list of events with no [Click] in it
    leaves the three members as they were. *)
Theorem only_Click_sets_mode (es : list GestureEvent) :
  forall (this this' : SampleHandle) (w w' : World T) (rs : list Result),
    Forall (fun e => match e with EvClick _ _ => False | _ => True end) es ->
    deliver_all this es w = Some (rs, this', w') ->
    mRect this' = mRect this
    /\ mClickedStartPixel this' = mClickedStartPixel this
    /\ mAltKey this' = mAltKey this.
Proof.
  induction es as [|e es IH]; intros this this' w w' rs F; simpl.
  - unfold ret. intro E. injection E as <- <- <-. auto.
  - unfold bind at 1.
    destruct (deliver this e w) as [[[r this1] w1]|] eqn:D; [|discriminate].
    unfold bind at 1. simpl snd.
    destruct (deliver_all this1 es w1) as [[[rs1 this2] w2]|] eqn:R;
      [|discriminate].
    unfold ret. simpl. intro E. injection E as <- <- <-.
    inversion F as [|e0 es0 Fe Fes]; subst.
    destruct (deliver_footprint _ _ _ _ _ _ D) as (_ & _ & _ & _ & Mode).
    destruct (IH _ _ _ _ _ Fes R) as (R2 & S2 & A2).
    destruct Mode as [Mode|(R1 & S1 & A1)].
    + destruct e; contradiction.
    + repeat split; congruence.
Qed.

Lemma clamped_quotient (e d : Q) :
  0 < e ->
  (e <= d -> Qmax (-1) (Qmin 1 (d / e)) == 1)
  /\ (d <= - e -> Qmax (-1) (Qmin 1 (d / e)) == -1)
  /\ (0 <= d -> 0 <= Qmax (-1) (Qmin 1 (d / e)))
  /\ (d <= 0 -> Qmax (-1) (Qmin 1 (d / e)) <= 0).
Proof.
  intro Pos.
  assert (d == d / e * e) as De by (field; lra).
  set (q := d / e) in *.
  repeat split; intro B;
    destruct (Q.min_spec 1 q) as [[L ->]|[L ->]];
    destruct (Q.max_spec (-1) q) as [[M E]|[M E]];
    destruct (Q.max_spec (-1) 1) as [[M' E']|[M' E']];
    try rewrite E; try rewrite E'; nra.
Qed.

(** X20. With an envelope of positive scale, a pointer on a level the
    envelope cannot render gives full scale: [FindSampleEditingLevel] is 1
    when the displayed level of the pointer is at or above the scale, and -1
    when it is at or below minus the scale; and the level has the sign of
    the displayed level. *)
Theorem edited_level_saturates (this : SampleHandle) (event : wxMouseState)
    (viewInfo : ViewInfo) (t0 : Q) (w : World T) (id : TrackId)
    (env : Envelope) :
  mClickedTrack this = Some id ->
  let wt := tracks w id in
  let displayedLevel :=
    ValueOfPixel (m_y event - y (mRect this)) (height (mRect this)) false
      (negb (isLinear wt)) (dBRange wt)
      (fst (GetDisplayBounds wt)) (snd (GetDisplayBounds wt)) in
  GetEnvelopeAtTime wt (PositionToTime viewInfo (m_x event) (x (mRect this)))
  = Some env ->
  0 < GetValue env t0 ->
  exists level : Q,
    FindSampleEditingLevel this event viewInfo t0 w = Some (level, w)
    /\ (GetValue env t0 <= displayedLevel -> level == 1)
    /\ (displayedLevel <= - GetValue env t0 -> level == -1)
    /\ (0 <= displayedLevel -> 0 <= level)
    /\ (displayedLevel <= 0 -> level <= 0).
Proof.
  intros P wt displayedLevel En Pos.
  unfold FindSampleEditingLevel, deref, get, bind, lift, ret.
  rewrite P. cbn [option_map]. fold wt.
  subst displayedLevel. destruct (GetDisplayBounds wt) as [zoomMin zoomMax].
  cbn [fst snd]. rewrite En.
  eexists. split; [reflexivity|].
  rewrite NumFacts.std_max_Qmax, NumFacts.std_min_Qmin.
  apply NumFacts.ltb_lt in Pos. rewrite Pos. apply NumFacts.ltb_lt in Pos.
  apply clamped_quotient. exact Pos.
Qed.

(** X21. Two drags in a row, in drawing mode, draw on from one level: the
    first writes a segment towards the level it keeps, and the second
    writes, on the same track, a segment whose first anchor is that level
    at the time of the pixel the first one kept, and which has exactly that
    level there. *)
Theorem drag_segments_join (this this1 this2 : SampleHandle)
    (e1 e2 : TrackPanelMouseEvent) (p1 p2 : AudacityProject)
    (w w1 w2 : World T) (r1 r2 : Result) :
  mAltKey this = false ->
  Drag this e1 p1 w = Some (r1, this1, w1) ->
  cancelled r1 = false ->
  Drag this1 e2 p2 w1 = Some (r2, this2, w2) ->
  cancelled r2 = false ->
  let t0 := PositionToTime (viewInfo p1) (mLastDragPixel this) 0 in
  let t1 := PositionToTime (viewInfo p1) (m_x (event e1)) (x (mRect this)) in
  let t0' := PositionToTime (viewInfo p2) (mLastDragPixel this1) 0 in
  let t1' := PositionToTime (viewInfo p2) (m_x (event e2)) (x (mRect this)) in
  let first :=
    interpolator t0 t1 (mLastDragSampleValue this)
      (mLastDragSampleValue this1) in
  let second :=
    interpolator t0' t1' (mLastDragSampleValue this1)
      (mLastDragSampleValue this2) in
  exists id,
    mClickedTrack this = Some id
    /\ tracks w1 id
       = SetFloatsWithinTimeRange (tracks w id) (Qmin t0 t1) (Qmax t0 t1) 0%Z
           first narrowestSampleFormat
    /\ tracks w2 id
       = SetFloatsWithinTimeRange (tracks w1 id) (Qmin t0' t1') (Qmax t0' t1')
           0%Z second narrowestSampleFormat
    /\ (~ t0' == t1' -> second t0' == mLastDragSampleValue this1)
    /\ (m_controlDown (event e1) = false ->
        mLastDragPixel this1
        = Num.to_int (TimeToPosition (viewInfo p1) t1 0)).
Proof.
  intros Alt D1 NC1 D2 NC2 t0 t1 t0' t1' first second.
  destruct (Drag_cases _ _ _ _ _ _ _ D1)
    as [(-> & _)|[(_ & Alt' & _)
                 |(_ & _ & _ & _ & _ & E1 & _ & id & P & _ & Tr1)]];
    [discriminate NC1|congruence|].
  assert (mAltKey this1 = false /\ mClickedTrack this1 = Some id
          /\ mRect this1 = mRect this) as (Alt1 & P1 & R1).
  { rewrite E1. members. auto. }
  destruct (Drag_cases _ _ _ _ _ _ _ D2)
    as [(-> & _)|[(_ & Alt' & _)
                 |(_ & _ & _ & _ & _ & _ & _ & id' & P' & _ & Tr2)]];
    [discriminate NC2|congruence|].
  assert (id' = id) as -> by congruence.
  rewrite R1 in Tr2.
  exists id. split; [exact P|]. split; [exact Tr1|]. split; [exact Tr2|].
  split.
  - intro D. apply interpolator_start. exact D.
  - intro C. rewrite E1. members. rewrite C. reflexivity.
Qed.

(** X22. On a handle whose pointer to the track is cleared, no method is
    turned away by a test of the pointer.  [Release] and [Cancel] run as on
    a live handle and call the history again; [Click] is rejected when audio
    is active; and the methods that look at the track, [Click] with audio
    not active, [Drag] and [FindSampleEditingLevel], and [HitTest] on a null
    track, dereference the null pointer. *)
Theorem methods_on_cleared_pointer (this : SampleHandle)
    (evt : TrackPanelMouseEvent) (pProject : AudacityProject) (w : World T)
    (t0 : Q) :
  mClickedTrack this = None ->
  Drag this evt pProject w = None
  /\ Click this evt pProject w
     = (if IsAudioActive pProject then Some (Cancelled, this, w) else None)
  /\ FindSampleEditingLevel this (event evt) (viewInfo pProject) t0 w = None
  /\ HitTest (event evt) (rect evt) pProject None w = None
  /\ Release this pProject w
     = Some (if IsAudioActive pProject then RefreshCell else RefreshNone,
             this,
             mkWorld (tracks w)
               (history w
                ++ [if IsAudioActive pProject then RollbackState
                    else PushState "Moved Samples" "Sample Edit"
                           UndoPush_CONSOLIDATE])
               (messages w))
  /\ Cancel this w
     = Some (RefreshCell, this,
             mkWorld (tracks w) (history w ++ [RollbackState]) (messages w)).
Proof.
  intro N.
  assert (set_mClickedTrack this None = this) as Same
    by (destruct this; simpl in N; subst; reflexivity).
  split; [apply Drag_null; exact N|]. split.
  { rewrite Click_run, N. destruct (IsAudioActive pProject); [reflexivity|].
    cbn [option_map]. rewrite IsSampleEditingPossible_null. reflexivity. }
  split.
  { unfold FindSampleEditingLevel, deref, get, bind, lift.
    rewrite N. reflexivity. }
  split; [reflexivity|].
  rewrite Release_run, Cancel_run, Same.
  destruct (IsAudioActive pProject); split; reflexivity.
Qed.

(** X23. The two ways a method can go wrong are the only ones: on a handle
    that holds its track, in a view that gives a first interval for the
    width of the rectangle, every event returns. *)
Theorem deliver_returns (this : SampleHandle) (e : GestureEvent)
    (w : World T) (id : TrackId) :
  mClickedTrack this = Some id ->
  match e with
  | EvClick evt p => FindIntervals (viewInfo p) (width (rect evt)) <> []
  | EvDrag evt p => FindIntervals (viewInfo p) (width (mRect this)) <> []
  | EvRelease _ | EvCancel => True
  end ->
  exists r this' w', deliver this e w = Some (r, this', w').
Proof.
  intros P N. destruct e as [evt p|evt p|p|]; simpl deliver.
  - rewrite Click_run, P.
    destruct (IsAudioActive p); [do 3 eexists; reflexivity|].
    cbn [option_map]. rewrite IsSampleEditingPossible_run.
    destruct (adjustTime_returns (tracks w id)
                (PositionToTime (viewInfo p) (m_x (event evt))
                   (x (rect evt)))) as [tt ->].
    destruct (SampleResolutionTest_returns (viewInfo p) (tracks w id) tt
                (width (rect evt)) N) as [[|] ->];
      [|do 3 eexists; reflexivity].
    cbv zeta. destruct (m_altDown (event evt)).
    + unfold write. do 3 eexists. reflexivity.
    + match goal with
      | |- context [FindSampleEditingLevel ?h ?ev ?v ?t w] =>
          destruct (FindSampleEditingLevel_returns h ev v t w id P)
            as [newLevel ->]
      end.
      unfold write. do 3 eexists. reflexivity.
  - rewrite Drag_run, P. cbn [option_map].
    rewrite IsSampleEditingPossible_run.
    destruct (adjustTime_returns (tracks w id)
                (PositionToTime (viewInfo p) (m_x (event evt))
                   (x (mRect this)))) as [tt ->].
    destruct (SampleResolutionTest_returns (viewInfo p) (tracks w id) tt
                (width (mRect this)) N) as [[|] ->].
    + destruct (IsAudioActive p); cbn [orb negb];
        [do 3 eexists; reflexivity|].
      destruct (mAltKey this); [do 3 eexists; reflexivity|].
      cbv zeta.
      match goal with
      | |- context [FindSampleEditingLevel ?h ?ev ?v ?t w] =>
          destruct (FindSampleEditingLevel_returns h ev v t w id P)
            as [newLevel ->]
      end.
      unfold write. do 3 eexists. reflexivity.
    + rewrite orb_true_r. do 3 eexists. reflexivity.
  - rewrite Release_run, Cancel_run.
    destruct (IsAudioActive p); do 3 eexists; reflexivity.
  - rewrite Cancel_run. do 3 eexists. reflexivity.
Qed.

End Gestures.

(** * The further properties at work on the instance *)

Module Scenarios.

Import Demo.

(** The segment from (0, 0.2) to (1, -0.3), asked before it starts, and
    the same segment drawn from right to left, asked after its first
    anchor. *)
Lemma interpolator_holds_first_level_witness :
  interpolator 0 1 (2 # 10) (- (3 # 10)) (- (1 # 2)) == 2 # 10
  /\ interpolator 1 0 (- (3 # 10)) (2 # 10) (3 # 2) == - (3 # 10).
Proof.
  split.
  - destruct (interpolator_holds_first_level 0 1 (2 # 10) (- (3 # 10))
                (- (1 # 2))) as (_ & Before & _); [discriminate|].
    apply Before; [reflexivity|discriminate].
  - destruct (interpolator_holds_first_level 1 0 (- (3 # 10)) (2 # 10)
                (3 # 2)) as (_ & _ & After); [discriminate|].
    apply After; [reflexivity|discriminate].
Defined.

(** Downhill from 0.2 to -0.3: later is lower. *)
Lemma interpolator_monotone_witness :
  interpolator 0 1 (2 # 10) (- (3 # 10)) (3 # 4)
  <= interpolator 0 1 (2 # 10) (- (3 # 10)) (1 # 4).
Proof.
  destruct (interpolator_monotone 0 1 (2 # 10) (- (3 # 10)) (1 # 4) (3 # 4))
    as [_ Down]; [reflexivity|discriminate|].
  apply Down. discriminate.
Defined.

(** Entry 7 of the truncated window, 100, lies 4 samples from the sample of
    brush point 3: the value written there is what an all-zero window
    gives. *)
Lemma smoothing_is_local_witness :
  nth 8 (smoothed_values truncated_window (0, 17)%Z) 0
  = nth 8 (smoothed_values (fun _ => 0) (0, 17)%Z) 0.
Proof.
  apply (smoothing_is_local truncated_window (fun _ => 0) (0, 17)%Z 3).
  - simpl. tauto.
  - intros i B. unfold truncated_window.
    destruct (Z.eqb_spec i 7) as [->|_]; [|reflexivity].
    unfold SMOOTHING_BRUSH_RADIUS, SMOOTHING_KERNEL_RADIUS in B. lia.
Defined.

(** At the start of a clip, where the entries 8..16 were read: the zero
    window of the truncated read is nowhere above a window that is 1/2
    there, and the values written for the sample of the click are in that
    order; the second is not below zero. *)
Lemma smoothing_keeps_order_witness :
  nth 5 (smoothed_values truncated_window truncated_range) 0
  <= nth 5 (smoothed_values (fun _ => 1 # 2) truncated_range) 0
  /\ 0 <= nth 5 (smoothed_values (fun _ => 1 # 2) truncated_range) 0.
Proof.
  destruct (smoothing_keeps_order truncated_window (fun _ => 1 # 2)
              truncated_range 0) as [Mono Sign]; [simpl; tauto|].
  split.
  - apply Mono.
    + intros i _ R. unfold truncated_window.
      destruct (Z.eqb_spec i 7) as [->|_]; [simpl in R; lia|discriminate].
    + discriminate.
  - apply Sign; [intros; discriminate|discriminate].
Defined.

(** The lowest index the loops use is 0, the highest 16. *)
Lemma brush_indices_in_bounds_witness :
  (0 <= sampleRegionIndex (-3) (-5) < 17)%Z
  /\ (0 <= sampleRegionIndex 3 5 < 17)%Z.
Proof.
  split.
  - apply (brush_indices_in_bounds (-3) (-5)); simpl; tauto.
  - apply (brush_indices_in_bounds 3 5); simpl; tauto.
Defined.

(** A click at 29 pixels per second on the clip of 10 samples per second. *)
Lemma Click_rejected_by_zoom_witness :
  Click fresh (mouse 50 50 false false) (quiet 29) (world_of plain_track)
  = Some (Cancelled, fresh,
          mkWorld (tracks (world_of plain_track)) [] [draw_tool_message]).
Proof.
  eapply (Click_rejected_by_zoom fresh (mouse 50 50 false false) (quiet 29)
            (world_of plain_track) 0%nat).
  - reflexivity.
  - reflexivity.
  - reflexivity.
  - vm_compute. reflexivity.
Defined.

(** A drag after the view was zoomed out to 29 pixels per second. *)
Lemma Drag_cancelled_by_zoom_witness :
  exists this',
    Drag armed (mouse 60 40 false false) (quiet 29) (world_of plain_track)
    = Some (mkResult true true, this',
            mkWorld (tracks (world_of plain_track)) [RollbackState]
              [draw_tool_message])
    /\ mClickedTrack armed = Some 0%nat
    /\ mClickedTrack this' = None.
Proof.
  edestruct (Drag_cancelled_by_zoom armed (mouse 60 40 false false)
               (quiet 29) (world_of plain_track) 0%nat)
    as (this' & D & Ptr & _).
  - reflexivity.
  - reflexivity.
  - vm_compute. reflexivity.
  - exists this'. split; [exact D|]. split; [reflexivity|exact Ptr].
Defined.

(** The plain click of the stroke. *)
Lemma Click_arms_gesture_witness :
  exists this' w',
    Click fresh (mouse 50 50 false false) (quiet 100) (world_of plain_track)
    = Some (RefreshCell, this', w')
    /\ mRect this' = cell
    /\ mAltKey this' = false
    /\ mLastDragPixel this' = mClickedStartPixel this'
    /\ history w' = []
    /\ messages w' = [].
Proof.
  assert (option_map (fun out => cancelled (fst (fst out)))
            (Click fresh (mouse 50 50 false false) (quiet 100)
               (world_of plain_track))
          = Some false) as R by (vm_compute; reflexivity).
  destruct (Click fresh (mouse 50 50 false false) (quiet 100)
              (world_of plain_track)) as [[[r this'] w']|] eqn:E;
    [|discriminate R].
  cbn [option_map fst] in R. injection R as R.
  pose proof (Click_arms_gesture _ _ _ _ _ _ _ E R) as G. cbv zeta in G.
  destruct G as (-> & Hi & Ms & Re & _ & Px & Alt & _).
  exists this', w'. repeat split; assumption.
Defined.

(** Two drags after a click with the alt key. *)
Lemma smoothing_drags_change_nothing_witness :
  exists rs,
    deliver_all brushing
      [EvDrag (mouse 60 40 false false) (quiet 100);
       EvDrag (mouse 70 30 false false) (quiet 100)] (world_of plain_track)
    = Some (rs, brushing, world_of plain_track).
Proof.
  assert (option_map (fun out => fst (fst out))
            (deliver_all brushing
               [EvDrag (mouse 60 40 false false) (quiet 100);
                EvDrag (mouse 70 30 false false) (quiet 100)]
               (world_of plain_track))
          = Some [RefreshNone; RefreshNone]) as R by (vm_compute; reflexivity).
  destruct (deliver_all brushing _ (world_of plain_track))
    as [[[rs this'] w']|] eqn:E; [|discriminate R].
  cbn [option_map fst] in R. injection R as R.
  destruct (smoothing_drags_change_nothing
              [(mouse 60 40 false false, quiet 100);
               (mouse 70 30 false false, quiet 100)]
              brushing this' (world_of plain_track) w' rs eq_refl E)
    as (-> & -> & _).
  - rewrite R. repeat constructor.
  - exists rs. reflexivity.
Defined.

(** The pointer 9 pixels below the sample: a hit, and the click goes
    through. *)
Lemma Click_after_HitTest_witness :
  exists this' w',
    Click (HitAnywhere (Some 0%nat))
      (mkTPME (mkMouse 100 59 false false) cell) (quiet 100)
      (world_of plain_track)
    = Some (RefreshCell, this', w')
    /\ messages w' = []
    /\ history w' = [].
Proof.
  destruct (Click_after_HitTest (mkMouse 100 59 false false) cell (quiet 100)
              0%nat (world_of plain_track) (world_of plain_track)
              (HitAnywhere (Some 0%nat)))
    as (this' & w' & C & _ & _ & Ms & Hi).
  - reflexivity.
  - reflexivity.
  - exists this', w'. auto.
Defined.

(** The stroke leaves track 1 alone. *)
Lemma gesture_touches_one_track_witness :
  exists rs this' w',
    deliver_all fresh stroke (world_of plain_track) = Some (rs, this', w')
    /\ tracks w' 1%nat = plain_track.
Proof.
  assert (option_map (fun _ => tt)
            (deliver_all fresh stroke (world_of plain_track))
          = Some tt) as R by (vm_compute; reflexivity).
  destruct (deliver_all fresh stroke (world_of plain_track))
    as [[[rs this'] w']|] eqn:E; [|discriminate R].
  destruct (gesture_touches_one_track _ _ _ _ _ _ E) as [_ Others].
  exists rs, this', w'. split; [reflexivity|].
  apply (Others 1%nat). discriminate.
Defined.

(** A click that is rejected for the zoom, then the cancel of the panel:
    one message. *)
Lemma gesture_messages_witness :
  exists rs this' w' n,
    deliver_all fresh [EvClick (mouse 50 50 false false) (quiet 29); EvCancel]
      (world_of plain_track)
    = Some (rs, this', w')
    /\ messages w' = repeat draw_tool_message n
    /\ (n <= 1)%nat.
Proof.
  assert (option_map (fun out => fst (fst out))
            (deliver_all fresh
               [EvClick (mouse 50 50 false false) (quiet 29); EvCancel]
               (world_of plain_track))
          = Some [Cancelled; RefreshCell]) as R by (vm_compute; reflexivity).
  destruct (deliver_all fresh _ (world_of plain_track))
    as [[[rs this'] w']|] eqn:E; [|discriminate R].
  cbn [option_map fst] in R. injection R as R.
  destruct (gesture_messages _ _ _ _ _ _ E) as (n & Ms & Le & _).
  exists rs, this', w', n. split; [reflexivity|]. split; [exact Ms|].
  rewrite R in Le. exact Le.
Defined.

(** The stroke: one call on the history, a state pushed. *)
Lemma gesture_history_witness :
  exists rs this' w' calls,
    deliver_all fresh stroke (world_of plain_track) = Some (rs, this', w')
    /\ history w' = calls
    /\ List.length
         (filter (fun c => match c with
                           | PushState _ _ _ => true
                           | RollbackState => false
                           end) calls)
       = 1%nat.
Proof.
  assert (option_map (fun _ => tt)
            (deliver_all fresh stroke (world_of plain_track))
          = Some tt) as R by (vm_compute; reflexivity).
  destruct (deliver_all fresh stroke (world_of plain_track))
    as [[[rs this'] w']|] eqn:E; [|discriminate R].
  destruct (gesture_history _ _ _ _ _ _ E) as (calls & Hi & _ & _ & Pushes).
  exists rs, this', w', calls. split; [reflexivity|]. split; [exact Hi|].
  exact Pushes.
Defined.

(** The drags and the release of the stroke, on the handle its click
    left. *)
Lemma only_Click_sets_mode_witness :
  exists rs this' w',
    deliver_all armed (tl stroke) (world_of plain_track) = Some (rs, this', w')
    /\ mRect this' = cell
    /\ mClickedStartPixel this' = 50%Z
    /\ mAltKey this' = false.
Proof.
  assert (option_map (fun _ => tt)
            (deliver_all armed (tl stroke) (world_of plain_track))
          = Some tt) as R by (vm_compute; reflexivity).
  destruct (deliver_all armed (tl stroke) (world_of plain_track))
    as [[[rs this'] w']|] eqn:E; [|discriminate R].
  assert (Forall (fun e => match e with
                           | EvClick _ _ => False
                           | _ => True
                           end) (tl stroke)) as F by (repeat constructor).
  destruct (only_Click_sets_mode (tl stroke) _ _ _ _ _ F E)
    as (Re & Px & Alt).
  exists rs, this', w'. repeat split; assumption.
Defined.

(** Under an envelope of scale 1/2, a pointer on the displayed level 1/2:
    full scale. *)
Lemma edited_level_saturates_witness :
  exists level,
    FindSampleEditingLevel armed (mkMouse 60 25 false false) (view 100) 1
      (world_of (flat_track true (1 # 2) 0 1))
    = Some (level, world_of (flat_track true (1 # 2) 0 1))
    /\ level == 1.
Proof.
  pose proof (edited_level_saturates armed (mkMouse 60 25 false false)
                (view 100) 1 (world_of (flat_track true (1 # 2) 0 1)) 0%nat
                (mkEnvelope (fun _ => 1 # 2)) eq_refl) as G.
  cbv zeta in G.
  destruct G as (level & E & Top & _); [reflexivity|reflexivity|].
  exists level. split; [exact E|].
  apply Top. discriminate.
Defined.

(** The two drags of the stroke: the second starts, at the time of pixel
    60, from the level the first kept. *)
Lemma drag_segments_join_witness :
  exists r1 this1 w1 r2 this2 w2,
    Drag armed (mouse 60 40 false false) (quiet 100) (world_of plain_track)
    = Some (r1, this1, w1)
    /\ Drag this1 (mouse 70 30 false false) (quiet 100) w1
       = Some (r2, this2, w2)
    /\ mLastDragPixel this1 = 60%Z
    /\ interpolator (PositionToTime (view 100) 60 0)
         (PositionToTime (view 100) 70 0) (mLastDragSampleValue this1)
         (mLastDragSampleValue this2) (PositionToTime (view 100) 60 0)
       == mLastDragSampleValue this1.
Proof.
  assert (option_map (fun out => cancelled (fst (fst out)))
            (Drag armed (mouse 60 40 false false) (quiet 100)
               (world_of plain_track))
          = Some false) as R1 by (vm_compute; reflexivity).
  assert (option_map (fun out => cancelled (fst (fst out)))
            match Drag armed (mouse 60 40 false false) (quiet 100)
                    (world_of plain_track) with
            | Some (_, this1, w1) =>
                Drag this1 (mouse 70 30 false false) (quiet 100) w1
            | None => None
            end
          = Some false) as R2 by (vm_compute; reflexivity).
  destruct (Drag armed (mouse 60 40 false false) (quiet 100)
              (world_of plain_track)) as [[[r1 this1] w1]|] eqn:D1;
    [|discriminate R1].
  cbn [option_map fst] in R1. injection R1 as R1.
  destruct (Drag this1 (mouse 70 30 false false) (quiet 100) w1)
    as [[[r2 this2] w2]|] eqn:D2; [|discriminate R2].
  cbn [option_map fst] in R2. injection R2 as R2.
  pose proof (drag_segments_join armed this1 this2 _ _ _ _ _ _ _ _ _
                eq_refl D1 R1 D2 R2) as G.
  cbv zeta in G. destruct G as (id & _ & _ & _ & Start & Px).
  specialize (Px eq_refl).
  assert (mLastDragPixel this1 = 60%Z) as Px60 by (rewrite Px; reflexivity).
  rewrite Px60 in Start.
  exists r1, this1, w1, r2, this2, w2.
  split; [reflexivity|]. split; [exact D2|]. split; [exact Px60|].
  apply Start. discriminate.
Defined.

(** The handle after a release. *)
Lemma methods_on_cleared_pointer_witness :
  Drag (set_mClickedTrack armed None) (mouse 60 40 false false) (quiet 100)
    (world_of plain_track)
  = None
  /\ Click (set_mClickedTrack armed None) (mouse 60 40 false false)
       (quiet 100) (world_of plain_track)
     = None.
Proof.
  destruct (methods_on_cleared_pointer (set_mClickedTrack armed None)
              (mouse 60 40 false false) (quiet 100) (world_of plain_track) 0
              eq_refl) as (D & C & _).
  split; [exact D|exact C].
Defined.

(** A drag of the stroke returns. *)
Lemma deliver_returns_witness :
  exists r this' w',
    deliver armed (EvDrag (mouse 60 40 false false) (quiet 100))
      (world_of plain_track)
    = Some (r, this', w').
Proof.
  apply (deliver_returns armed (EvDrag (mouse 60 40 false false) (quiet 100))
           (world_of plain_track) 0%nat).
  - reflexivity.
  - discriminate.
Defined.

End Scenarios.
